(** * cdktf-constructs: the composition layer, embedded and verified

    The repository is a set of CDKTF constructs.  Each constructor
    registers itself under a scope, declares resources with a
    configuration object, and hands out deferred references (tokens) to
    the attributes of what it declared.  This file embeds the
    constructors as state-passing functions over an explicit construct
    tree and settles the properties stated about them. *)

From Stdlib Require Import ZArith Ascii String.
From stdpp Require Import base tactics option list strings.

Set Default Proof Using "Type".
Set Warnings "-register-all".
Local Open Scope string_scope.
Local Open Scope list_scope.

(** ** Values

    What a JavaScript expression of the constructors evaluates to: the
    literals, objects and arrays of configuration objects, construct
    instances, and the tokens CDKTF hands out for resource attributes. *)

(** A construct path, innermost id first: the head is the construct's own
    id, the tail the path of its scope. *)
Definition path := list string.

Inductive value : Type :=
| VUndef
| VBool (b : bool)
| VNum (n : Z)
| VStr (s : string)
| VTok (producer : path) (attr : string)
| VTemplate (parts : list value)
| VArr (items : list value)
| VObj (fields : list (string * value))
| VRes (p : path)
| VCall (fn : string) (args : list value).

Definition obj := list (string * value).

Fixpoint path_eqb (p q : path) : bool :=
  match p, q with
  | [], [] => true
  | a :: p', b :: q' => String.eqb a b && path_eqb p' q'
  | _, _ => false
  end.

(** ** Objects: literals, property reads and spread *)

Fixpoint obj_lookup (k : string) (o : obj) : option value :=
  match o with
  | [] => None
  | (k', v) :: r => if String.eqb k k' then Some v else obj_lookup k r
  end.

(** [o[k]]: a missing property reads as [undefined]. *)
Definition obj_get (k : string) (o : obj) : value :=
  default VUndef (obj_lookup k o).

(** Defining property [k]: an existing key keeps its position and takes
    the new value, a new key goes last. *)
Fixpoint obj_set (k : string) (v : value) (o : obj) : obj :=
  match o with
  | [] => [(k, v)]
  | (k', v') :: r =>
      if String.eqb k k' then (k, v) :: r else (k', v') :: obj_set k v r
  end.

(** [{...base, ...extra}]: the properties of [extra] are defined on top of
    [base], in order. *)
Definition spread (base extra : obj) : obj :=
  fold_left (fun acc kv => obj_set kv.1 kv.2 acc) extra base.

(** [...x] where [x] may be [undefined]: nothing is copied then. *)
Definition opt_obj (o : option obj) : obj := default [] o.

(** Keys of a well-formed object are pairwise distinct. *)
Definition obj_wf (o : obj) : Prop := NoDup (o.*1).

(** ** Strings *)

(** [s.includes(c)] for a one-character needle. *)
Fixpoint includes (c : ascii) (s : string) : bool :=
  match s with
  | EmptyString => false
  | String a r => Ascii.eqb a c || includes c r
  end.

(** [s.split(c)] for a one-character separator. *)
Fixpoint split (c : ascii) (s : string) : list string :=
  match s with
  | EmptyString => [EmptyString]
  | String a r =>
      if Ascii.eqb a c then EmptyString :: split c r
      else match split c r with
           | h :: t => String a h :: t
           | [] => [String a EmptyString]
           end
  end.

(** [s.replace(a, b)] with one-character strings: the first occurrence
    only. *)
Fixpoint replace_first (a b : ascii) (s : string) : string :=
  match s with
  | EmptyString => EmptyString
  | String c r =>
      if Ascii.eqb c a then String b r else String c (replace_first a b r)
  end.

(** [s.replaceAll(a, b)] with one-character strings. *)
Fixpoint replaceAll (a b : ascii) (s : string) : string :=
  match s with
  | EmptyString => EmptyString
  | String c r =>
      String (if Ascii.eqb c a then b else c) (replaceAll a b r)
  end.

Definition lower_ascii (c : ascii) : ascii :=
  let n := nat_of_ascii c in
  if (65 <=? n)%nat && (n <=? 90)%nat then ascii_of_nat (n + 32) else c.

(** [s.toLowerCase()] for strings of ASCII characters: the letters [A]
    to [Z] are lowered and every other character is kept.  A character
    beyond ASCII is kept as well, which is not what JavaScript does to a
    capital letter there; a statement about the lowered string is made
    for ASCII strings only. *)
Fixpoint toLowerCase (s : string) : string :=
  match s with
  | EmptyString => EmptyString
  | String c r => String (lower_ascii c) (toLowerCase r)
  end.

(** Truthiness of an optional string: [undefined] and the empty string are
    falsy. *)
Definition truthy_str (o : option string) : bool :=
  match o with
  | Some s => negb (String.eqb s "")
  | None => false
  end.

(** Interpolating a possibly undefined string into a template literal. *)
Definition interpolate (o : option string) : string := default "undefined" o.

(** ** Errors and the composition monad *)

Inductive error : Type :=
| ConfigurationError (msg : string)
| DuplicateIdentifierError (scope : path) (id : string)
| CyclicDependencyError (cycle : list path)
| TypeError (msg : string).

Inductive result (A : Type) : Type :=
| Ok (a : A)
| Throw (e : error).
Arguments Ok {A} a.
Arguments Throw {A} e.

(** A resource declaration or a grouping construct, as registered in the
    tree.  The configuration carries the meta-arguments ([dependsOn],
    [provider], [lifecycle]) as ordinary properties, as CDKTF configs do. *)
Record decl : Type := Decl {
  d_path : path;
  d_kind : string;
  d_config : obj;
}.

(** The state of a composition pass: the declarations registered so far,
    oldest first, and the arrays that the caller and the constructors
    share by reference. *)
Record world : Type := World {
  nodes : list decl;
  arrays : list (list value);
}.

Definition empty_world : world := World [] [].

(** A thrown error leaves the state as it was when the throw happened:
    nothing is rolled back. *)
Definition M (A : Type) : Type := world -> world * result A.

Definition ret {A} (a : A) : M A := fun w => (w, Ok a).

Definition throw {A} (e : error) : M A := fun w => (w, Throw e).

Definition bind {A B} (m : M A) (k : A -> M B) : M B :=
  fun w =>
    match m w with
    | (w', Ok a) => k a w'
    | (w', Throw e) => (w', Throw e)
    end.

Notation "x <- m ;; k" := (bind m (fun x => k))
  (at level 100, m at next level, right associativity).
Notation "m ;;; k" := (bind m (fun _ => k))
  (at level 100, right associativity).

(** [for (const x of xs) body(x)] *)
Fixpoint for_each {A} (xs : list A) (body : A -> M unit) : M unit :=
  match xs with
  | [] => ret tt
  | x :: r => body x ;;; for_each r body
  end.

(** ** The construct tree *)

Definition has_path (p : path) (w : world) : bool :=
  existsb (fun d => path_eqb p (d_path d)) (nodes w).

Definition add_node (d : decl) (w : world) : world :=
  World (nodes w ++ [d]) (arrays w).

(** Modelled from the spec: the constructor of the [Construct] base class
    (package [constructs], not part of this repository).  A construct
    registers itself under its scope; an id already used by a sibling is
    refused at once with a DuplicateIdentifierError, "regardless of kind". *)
Definition register (kind : string) (scope : path) (id : string)
    (config : obj) : M value :=
  fun w =>
    if has_path (id :: scope) w
    then (w, Throw (DuplicateIdentifierError scope id))
    else (add_node (Decl (id :: scope) kind config) w, Ok (VRes (id :: scope))).

(** [super(scope, id)] in the constructor of class [cls], which extends
    [Construct] directly; the result is the path of [this]. *)
Definition construct (cls : string) (scope : path) (id : string) : M path :=
  _ <- register cls scope id [] ;; ret (id :: scope).

(** [v.k]: reading a property.  Reading from [undefined] throws; an
    attribute of a resource is a token for its eventual value. *)
Definition get_prop (v : value) (k : string) : M value :=
  match v with
  | VUndef =>
      throw (TypeError ("Cannot read properties of undefined (reading '"
                          +:+ k +:+ "')"))
  | VObj fs => ret (obj_get k fs)
  | VRes p => ret (VTok p k)
  | _ => ret VUndef
  end.

(** [const { k } = v]: destructuring a property out of [v]. *)
Definition destructure (v : value) (k : string) : M value :=
  match v with
  | VUndef =>
      throw (TypeError ("Cannot destructure property '" +:+ k
                          +:+ "' of undefined"))
  | _ => get_prop v k
  end.

(** [v.k1.k2...]: a chain of property reads. *)
Fixpoint get_path (v : value) (ks : list string) : M value :=
  match ks with
  | [] => ret v
  | k :: r => x <- get_prop v k ;; get_path x r
  end.

(** The attribute [attr] of the resource at [p], as the provider classes'
    getters return it. *)
Definition attr (r : value) (a : string) : value :=
  match r with
  | VRes p => VTok p a
  | _ => VUndef
  end.

(** Arrays shared by reference. *)
Definition new_array (items : list value) : M nat :=
  fun w => (World (nodes w) (arrays w ++ [items]), Ok (length (arrays w))).

Definition read_array (l : nat) : M (list value) :=
  fun w => (w, Ok (default [] (arrays w !! l))).

(** [arr.push(x)] *)
Definition push (l : nat) (x : value) : M unit :=
  fun w =>
    (World (nodes w) (alter (fun a => a ++ [x]) l (arrays w)), Ok tt).

(** [a ?? b] where both sides may be [undefined]. *)
Definition nullish {A} (a b : option A) : option A :=
  match a with
  | Some _ => a
  | None => b
  end.

(** The instance object a constructor returns: [node] is set by the base
    class, the other properties by the assignments to [this]. *)
Definition instance (this : path) (fields : obj) : value :=
  VObj (("node", VRes this) :: fields).

(** The path of a construct instance used as a scope. *)
Definition scope_of (v : value) : path :=
  match v with
  | VRes p => p
  | VObj fs => match obj_get "node" fs with VRes p => p | _ => [] end
  | _ => []
  end.

(** ** src/curiostack/index.ts *)
Module curiostack.

Record CurioStackConfig : Type := {
  project : string;
  location : string;
  domain : string;
  githubRepo : string;
  githubIdentityPoolId : option string;
  githubEnvironment : option string;
  terraformViewerServiceAccountId : option string;
  googleBeta : value;
}.

Definition missing_environment : string :=
  "project must include a `-` to determine the GitHub environment, or githubEnv must be provided".

(** [config.githubEnvironment ?? config.project.split("-")[1]] *)
Definition githubEnv (config : CurioStackConfig) : option string :=
  nullish (githubEnvironment config) (split "-" (project config) !! 1%nat).

Definition Apps (scope : path) (config : CurioStackConfig) : M value :=
  this <- construct "Apps" scope "apps" ;;
  artifactRegistryService <-
    register "ProjectService" this "service-artifactregistry"
      [("service", VStr "artifactregistry.googleapis.com")] ;;
  runService <-
    register "ProjectService" this "service-run"
      [("service", VStr "run.googleapis.com")] ;;
  _ <- register "ProjectService" this "service-cloudtrace"
      [("service", VStr "cloudtrace.googleapis.com")] ;;
  _ <- register "ProjectService" this "service-monitoring"
      [("service", VStr "monitoring.googleapis.com")] ;;
  deployerRole <-
    register "ProjectIamCustomRole" this "cloudrun-deployer"
      [("roleId", VStr "cloudRunDeployer");
       ("title", VStr "Cloud Run Deployer");
       ("permissions",
         VArr [VStr "run.operations.get"; VStr "run.services.create";
               VStr "run.services.get"; VStr "run.services.update"])] ;;
  githubIdPool <-
    register "DataGoogleIamWorkloadIdentityPool" this "github-id-pool"
      [("workloadIdentityPoolId",
         VStr (default "github" (githubIdentityPoolId config)));
       ("provider", googleBeta config)] ;;
  (if negb (truthy_str (githubEnvironment config))
      && negb (includes "-" (project config))
   then throw (ConfigurationError missing_environment)
   else ret tt) ;;;
  let githubEnv := githubEnv config in
  let githubEnvironmentIamMember :=
    VTemplate [VStr "principal://iam.googleapis.com/";
               attr githubIdPool "name";
               VStr "/subject/repo:"; VStr (githubRepo config);
               VStr ":environment:"; VStr (interpolate githubEnv)] in
  dockerRepository <-
    register "ArtifactRegistryRepository" this "docker-registry"
      [("repositoryId", VStr "docker");
       ("location", VStr (location config));
       ("format", VStr "DOCKER");
       ("dependsOn", VArr [artifactRegistryService])] ;;
  _ <- register "ProjectIamMember" this "github-cloudrun-deploy"
      [("project", VStr (project config));
       ("role", attr deployerRole "name");
       ("member", githubEnvironmentIamMember)] ;;
  _ <- register "ArtifactRegistryRepositoryIamMember" this
      "docker-member-github"
      [("repository", attr dockerRepository "name");
       ("location", attr dockerRepository "location");
       ("role", VStr "roles/artifactregistry.writer");
       ("member", githubEnvironmentIamMember)] ;;
  ghcrRepository <-
    register "ArtifactRegistryRepository" this "ghcr-repo"
      [("repositoryId", VStr "ghcr");
       ("location", VStr (location config));
       ("format", VStr "DOCKER");
       ("mode", VStr "REMOTE_REPOSITORY");
       ("remoteRepositoryConfig",
         VObj [("dockerRepository",
                 VObj [("customRepository",
                         VObj [("uri", VStr "https://ghcr.io")])])]);
       ("dependsOn", VArr [artifactRegistryService])] ;;
  ret (instance this
         [("runService", runService);
          ("githubEnvironmentIamMember", githubEnvironmentIamMember);
          ("dockerRepository", dockerRepository);
          ("ghcrRepository", ghcrRepository)]).

Definition Identity (scope : path) (config : CurioStackConfig) : M value :=
  this <- construct "Identity" scope "identity" ;;
  service <-
    register "ProjectService" this "identitytoolkit"
      [("service", VStr "identitytoolkit.googleapis.com")] ;;
  _ <- register "IdentityPlatformConfig" this "identity-platform"
      [("signIn", VObj [("email", VObj [("enabled", VBool true)])]);
       ("authorizedDomains",
         VArr [VStr "localhost"; VStr (domain config);
               VStr (project config +:+ ".web.app");
               VStr (project config +:+ ".firebaseapp.com")]);
       ("dependsOn", VArr [service])] ;;
  secretViewerRole <-
    register "ProjectIamCustomRole" this "firebaseauth-config-secret-viewer"
      [("project", VStr (project config));
       ("title", VStr "Firebase Auth Config Secret Viewer");
       ("roleId", VStr "firebaseauthConfigsSecretViewer");
       ("permissions", VArr [VStr "firebaseauth.configs.getSecret"])] ;;
  _ <- register "ProjectIamMember" this "terraform-viewer-firebase-secret"
      [("project", VStr (project config));
       ("role", attr secretViewerRole "name");
       ("member",
         VStr ("serviceAccount:"
                 +:+ default "terraform-viewer"
                       (terraformViewerServiceAccountId config)
                 +:+ "@" +:+ project config +:+ ".iam.gserviceaccount.com"))] ;;
  ret (instance this []).

Definition CurioStack (scope : path) (config : CurioStackConfig) : M value :=
  this <- construct "CurioStack" scope "curiostack" ;;
  apps <- Apps this config ;;
  dockerRepository <- get_prop apps "dockerRepository" ;;
  ghcrRepository <- get_prop apps "ghcrRepository" ;;
  githubEnvironmentIamMember <- get_prop apps "githubEnvironmentIamMember" ;;
  runService <- get_prop apps "runService" ;;
  _ <- Identity this config ;;
  ret (instance this
         [("project", VStr (project config));
          ("dockerRepository", dockerRepository);
          ("ghcrRepository", ghcrRepository);
          ("githubEnvironmentIamMember", githubEnvironmentIamMember);
          ("runService", runService)]).

End curiostack.

(** ** src/gcp-project/index.ts *)
Module gcp_project.

Record GcpProjectConfig : Type := {
  projectId : string;
  displayName : option string;
  organizationId : string;
  billingAccountId : string;
  githubInfraRepo : string;
  githubEnvironment : string;
  terraformStateLocation : option string;
  googleBeta : value;
  dependsOn : option (list value);
}.

Definition dquote : string := String (ascii_of_nat 34) EmptyString.

Definition GcpProject (scope : path) (config : GcpProjectConfig) : M value :=
  this <- construct "GcpProject" scope (projectId config) ;;
  project <-
    register "Project" this "this"
      [("projectId", VStr (projectId config));
       ("name", VStr (default (projectId config) (displayName config)));
       ("orgId", VStr (organizationId config));
       ("billingAccount", VStr (billingAccountId config));
       ("labels", VObj [("firebase", VStr "enabled")]);
       ("dependsOn", from_option VArr VUndef (dependsOn config))] ;;
  _ <- register "GoogleFirebaseProject" this "firebase"
      [("project", attr project "projectId");
       ("provider", googleBeta config)] ;;
  tfstateBucket <-
    register "StorageBucket" this "tfstate"
      [("project", attr project "projectId");
       ("name", VTemplate [attr project "projectId"; VStr "-tfstate"]);
       ("location", VStr (default "US" (terraformStateLocation config)));
       ("storageClass", VStr "STANDARD");
       ("versioning", VObj [("enabled", VBool true)])] ;;
  let tfstateBucketName := VStr (projectId config +:+ "-tfstate") in
  _ <- register "ProjectService" this "resourcemanager"
      [("project", attr project "projectId");
       ("service", VStr "cloudresourcemanager.googleapis.com")] ;;
  dnsService <-
    register "ProjectService" this "dns"
      [("project", attr project "projectId");
       ("service", VStr "dns.googleapis.com")] ;;
  iam <-
    register "ProjectService" this "iam"
      [("project", attr project "projectId");
       ("service", VStr "iam.googleapis.com")] ;;
  githubIdentityPool <-
    register "IamWorkloadIdentityPool" this "github-id-pool"
      [("project", attr project "projectId");
       ("workloadIdentityPoolId", VStr "github");
       ("dependsOn", VArr [iam])] ;;
  let orgName := interpolate (split "/" (githubInfraRepo config) !! 0%nat) in
  idProvider <-
    register "IamWorkloadIdentityPoolProvider" this "github-id-provider"
      [("project", attr project "projectId");
       ("workloadIdentityPoolProviderId", VStr "github");
       ("workloadIdentityPoolId",
         attr githubIdentityPool "workloadIdentityPoolId");
       ("attributeMapping",
         VObj [("google.subject", VStr "assertion.sub");
               ("attribute.actor", VStr "assertion.actor");
               ("attribute.repository", VStr "assertion.repository");
               ("attribute.repository_owner",
                 VStr "assertion.repository_owner")]);
       ("attributeCondition",
         VStr ("assertion.repository_owner == '" +:+ orgName +:+ "'"));
       ("oidc",
         VObj [("issuerUri",
                 VStr "https://token.actions.githubusercontent.com")])] ;;
  _ <- register "TerraformOutput" this
      ("github-identity-provider-" +:+ projectId config)
      [("staticId", VBool true); ("value", attr idProvider "name")] ;;
  kmsService <-
    register "ProjectService" this "kms-service"
      [("project", attr project "projectId");
       ("service", VStr "cloudkms.googleapis.com")] ;;
  terraformKeyring <-
    register "KmsKeyRing" this "terraform-keyring"
      [("project", attr project "projectId");
       ("name", VStr "terraform");
       ("location", VStr "global");
       ("dependsOn", VArr [kmsService])] ;;
  terraformSecretsKey <-
    register "KmsCryptoKey" this "terraform-key"
      [("keyRing", attr terraformKeyring "id"); ("name", VStr "secrets")] ;;
  terraformAdminServiceAccount <-
    register "ServiceAccount" this "terraform-admin"
      [("project", attr project "projectId");
       ("accountId", VStr "terraform-admin")] ;;
  _ <- register "ProjectIamMember" this "terraform-admin-owner"
      [("project", attr project "projectId");
       ("role", VStr "roles/owner");
       ("member", attr terraformAdminServiceAccount "member")] ;;
  _ <- register "ServiceAccountIamMember" this "terraform-admin-github-actions"
      [("serviceAccountId", attr terraformAdminServiceAccount "name");
       ("role", VStr "roles/iam.serviceAccountTokenCreator");
       ("member",
         VTemplate [VStr "principal://iam.googleapis.com/";
                    attr githubIdentityPool "name";
                    VStr "/subject/repo:"; VStr (githubInfraRepo config);
                    VStr ":environment:"; VStr (githubEnvironment config)])] ;;
  terraformViewerServiceAccount <-
    register "ServiceAccount" this "terraform-viewer"
      [("project", attr project "projectId");
       ("accountId", VStr "terraform-viewer")] ;;
  _ <- register "ProjectIamMember" this "terraform-viewer-viewer"
      [("project", attr project "projectId");
       ("role", VStr "roles/viewer");
       ("member", attr terraformViewerServiceAccount "member")] ;;
  _ <- register "ProjectIamMember" this "terraform-viewer-serviceUser"
      [("project", attr project "projectId");
       ("role", VStr "roles/serviceusage.serviceUsageConsumer");
       ("member", attr terraformViewerServiceAccount "member")] ;;
  _ <- register "KmsCryptoKeyIamMember" this "terraform-viewer-key-decrypter"
      [("cryptoKeyId", attr terraformSecretsKey "id");
       ("role", VStr "roles/cloudkms.cryptoOperator");
       ("member", attr terraformViewerServiceAccount "member")] ;;
  _ <- register "ProjectIamMember" this "terraform-viewer-key-secretaccess"
      [("project", attr project "projectId");
       ("role", VStr "roles/secretmanager.secretAccessor");
       ("member", attr terraformViewerServiceAccount "member")] ;;
  _ <- register "ServiceAccountIamMember" this
      "terraform-viewer-github-actions"
      [("serviceAccountId", attr terraformViewerServiceAccount "name");
       ("role", VStr "roles/iam.serviceAccountTokenCreator");
       ("member",
         VTemplate [VStr "principal://iam.googleapis.com/";
                    attr githubIdentityPool "name";
                    VStr "/subject/repo:"; VStr (githubInfraRepo config);
                    VStr ":environment:"; VStr (githubEnvironment config);
                    VStr "-viewer"])] ;;
  testablePermissions <-
    register "DataGoogleIamTestablePermissions" this
      "gcp-testable-permissions"
      [("fullResourceName",
         VTemplate [VStr "//cloudresourcemanager.googleapis.com/projects/";
                    attr project "projectId"]);
       ("stages", VArr [VStr "GA"; VStr "BETA"])] ;;
  iamPolicyViewerRole <-
    register "ProjectIamCustomRole" this "iam-policy-viewer"
      [("roleId", VStr "iamPolicyViewer");
       ("title", VStr "IAM Policy Viewer");
       ("project", attr project "projectId");
       ("permissions",
         VCall "TerraformIterator.fromList.forExpressionForList"
           [attr testablePermissions "permissions";
            VStr ("val.name if endswith(val.name, " +:+ dquote
                    +:+ ".getIamPolicy" +:+ dquote +:+ ")")])] ;;
  _ <- register "ProjectIamMember" this "terraform-viewer-iam-policy-viewer"
      [("project", attr project "projectId");
       ("role", attr iamPolicyViewerRole "name");
       ("member", attr terraformViewerServiceAccount "member")] ;;
  _ <- register "StorageBucketIamMember" this "terraform-viewer-tfstate"
      [("bucket", attr tfstateBucket "name");
       ("role", VStr "roles/storage.objectUser");
       ("member", attr terraformViewerServiceAccount "member")] ;;
  ret (instance this
         [("project", project);
          ("tfstateBucketName", tfstateBucketName);
          ("dnsService", dnsService);
          ("githubIdentityPool", githubIdentityPool);
          ("terraformKeyring", terraformKeyring);
          ("terraformSecretsKey", terraformSecretsKey);
          ("terraformAdminServiceAccount", terraformAdminServiceAccount);
          ("terraformViewerServiceAccount", terraformViewerServiceAccount)]).

End gcp_project.

(** Truthiness of a value: [undefined], [false], [0] and the empty string
    are falsy. *)
Definition truthy (v : value) : bool :=
  match v with
  | VUndef => false
  | VBool b => b
  | VNum n => negb (Z.eqb n 0)
  | VStr s => negb (String.eqb s "")
  | _ => true
  end.

(** ** src/github-repository/index.ts *)
Module github_repository.

Record GitHubRepositoryConfig : Type := {
  name : string;
  adminTeam : option value;
  repositoryConfig : option obj;
  mainRulesetConfig : option obj;
  releaseRulesetConfig : option obj;
  devEnvironmentConfig : option obj;
  devViewerEnvironmentConfig : option obj;
  prodEnvironmentConfig : option obj;
  prodViewerEnvironmentConfig : option obj;
}.

(** The properties written before each [...config.x] spread. *)
Definition repository_defaults (config : GitHubRepositoryConfig) : obj :=
  [("name", VStr (name config));
   ("autoInit", VBool true);
   ("vulnerabilityAlerts", VBool true);
   ("allowMergeCommit", VBool false);
   ("allowSquashMerge", VBool true);
   ("allowRebaseMerge", VBool false);
   ("squashMergeCommitTitle", VStr "PR_TITLE");
   ("squashMergeCommitMessage", VStr "BLANK")].

Definition bypass_repository_role : value :=
  VArr [VObj [("actorType", VStr "RepositoryRole");
              ("actorId", VNum 5);
              ("bypassMode", VStr "always")]].

Definition main_ruleset_defaults (repository : value) : obj :=
  [("repository", attr repository "name");
   ("name", VStr "main");
   ("enforcement", VStr "active");
   ("target", VStr "branch");
   ("conditions",
     VObj [("refName",
             VObj [("include", VArr [VStr "~DEFAULT_BRANCH"]);
                   ("exclude", VArr [])])]);
   ("bypassActors", bypass_repository_role);
   ("rules",
     VObj [("deletion", VBool true);
           ("requiredLinearHistory", VBool true);
           ("pullRequest", VObj [("requiredApprovingReviewCount", VNum 1)]);
           ("nonFastForward", VBool true)])].

Definition release_ruleset_defaults (repository : value) : obj :=
  [("repository", attr repository "name");
   ("name", VStr "release");
   ("enforcement", VStr "active");
   ("target", VStr "branch");
   ("conditions",
     VObj [("refName",
             VObj [("include", VArr [VStr "refs/heads/release/*"]);
                   ("exclude", VArr [])])]);
   ("bypassActors", bypass_repository_role);
   ("rules",
     VObj [("creation", VBool true);
           ("update", VBool true);
           ("deletion", VBool true);
           ("nonFastForward", VBool true)])].

Definition dev_viewer_environment_defaults (repository : value) : obj :=
  [("repository", attr repository "name");
   ("environment", VStr "dev-viewer")].

Definition environment_defaults (repository : value) (env : string) : obj :=
  [("repository", attr repository "name");
   ("environment", VStr env);
   ("canAdminsBypass", VBool true);
   ("deploymentBranchPolicy",
     VObj [("protectedBranches", VBool false);
           ("customBranchPolicies", VBool true)])].

Definition GitHubRepository (scope : path) (config : GitHubRepositoryConfig)
    : M value :=
  this <- construct "GitHubRepository" scope (name config) ;;
  repository <-
    register "Repository" this "this"
      (spread (repository_defaults config)
         (opt_obj (repositoryConfig config))) ;;
  (if from_option truthy false (adminTeam config)
   then
     _ <- register "TeamRepository" this "admin-team"
         [("repository", attr repository "name");
          ("teamId", default VUndef (adminTeam config));
          ("permission", VStr "admin")] ;;
     ret tt
   else ret tt) ;;;
  _ <- register "RepositoryRuleset" this "main-ruleset"
      (spread (main_ruleset_defaults repository)
         (opt_obj (mainRulesetConfig config))) ;;
  _ <- register "RepositoryRuleset" this "release-ruleset"
      (spread (release_ruleset_defaults repository)
         (opt_obj (releaseRulesetConfig config))) ;;
  _ <- register "RepositoryEnvironment" this "env-dev-viewer"
      (spread (dev_viewer_environment_defaults repository)
         (opt_obj (devViewerEnvironmentConfig config))) ;;
  devEnvironment <-
    register "RepositoryEnvironment" this "env-dev"
      (spread (environment_defaults repository "dev")
         (opt_obj (devEnvironmentConfig config))) ;;
  _ <- register "RepositoryEnvironmentDeploymentPolicy" this "env-dev-policy"
      [("repository", attr repository "name");
       ("environment", attr devEnvironment "environment");
       ("branchPattern", VStr "main")] ;;
  prodViewerEnvironment <-
    register "RepositoryEnvironment" this "env-prod-viewer"
      (spread (environment_defaults repository "prod-viewer")
         (opt_obj (prodViewerEnvironmentConfig config))) ;;
  _ <- register "RepositoryEnvironmentDeploymentPolicy" this
      "env-prod-viewer-policy"
      [("repository", attr repository "name");
       ("environment", attr prodViewerEnvironment "environment");
       ("branchPattern", VStr "release/*")] ;;
  prodEnvironment <-
    register "RepositoryEnvironment" this "env-prod"
      (spread (environment_defaults repository "prod")
         (opt_obj (prodEnvironmentConfig config))) ;;
  _ <- register "RepositoryEnvironmentDeploymentPolicy" this "env-prod-policy"
      [("repository", attr repository "name");
       ("environment", attr prodEnvironment "environment");
       ("branchPattern", VStr "release/*")] ;;
  ret (instance this [("repository", repository)]).

End github_repository.

(** ** src/bootstrap/index.ts *)
Module bootstrap.

Record BootstrapConfig : Type := {
  name : string;
  organizationId : string;
  billingAccountId : string;
  githubOrg : string;
  domain : option string;
  appRepositoryConfig : option obj;
  infraRepositoryConfig : option obj;
  disableGitHubWorkflows : option bool;
  googleBeta : value;
}.

(** [path.join(a, b, c)] on segments that need no normalisation. *)
Definition path_join (segments : list string) : string :=
  match segments with
  | [] => "."
  | s :: r => fold_left (fun acc x => acc +:+ "/" +:+ x) r s
  end.

(** The configuration handed to each of the three [GcpProject]s. *)
Definition project_config (config : BootstrapConfig) (suffix env : string)
    : gcp_project.GcpProjectConfig :=
  {| gcp_project.projectId := name config +:+ "-" +:+ suffix;
     gcp_project.displayName := None;
     gcp_project.organizationId := organizationId config;
     gcp_project.billingAccountId := billingAccountId config;
     gcp_project.githubInfraRepo :=
       githubOrg config +:+ "/" +:+ name config +:+ "-infra";
     gcp_project.githubEnvironment := env;
     gcp_project.terraformStateLocation := None;
     gcp_project.googleBeta := googleBeta config;
     gcp_project.dependsOn := None |}.

Definition repository_config (repo : string) (adminTeam : value)
    (repositoryConfig prodEnvironmentConfig : option obj)
    : github_repository.GitHubRepositoryConfig :=
  {| github_repository.name := repo;
     github_repository.adminTeam := Some adminTeam;
     github_repository.repositoryConfig := repositoryConfig;
     github_repository.mainRulesetConfig := None;
     github_repository.releaseRulesetConfig := None;
     github_repository.devEnvironmentConfig := None;
     github_repository.devViewerEnvironmentConfig := None;
     github_repository.prodEnvironmentConfig := prodEnvironmentConfig;
     github_repository.prodViewerEnvironmentConfig := None |}.

Section Bootstrap.

(** [__dirname]: the directory the module is installed in. *)
Variable dirname : string.

Definition Bootstrap (scope : path) (config : BootstrapConfig) : M value :=
  this <- construct "Bootstrap" scope (name config) ;;
  sysadminProject <-
    gcp_project.GcpProject this (project_config config "sysadmin" "prod") ;;
  devProject <-
    gcp_project.GcpProject this (project_config config "dev" "dev") ;;
  prodProject <-
    gcp_project.GcpProject this (project_config config "prod" "prod") ;;
  githubAdmins <-
    register "Team" this "github-admins"
      [("name", VStr (name config +:+ "-admins"));
       ("description",
         VStr ("Administrators for the " +:+ name config +:+ " project"));
       ("privacy", VStr "closed")] ;;
  apprepo <-
    github_repository.GitHubRepository this
      (repository_config (name config) (attr githubAdmins "id")
         (appRepositoryConfig config) None) ;;
  infraRepo <-
    github_repository.GitHubRepository this
      (repository_config (name config +:+ "-infra") (attr githubAdmins "id")
         (infraRepositoryConfig config)
         (Some [("reviewers",
                  VArr [VObj [("teams",
                                VArr [VCall "Fn.tonumber"
                                        [attr githubAdmins "id"]])]])])) ;;
  (if negb (default false (disableGitHubWorkflows config))
   then
     gcp_project_id_dev <- get_path devProject ["project"; "projectId"] ;;
     gcp_project_number_dev <- get_path devProject ["project"; "number"] ;;
     gcp_project_id_prod <- get_path prodProject ["project"; "projectId"] ;;
     gcp_project_number_prod <- get_path prodProject ["project"; "number"] ;;
     let templateVars :=
       VObj [("gcp_project_id_dev", gcp_project_id_dev);
             ("gcp_project_number_dev", gcp_project_number_dev);
             ("gcp_project_id_prod", gcp_project_id_prod);
             ("gcp_project_number_prod", gcp_project_number_prod)] in
     infraRepositoryName <- get_path infraRepo ["repository"; "name"] ;;
     _ <- register "RepositoryFile" this "infra-ci-pr"
         [("repository", infraRepositoryName);
          ("file", VStr ".github/workflows/pr.yaml");
          ("content",
            VCall "Fn.templatefile"
              [VStr (path_join [dirname; "templates";
                                "infraWorkflowPr.yaml.tftpl"]);
               templateVars])] ;;
     infraRepositoryName' <- get_path infraRepo ["repository"; "name"] ;;
     _ <- register "RepositoryFile" this "infra-ci-main"
         [("repository", infraRepositoryName');
          ("file", VStr ".github/workflows/main.yaml");
          ("content",
            VCall "Fn.templatefile"
              [VStr (path_join [dirname; "templates";
                                "infraWorkflowMain.yaml.tftpl"]);
               templateVars])] ;;
     ret tt
   else ret tt) ;;;
  (if truthy_str (domain config)
   then
     let domain := default "" (domain config) in
     devProjectId <- get_path devProject ["project"; "projectId"] ;;
     devDnsService <- get_prop devProject "dnsService" ;;
     alphaDnsZone <-
       register "DnsManagedZone" this "alpha-dns-zone"
         [("project", devProjectId);
          ("name", VStr ("alpha-" +:+ replaceAll "." "-" domain));
          ("dnsName", VStr ("alpha." +:+ domain +:+ "."));
          ("dependsOn", VArr [devDnsService])] ;;
     prodProjectId <- get_path prodProject ["project"; "projectId"] ;;
     prodDnsService <- get_prop prodProject "dnsService" ;;
     prodDnsZone <-
       register "DnsManagedZone" this "prod-dns-zone"
         [("project", prodProjectId);
          ("name", VStr (replaceAll "." "-" domain));
          ("dnsName", VStr (domain +:+ "."));
          ("dependsOn", VArr [prodDnsService])] ;;
     prodProjectId' <- get_path prodProject ["project"; "projectId"] ;;
     _ <- register "DnsRecordSet" this "prod-alpha-ns-delegate"
         [("project", prodProjectId');
          ("managedZone", attr prodDnsZone "name");
          ("name", VStr ("alpha." +:+ domain +:+ "."));
          ("type", VStr "NS");
          ("rrdatas", attr alphaDnsZone "nameServers");
          ("ttl", VNum 21600)] ;;
     ret tt
   else ret tt) ;;;
  ret (instance this
         [("sysadminProject", sysadminProject);
          ("devProject", devProject);
          ("prodProject", prodProject);
          ("githubAdmins", githubAdmins);
          ("apprepo", apprepo);
          ("infraRepo", infraRepo)]).

End Bootstrap.

End bootstrap.

(** ** src/github-repository/index.ts, second part: the revision of
    [Bootstrap] that provisions the workflows through a CI branch *)
Module bootstrap_ci.

Import bootstrap.

Section Bootstrap.

(** [__dirname]: the directory the module is installed in. *)
Variable dirname : string.

Definition Bootstrap (scope : path) (config : BootstrapConfig) : M value :=
  this <- construct "Bootstrap" scope (name config) ;;
  sysadminProject <-
    gcp_project.GcpProject this (project_config config "sysadmin" "prod") ;;
  devProject <-
    gcp_project.GcpProject this (project_config config "dev" "dev") ;;
  prodProject <-
    gcp_project.GcpProject this (project_config config "prod" "prod") ;;
  githubAdmins <-
    register "Team" this "github-admins"
      [("name", VStr (name config +:+ "-admins"));
       ("description",
         VStr ("Administrators for the " +:+ name config +:+ " project"));
       ("privacy", VStr "closed")] ;;
  apprepo <-
    github_repository.GitHubRepository this
      (repository_config (name config) (attr githubAdmins "id")
         (appRepositoryConfig config) None) ;;
  infraRepo <-
    github_repository.GitHubRepository this
      (repository_config (name config +:+ "-infra") (attr githubAdmins "id")
         (infraRepositoryConfig config)
         (Some [("reviewers",
                  VArr [VObj [("teams",
                                VArr [VCall "Fn.tonumber"
                                        [attr githubAdmins "id"]])]]);
                ("dependsOn", VArr [githubAdmins])])) ;;
  (if negb (default false (disableGitHubWorkflows config))
   then
     for_each [("infra", infraRepo); ("app", apprepo)]
       (fun repo =>
          repositoryName <- get_path repo.2 ["repository"; "name"] ;;
          devProjectId <- get_path devProject ["project"; "projectId"] ;;
          _ <- register "ActionsVariable" this
              ("gh-var-" +:+ repo.1 +:+ "-gcp-project-id-dev")
              [("repository", repositoryName);
               ("variableName", VStr "GCP_PROJECT_ID_DEV");
               ("value", devProjectId)] ;;
          repositoryName <- get_path repo.2 ["repository"; "name"] ;;
          prodProjectId <- get_path prodProject ["project"; "projectId"] ;;
          _ <- register "ActionsVariable" this
              ("gh-var-" +:+ repo.1 +:+ "-gcp-project-id-prod")
              [("repository", repositoryName);
               ("variableName", VStr "GCP_PROJECT_ID_PROD");
               ("value", prodProjectId)] ;;
          repositoryName <- get_path repo.2 ["repository"; "name"] ;;
          devProjectNumber <- get_path devProject ["project"; "number"] ;;
          _ <- register "ActionsVariable" this
              ("gh-var-" +:+ repo.1 +:+ "-gcp-project-number-dev")
              [("repository", repositoryName);
               ("variableName", VStr "GCP_PROJECT_NUMBER_DEV");
               ("value", devProjectNumber)] ;;
          repositoryName <- get_path repo.2 ["repository"; "name"] ;;
          prodProjectNumber <- get_path prodProject ["project"; "number"] ;;
          _ <- register "ActionsVariable" this
              ("gh-var-" +:+ repo.1 +:+ "-gcp-project-number-prod")
              [("repository", repositoryName);
               ("variableName", VStr "GCP_PROJECT_NUMBER_PROD");
               ("value", prodProjectNumber)] ;;
          ret tt) ;;;
     branchSuffix <-
       register "StringResource" this "ci-branch-suffix"
         [("length", VNum 16);
          ("special", VBool false);
          ("keepers",
            VObj [("prWorkflow",
                    VCall "Fn.filebase64"
                      [VStr (path_join [dirname; "templates";
                                        "infraWorkflowPr.yaml"])]);
                  ("mainWorkflow",
                    VCall "Fn.filebase64"
                      [VStr (path_join [dirname; "templates";
                                        "infraWorkflowMain.yaml"])])])] ;;
     infraRepositoryName <- get_path infraRepo ["repository"; "name"] ;;
     ciBranch <-
       register "Branch" this "ci-branch"
         [("repository", infraRepositoryName);
          ("branch", VTemplate [VStr "tf-"; attr branchSuffix "result"])] ;;
     infraRepositoryName <- get_path infraRepo ["repository"; "name"] ;;
     ciPRWorkflow <-
       register "RepositoryFile" this "infra-ci-pr"
         [("repository", infraRepositoryName);
          ("branch", attr ciBranch "branch");
          ("file", VStr ".github/workflows/pr.yaml");
          ("content",
            VCall "Fn.file"
              [VStr (path_join [dirname; "templates";
                                "infraWorkflowPr.yaml"])])] ;;
     infraRepositoryName <- get_path infraRepo ["repository"; "name"] ;;
     ciMainWorkflow <-
       register "RepositoryFile" this "infra-ci-main"
         [("repository", infraRepositoryName);
          ("branch", attr ciBranch "branch");
          ("file", VStr ".github/workflows/main.yaml");
          ("content",
            VCall "Fn.file"
              [VStr (path_join [dirname; "templates";
                                "infraWorkflowMain.yaml"])])] ;;
     infraRepositoryName <- get_path infraRepo ["repository"; "name"] ;;
     _ <- register "RepositoryPullRequest" this "infra-ci-pr-apply"
         [("baseRepository", infraRepositoryName);
          ("baseRef", attr ciBranch "sourceBranch");
          ("headRef", attr ciBranch "branch");
          ("title", VStr "Update CI workflows");
          ("body",
            VStr "This is an automated change to update CI workflows to the latest.");
          ("dependsOn", VArr [ciPRWorkflow; ciMainWorkflow])] ;;
     ret tt
   else ret tt) ;;;
  (if truthy_str (domain config)
   then
     let domain := default "" (domain config) in
     devProjectId <- get_path devProject ["project"; "projectId"] ;;
     devDnsService <- get_prop devProject "dnsService" ;;
     alphaDnsZone <-
       register "DnsManagedZone" this "alpha-dns-zone"
         [("project", devProjectId);
          ("name", VStr ("alpha-" +:+ replaceAll "." "-" domain));
          ("dnsName", VStr ("alpha." +:+ domain +:+ "."));
          ("dependsOn", VArr [devDnsService])] ;;
     prodProjectId <- get_path prodProject ["project"; "projectId"] ;;
     prodDnsService <- get_prop prodProject "dnsService" ;;
     prodDnsZone <-
       register "DnsManagedZone" this "prod-dns-zone"
         [("project", prodProjectId);
          ("name", VStr (replaceAll "." "-" domain));
          ("dnsName", VStr (domain +:+ "."));
          ("dependsOn", VArr [prodDnsService])] ;;
     prodProjectId' <- get_path prodProject ["project"; "projectId"] ;;
     _ <- register "DnsRecordSet" this "prod-alpha-ns-delegate"
         [("project", prodProjectId');
          ("managedZone", attr prodDnsZone "name");
          ("name", VStr ("alpha." +:+ domain +:+ "."));
          ("type", VStr "NS");
          ("rrdatas", attr alphaDnsZone "nameServers");
          ("ttl", VNum 21600)] ;;
     ret tt
   else ret tt) ;;;
  ret (instance this
         [("sysadminProject", sysadminProject);
          ("devProject", devProject);
          ("prodProject", prodProject);
          ("githubAdmins", githubAdmins);
          ("apprepo", apprepo);
          ("infraRepo", infraRepo)]).

End Bootstrap.

End bootstrap_ci.

(** [for (const x of xs) acc = body(acc, x)], for a loop that grows a
    local array while it declares resources. *)
Fixpoint foldM {A B} (body : B -> A -> M B) (xs : list A) (acc : B) : M B :=
  match xs with
  | [] => ret acc
  | x :: r => acc' <- body acc x ;; foldM body r acc'
  end.

(** [s.split("-")[i]] on a value read from an object: the receiver has to
    be a string (reading from [undefined] throws, and so does calling a
    method that a non-string does not have). *)
Definition split_index (v : value) (c : ascii) (i : nat) : M (option string) :=
  match v with
  | VStr s => ret (split c s !! i)
  | VUndef =>
      throw (TypeError "Cannot read properties of undefined (reading 'split')")
  | _ => throw (TypeError "split is not a function")
  end.

Definition opt_str (o : option string) : value := from_option VStr VUndef o.

(** ** src/curiostack/service.ts *)
Module curiostack_service.

Record SecretVersion : Type := {
  secret : value;
  version : value;
}.

Record CurioStackServiceConfig : Type := {
  name : string;
  imageTag : option string;
  environment : option string;
  public : option bool;
  env : option (list (string * string));
  websockets : option bool;
  envSecrets : option (list (string * SecretVersion));
  otelCollectorImage : option string;
  scaling : option value;
  curiostack : value;
  dependsOn : option nat;
}.

Definition env_var (name : string) (v : value) : value :=
  VObj [("name", VStr name); ("value", v)].

Definition env_secret (name : string) (s : SecretVersion) : value :=
  VObj [("name", VStr name);
        ("valueSource",
          VObj [("secretKeyRef",
                  VObj [("secret", secret s); ("version", version s)])])].

Definition health_probe : value :=
  VObj [("path", VStr "/internal/health"); ("port", VNum 8080)].

Definition CurioStackService (scope : path) (config : CurioStackServiceConfig)
    : M value :=
  this <- construct "CurioStackService" scope (name config) ;;
  repository <- get_prop (curiostack config) "dockerRepository" ;;
  repositoryLocation <- get_prop repository "location" ;;
  repositoryProject <- get_prop repository "project" ;;
  repositoryName <- get_prop repository "name" ;;
  let imageName :=
    VTemplate [repositoryLocation; VStr "-docker.pkg.dev/";
               repositoryProject; VStr "/"; repositoryName; VStr "/";
               VStr (name config); VStr ":";
               VStr (default "main" (imageTag config))] in
  let ingress := VStr "INGRESS_TRAFFIC_ALL" in
  serviceAccount <-
    register "ServiceAccount" this "service-account"
      [("accountId", VStr ("service-" +:+ name config))] ;;
  project <- get_prop (curiostack config) "project" ;;
  _ <- register "ProjectIamMember" this "service-account-metrics"
      [("project", project);
       ("role", VStr "roles/monitoring.metricWriter");
       ("member", attr serviceAccount "member")] ;;
  _ <- register "ProjectIamMember" this "service-account-traces"
      [("project", project);
       ("role", VStr "roles/cloudtrace.agent");
       ("member", attr serviceAccount "member")] ;;
  _ <- register "ProjectIamMember" this "service-account-profiles"
      [("project", project);
       ("role", VStr "roles/cloudprofiler.agent");
       ("member", attr serviceAccount "member")] ;;
  githubEnvironmentIamMember <-
    get_prop (curiostack config) "githubEnvironmentIamMember" ;;
  _ <- register "ServiceAccountIamMember" this "cloudrun-github"
      [("serviceAccountId", attr serviceAccount "name");
       ("role", VStr "roles/iam.serviceAccountUser");
       ("member", githubEnvironmentIamMember)] ;;
  dependsOn <-
    match dependsOn config with
    | Some l => ret l
    | None => new_array []
    end ;;
  runService <- get_prop (curiostack config) "runService" ;;
  push dependsOn runService ;;;
  configEnv <-
    match environment config with
    | Some e => ret (Some e)
    | None => split_index project "-" 1
    end ;;
  let vars :=
    [env_var "CONFIG_ENV" (opt_str configEnv);
     env_var "GOOGLE_PROJECT" project;
     env_var "OTEL_METRICS_EXPORTER" (VStr "otlp");
     env_var "OTEL_TRACES_EXPORTER" (VStr "otlp");
     env_var "OTEL_SERVICE_NAME" (VStr (name config))] in
  let vars :=
    if default false (public config)
    then vars ++ [env_var "OTEL_TRACES_SAMPLER" (VStr "always_on")]
    else vars in
  let vars := vars ++ [env_var "LOGGING_JSON" (VStr "true")] in
  let vars :=
    fold_left (fun vars nv => vars ++ [env_var nv.1 (VStr nv.2)])
      (default [] (env config)) vars in
  vars <-
    foldM (fun vars ns =>
             let vars := vars ++ [env_secret ns.1 ns.2] in
             secretIam <-
               register "SecretManagerSecretIamMember" this
                 ("secret-accessor-" +:+ ns.1)
                 [("secretId", secret ns.2);
                  ("role", VStr "roles/secretmanager.secretAccessor");
                  ("member", attr serviceAccount "member")] ;;
             push dependsOn secretIam ;;;
             ret vars)
      (default [] (envSecrets config)) vars ;;
  otelBucketName <- get_path (curiostack config) ["otelBucket"; "name"] ;;
  otelIam <-
    register "StorageBucketIamMember" this "otel-bucket-reader"
      [("bucket", otelBucketName);
       ("role", VStr "roles/storage.objectViewer");
       ("member", attr serviceAccount "member")] ;;
  push dependsOn otelIam ;;;
  let otelCollectorImage :=
    default "otel/opentelemetry-collector-contrib:0.119.0"
      (otelCollectorImage config) in
  location <- get_prop (curiostack config) "location" ;;
  otelBucketName' <- get_path (curiostack config) ["otelBucket"; "name"] ;;
  dependencies <- read_array dependsOn ;;
  run <-
    register "GoogleCloudRunV2Service" this "service"
      [("name", VStr (name config));
       ("location", location);
       ("customAudiences", VArr [VStr (name config)]);
       ("ingress", ingress);
       ("template",
         VObj
           [("executionEnvironment", VStr "EXECUTION_ENVIRONMENT_GEN2");
            ("serviceAccount", attr serviceAccount "email");
            ("timeout",
              if default false (websockets config)
              then VStr "3600s" else VUndef);
            ("scaling",
              default (VObj [("minInstanceCount", VNum 0);
                             ("maxInstanceCount", VNum 1)])
                (scaling config));
            ("containers",
              VArr
                [VObj
                   [("image", imageName);
                    ("name", VStr "app");
                    ("resources",
                      VObj [("cpuIdle", VBool true);
                            ("startupCpuBoost", VBool true)]);
                    ("startupProbe",
                      VObj [("periodSeconds", VNum 1);
                            ("failureThreshold", VNum 10);
                            ("initialDelaySeconds", VNum 1);
                            ("httpGet", health_probe)]);
                    ("livenessProbe",
                      VObj [("periodSeconds", VNum 5);
                            ("failureThreshold", VNum 3);
                            ("httpGet", health_probe)]);
                    ("env", VArr vars);
                    ("ports",
                      VObj [("name",
                              VStr (if negb (default false (websockets config))
                                    then "h2c" else "http1"));
                            ("containerPort", VNum 8080)])];
                 VObj
                   [("image", VStr otelCollectorImage);
                    ("name", VStr "otel");
                    ("args",
                      VArr [VStr "--config";
                            VStr "/otel/otel-config-default.yaml"]);
                    ("resources",
                      VObj [("cpuIdle", VBool true);
                            ("startupCpuBoost", VBool true);
                            ("limits",
                              VObj [("cpu", VStr "1000m");
                                    ("memory", VStr "256Mi")])]);
                    ("volumeMounts",
                      VArr [VObj [("name", VStr "otel");
                                  ("mountPath", VStr "/otel")]])]]);
            ("volumes",
              VArr [VObj [("name", VStr "otel");
                          ("gcs",
                            VObj [("bucket", otelBucketName');
                                  ("readOnly", VBool true)])]])]);
       ("dependsOn", VArr dependencies);
       ("lifecycle",
         VObj [("ignoreChanges",
                 if truthy_str (imageTag config) then VUndef
                 else VArr [VStr "client"; VStr "client_version";
                            VStr "template[0].revision";
                            VStr "template[0].containers[0].image"])])] ;;
  (if default false (public config)
   then
     _ <- register "CloudRunServiceIamMember" this "publicaccess"
         [("location", attr run "location");
          ("service", attr run "name");
          ("role", VStr "roles/run.invoker");
          ("member", VStr "allUsers")] ;;
     ret tt
   else ret tt) ;;;
  ret (instance this [("serviceAccount", serviceAccount); ("run", run)]).

End curiostack_service.

(** ** src/curiostack/hosting.ts *)
Module curiostack_hosting.

Record CurioStackHostingConfig : Type := {
  displayName : string;
  curiostack : value;
  dependsOn : option nat;
}.

Definition CurioStackHosting (scope : path) (config : CurioStackHostingConfig)
    : M value :=
  this <-
    construct "CurioStackHosting" scope
      (toLowerCase (replace_first " " "-" (displayName config))) ;;
  curiostackConfig <- get_prop (curiostack config) "config" ;;
  googleBeta <- destructure curiostackConfig "googleBeta" ;;
  project <- destructure curiostackConfig "project" ;;
  webApp <-
    register "GoogleFirebaseWebApp" this "web-app"
      [("displayName", VStr (displayName config));
       ("provider", googleBeta)] ;;
  site <-
    register "GoogleFirebaseHostingSite" this "hosting-site"
      [("appId", attr webApp "appId");
       ("siteId", project);
       ("provider", googleBeta)] ;;
  customDomainName <- get_path (curiostack config) ["config"; "domain"] ;;
  customDomain <-
    register "GoogleFirebaseHostingCustomDomain" this "custom-domain"
      [("siteId", attr site "siteId");
       ("customDomain", customDomainName);
       ("provider", googleBeta)] ;;
  _ <- register "TerraformOutput" this "custom-domain-dns-updates"
      [("value", attr customDomain "requiredDnsUpdates")] ;;
  runViewerRole <-
    register "ProjectIamCustomRole" this "cloudrun-deployer"
      [("roleId", VStr "cloudRunServiceViewer");
       ("title", VStr "Cloud Run Service Viewer");
       ("permissions", VArr [VStr "run.services.get"])] ;;
  firebaseDeployer <-
    register "ServiceAccount" this "firebase-deployer"
      [("accountId", VStr "firebase-deployer")] ;;
  _ <- register "ProjectIamMember" this "firebase-deployer-hosting-admin"
      [("project", project);
       ("role", VStr "roles/firebasehosting.admin");
       ("member", attr firebaseDeployer "member")] ;;
  _ <- register "ProjectIamMember" this "firebase-deployer-cloudrun-viewer"
      [("project", project);
       ("role", attr runViewerRole "name");
       ("member", attr firebaseDeployer "member")] ;;
  githubEnvironmentIamMember <-
    get_prop (curiostack config) "githubEnvironmentIamMember" ;;
  _ <- register "ServiceAccountIamMember" this "github-firebase-deployer"
      [("serviceAccountId", attr firebaseDeployer "name");
       ("role", VStr "roles/iam.serviceAccountTokenCreator");
       ("member", githubEnvironmentIamMember)] ;;
  ret (instance this []).

End curiostack_hosting.

(** ** src/unnamed/part_001: the first revision of [GcpProject] *)
Module gcp_project_r1.

Record GcpProjectConfig : Type := {
  projectId : string;
  displayName : option string;
  organizationId : string;
  billingAccountId : string;
  githubInfraRepo : string;
  githubEnvironment : string;
  googleBeta : value;
  dependsOn : option (list value);
}.

Definition GcpProject (scope : path) (config : GcpProjectConfig) : M value :=
  this <- construct "GcpProject" scope (projectId config) ;;
  project <-
    register "Project" this "this"
      [("projectId", VStr (projectId config));
       ("name", VStr (default (projectId config) (displayName config)));
       ("orgId", VStr (organizationId config));
       ("billingAccount", VStr (billingAccountId config));
       ("labels", VObj [("firebase", VStr "enabled")]);
       ("dependsOn", from_option VArr VUndef (dependsOn config))] ;;
  _ <- register "GoogleFirebaseProject" this "firebase"
      [("project", attr project "projectId");
       ("provider", googleBeta config)] ;;
  tfState <-
    register "StorageBucket" this "tfstate"
      [("project", attr project "projectId");
       ("name", VTemplate [attr project "projectId"; VStr "-tfstate"]);
       ("location", VStr "US");
       ("storageClass", VStr "STANDARD");
       ("versioning", VObj [("enabled", VBool true)])] ;;
  _ <- register "ProjectService" this "resourcemanager"
      [("project", attr project "projectId");
       ("service", VStr "cloudresourcemanager.googleapis.com")] ;;
  iam <-
    register "ProjectService" this "iam"
      [("project", attr project "projectId");
       ("service", VStr "iam.googleapis.com")] ;;
  githubIdentityPool <-
    register "IamWorkloadIdentityPool" this "github-id-pool"
      [("project", attr project "projectId");
       ("workloadIdentityPoolId", VStr "github");
       ("dependsOn", VArr [iam])] ;;
  let orgName := interpolate (split "/" (githubInfraRepo config) !! 0%nat) in
  idProvider <-
    register "IamWorkloadIdentityPoolProvider" this "github-id-provider"
      [("project", attr project "projectId");
       ("workloadIdentityPoolProviderId", VStr "github");
       ("workloadIdentityPoolId",
         attr githubIdentityPool "workloadIdentityPoolId");
       ("attributeMapping",
         VObj [("google.subject", VStr "assertion.sub");
               ("attribute.actor", VStr "assertion.actor");
               ("attribute.repository", VStr "assertion.repository");
               ("attribute.repository_owner",
                 VStr "assertion.repository_owner")]);
       ("attributeCondition",
         VStr ("assertion.repository_owner == '" +:+ orgName +:+ "'"));
       ("oidc",
         VObj [("issuerUri",
                 VStr "https://token.actions.githubusercontent.com")])] ;;
  _ <- register "TerraformOutput" this "github-identity-provider"
      [("staticId", VBool true); ("value", attr idProvider "name")] ;;
  kmsService <-
    register "ProjectService" this "kms-service"
      [("project", attr project "projectId");
       ("service", VStr "cloudkms.googleapis.com")] ;;
  keyring <-
    register "KmsKeyRing" this "terraform-keyring"
      [("project", attr project "projectId");
       ("name", VStr "terraform");
       ("location", VStr "global");
       ("dependsOn", VArr [kmsService])] ;;
  terraformKey <-
    register "KmsCryptoKey" this "terraform-key"
      [("keyRing", attr keyring "id"); ("name", VStr "secrets")] ;;
  terraformAdminServiceAccount <-
    register "ServiceAccount" this "terraform-admin"
      [("project", attr project "projectId");
       ("accountId", VStr "terraform-admin")] ;;
  _ <- register "ProjectIamMember" this "terraform-admin-owner"
      [("project", attr project "projectId");
       ("role", VStr "roles/owner");
       ("member", attr terraformAdminServiceAccount "member")] ;;
  _ <- register "ServiceAccountIamMember" this "terraform-admin-github-actions"
      [("serviceAccountId", attr terraformAdminServiceAccount "name");
       ("role", VStr "roles/iam.serviceAccountTokenCreator");
       ("member",
         VTemplate [VStr "principal://iam.googleapis.com/";
                    attr githubIdentityPool "name";
                    VStr "/subject/repo:"; VStr (githubInfraRepo config);
                    VStr ":environment:"; VStr (githubEnvironment config)])] ;;
  terraformViewerServiceAccount <-
    register "ServiceAccount" this "terraform-viewer"
      [("project", attr project "projectId");
       ("accountId", VStr "terraform-viewer")] ;;
  _ <- register "ProjectIamMember" this "terraform-viewer-viewer"
      [("project", attr project "projectId");
       ("role", VStr "roles/viewer");
       ("member", attr terraformViewerServiceAccount "member")] ;;
  _ <- register "ProjectIamMember" this "terraform-viewer-serviceUser"
      [("project", attr project "projectId");
       ("role", VStr "roles/serviceusage.serviceUsageConsumer");
       ("member", attr terraformViewerServiceAccount "member")] ;;
  _ <- register "KmsCryptoKeyIamMember" this "terraform-viewer-key-decrypter"
      [("cryptoKeyId", attr terraformKey "id");
       ("role", VStr "roles/cloudkms.cryptoOperator");
       ("member", attr terraformViewerServiceAccount "member")] ;;
  _ <- register "ProjectIamMember" this "terraform-viewer-key-secretaccess"
      [("project", attr project "projectId");
       ("role", VStr "roles/secretmanager.secretAccessor");
       ("member", attr terraformViewerServiceAccount "member")] ;;
  _ <- register "ServiceAccountIamMember" this
      "terraform-viewer-github-actions"
      [("serviceAccountId", attr terraformViewerServiceAccount "name");
       ("role", VStr "roles/iam.serviceAccountTokenCreator");
       ("member",
         VTemplate [VStr "principal://iam.googleapis.com/";
                    attr githubIdentityPool "name";
                    VStr "/subject/repo:"; VStr (githubInfraRepo config);
                    VStr ":environment:"; VStr (githubEnvironment config);
                    VStr "-viewer"])] ;;
  _ <- register "StorageBucketIamMember" this "terraform-viewer-tfstate"
      [("bucket", attr tfState "name");
       ("role", VStr "roles/storage.objectUser");
       ("member", attr terraformViewerServiceAccount "member")] ;;
  ret (instance this
         [("project", project);
          ("githubIdentityPool", githubIdentityPool);
          ("terraformAdminServiceAccount", terraformAdminServiceAccount);
          ("terraformViewerServiceAccount", terraformViewerServiceAccount)]).

End gcp_project_r1.

(** ** src/unnamed/part_002: the second revision of [GcpProject], with
    the configuration of the current one *)
Module gcp_project_r2.

Import gcp_project.

Definition GcpProject (scope : path) (config : GcpProjectConfig) : M value :=
  this <- construct "GcpProject" scope (projectId config) ;;
  project <-
    register "Project" this "this"
      [("projectId", VStr (projectId config));
       ("name", VStr (default (projectId config) (displayName config)));
       ("orgId", VStr (organizationId config));
       ("billingAccount", VStr (billingAccountId config));
       ("labels", VObj [("firebase", VStr "enabled")]);
       ("dependsOn", from_option VArr VUndef (dependsOn config))] ;;
  _ <- register "GoogleFirebaseProject" this "firebase"
      [("project", attr project "projectId");
       ("provider", googleBeta config)] ;;
  tfstateBucket <-
    register "StorageBucket" this "tfstate"
      [("project", attr project "projectId");
       ("name", VTemplate [attr project "projectId"; VStr "-tfstate"]);
       ("location", VStr (default "US" (terraformStateLocation config)));
       ("storageClass", VStr "STANDARD");
       ("versioning", VObj [("enabled", VBool true)])] ;;
  let tfstateBucketName := VStr (projectId config +:+ "-tfstate") in
  _ <- register "ProjectService" this "resourcemanager"
      [("project", attr project "projectId");
       ("service", VStr "cloudresourcemanager.googleapis.com")] ;;
  iam <-
    register "ProjectService" this "iam"
      [("project", attr project "projectId");
       ("service", VStr "iam.googleapis.com")] ;;
  githubIdentityPool <-
    register "IamWorkloadIdentityPool" this "github-id-pool"
      [("project", attr project "projectId");
       ("workloadIdentityPoolId", VStr "github");
       ("dependsOn", VArr [iam])] ;;
  let orgName := interpolate (split "/" (githubInfraRepo config) !! 0%nat) in
  idProvider <-
    register "IamWorkloadIdentityPoolProvider" this "github-id-provider"
      [("project", attr project "projectId");
       ("workloadIdentityPoolProviderId", VStr "github");
       ("workloadIdentityPoolId",
         attr githubIdentityPool "workloadIdentityPoolId");
       ("attributeMapping",
         VObj [("google.subject", VStr "assertion.sub");
               ("attribute.actor", VStr "assertion.actor");
               ("attribute.repository", VStr "assertion.repository");
               ("attribute.repository_owner",
                 VStr "assertion.repository_owner")]);
       ("attributeCondition",
         VStr ("assertion.repository_owner == '" +:+ orgName +:+ "'"));
       ("oidc",
         VObj [("issuerUri",
                 VStr "https://token.actions.githubusercontent.com")])] ;;
  _ <- register "TerraformOutput" this
      ("github-identity-provider-" +:+ projectId config)
      [("staticId", VBool true); ("value", attr idProvider "name")] ;;
  kmsService <-
    register "ProjectService" this "kms-service"
      [("project", attr project "projectId");
       ("service", VStr "cloudkms.googleapis.com")] ;;
  terraformKeyring <-
    register "KmsKeyRing" this "terraform-keyring"
      [("project", attr project "projectId");
       ("name", VStr "terraform");
       ("location", VStr "global");
       ("dependsOn", VArr [kmsService])] ;;
  terraformSecretsKey <-
    register "KmsCryptoKey" this "terraform-key"
      [("keyRing", attr terraformKeyring "id"); ("name", VStr "secrets")] ;;
  terraformAdminServiceAccount <-
    register "ServiceAccount" this "terraform-admin"
      [("project", attr project "projectId");
       ("accountId", VStr "terraform-admin")] ;;
  _ <- register "ProjectIamMember" this "terraform-admin-owner"
      [("project", attr project "projectId");
       ("role", VStr "roles/owner");
       ("member", attr terraformAdminServiceAccount "member")] ;;
  _ <- register "ServiceAccountIamMember" this "terraform-admin-github-actions"
      [("serviceAccountId", attr terraformAdminServiceAccount "name");
       ("role", VStr "roles/iam.serviceAccountTokenCreator");
       ("member",
         VTemplate [VStr "principal://iam.googleapis.com/";
                    attr githubIdentityPool "name";
                    VStr "/subject/repo:"; VStr (githubInfraRepo config);
                    VStr ":environment:"; VStr (githubEnvironment config)])] ;;
  terraformViewerServiceAccount <-
    register "ServiceAccount" this "terraform-viewer"
      [("project", attr project "projectId");
       ("accountId", VStr "terraform-viewer")] ;;
  _ <- register "ProjectIamMember" this "terraform-viewer-viewer"
      [("project", attr project "projectId");
       ("role", VStr "roles/viewer");
       ("member", attr terraformViewerServiceAccount "member")] ;;
  _ <- register "ProjectIamMember" this "terraform-viewer-serviceUser"
      [("project", attr project "projectId");
       ("role", VStr "roles/serviceusage.serviceUsageConsumer");
       ("member", attr terraformViewerServiceAccount "member")] ;;
  _ <- register "KmsCryptoKeyIamMember" this "terraform-viewer-key-decrypter"
      [("cryptoKeyId", attr terraformSecretsKey "id");
       ("role", VStr "roles/cloudkms.cryptoOperator");
       ("member", attr terraformViewerServiceAccount "member")] ;;
  _ <- register "ProjectIamMember" this "terraform-viewer-key-secretaccess"
      [("project", attr project "projectId");
       ("role", VStr "roles/secretmanager.secretAccessor");
       ("member", attr terraformViewerServiceAccount "member")] ;;
  _ <- register "ServiceAccountIamMember" this
      "terraform-viewer-github-actions"
      [("serviceAccountId", attr terraformViewerServiceAccount "name");
       ("role", VStr "roles/iam.serviceAccountTokenCreator");
       ("member",
         VTemplate [VStr "principal://iam.googleapis.com/";
                    attr githubIdentityPool "name";
                    VStr "/subject/repo:"; VStr (githubInfraRepo config);
                    VStr ":environment:"; VStr (githubEnvironment config);
                    VStr "-viewer"])] ;;
  _ <- register "StorageBucketIamMember" this "terraform-viewer-tfstate"
      [("bucket", attr tfstateBucket "name");
       ("role", VStr "roles/storage.objectUser");
       ("member", attr terraformViewerServiceAccount "member")] ;;
  ret (instance this
         [("project", project);
          ("tfstateBucketName", tfstateBucketName);
          ("githubIdentityPool", githubIdentityPool);
          ("terraformKeyring", terraformKeyring);
          ("terraformSecretsKey", terraformSecretsKey);
          ("terraformAdminServiceAccount", terraformAdminServiceAccount);
          ("terraformViewerServiceAccount", terraformViewerServiceAccount)]).

End gcp_project_r2.

(** ** src/bootstrap/index.ts, third part: the revision of
    [CurioStackService] that runs the collector image of the stack's ghcr
    repository *)
Module curiostack_service_ghcr.

Import curiostack_service.

Record CurioStackServiceConfig : Type := {
  name : string;
  imageTag : option string;
  environment : option string;
  public : option bool;
  env : option (list (string * string));
  envSecrets : option (list (string * SecretVersion));
  curiostack : value;
  dependsOn : option nat;
}.

Definition CurioStackService (scope : path) (config : CurioStackServiceConfig)
    : M value :=
  this <- construct "CurioStackService" scope (name config) ;;
  repository <- get_prop (curiostack config) "dockerRepository" ;;
  repositoryLocation <- get_prop repository "location" ;;
  repositoryProject <- get_prop repository "project" ;;
  repositoryName <- get_prop repository "name" ;;
  let imageName :=
    VTemplate [repositoryLocation; VStr "-docker.pkg.dev/";
               repositoryProject; VStr "/"; repositoryName; VStr "/";
               VStr (name config); VStr ":";
               VStr (default "main" (imageTag config))] in
  let ingress := VStr "INGRESS_TRAFFIC_ALL" in
  serviceAccount <-
    register "ServiceAccount" this "service-account"
      [("accountId", VStr ("service-" +:+ name config))] ;;
  project <- get_prop (curiostack config) "project" ;;
  _ <- register "ProjectIamMember" this "service-account-metrics"
      [("project", project);
       ("role", VStr "roles/monitoring.metricWriter");
       ("member", attr serviceAccount "member")] ;;
  _ <- register "ProjectIamMember" this "service-account-traces"
      [("project", project);
       ("role", VStr "roles/cloudtrace.agent");
       ("member", attr serviceAccount "member")] ;;
  _ <- register "ProjectIamMember" this "service-account-profiles"
      [("project", project);
       ("role", VStr "roles/cloudprofiler.agent");
       ("member", attr serviceAccount "member")] ;;
  githubEnvironmentIamMember <-
    get_prop (curiostack config) "githubEnvironmentIamMember" ;;
  _ <- register "ServiceAccountIamMember" this "cloudrun-github"
      [("serviceAccountId", attr serviceAccount "name");
       ("role", VStr "roles/iam.serviceAccountUser");
       ("member", githubEnvironmentIamMember)] ;;
  dependsOn <-
    match dependsOn config with
    | Some l => ret l
    | None => new_array []
    end ;;
  runService <- get_prop (curiostack config) "runService" ;;
  push dependsOn runService ;;;
  configEnv <-
    match environment config with
    | Some e => ret (Some e)
    | None => split_index project "-" 1
    end ;;
  let vars :=
    [env_var "CONFIG_ENV" (opt_str configEnv);
     env_var "OTEL_METRICS_EXPORTER" (VStr "otlp");
     env_var "OTEL_TRACES_EXPORTER" (VStr "otlp");
     env_var "OTEL_SERVICE_NAME" (VStr (name config))] in
  let vars :=
    if default false (public config)
    then vars ++ [env_var "OTEL_TRACES_SAMPLER" (VStr "always_on")]
    else vars in
  let vars := vars ++ [env_var "LOGGING_JSON" (VStr "true")] in
  let vars :=
    fold_left (fun vars nv => vars ++ [env_var nv.1 (VStr nv.2)])
      (default [] (env config)) vars in
  vars <-
    foldM (fun vars ns =>
             let vars := vars ++ [env_secret ns.1 ns.2] in
             secretIam <-
               register "SecretManagerSecretIamMember" this
                 ("secret-accessor-" +:+ ns.1)
                 [("secretId", secret ns.2);
                  ("role", VStr "roles/secretmanager.secretAccessor");
                  ("member", attr serviceAccount "member")] ;;
             push dependsOn secretIam ;;;
             ret vars)
      (default [] (envSecrets config)) vars ;;
  ghcrRepo <- get_prop (curiostack config) "ghcrRepository" ;;
  ghcrLocation <- get_prop ghcrRepo "location" ;;
  ghcrProject <- get_prop ghcrRepo "project" ;;
  ghcrName <- get_prop ghcrRepo "name" ;;
  let otelCollectorImage :=
    VTemplate [ghcrLocation; VStr "-docker.pkg.dev/"; ghcrProject; VStr "/";
               ghcrName;
               VStr "/curioswitch/go-usegcp/otel-collector:latest"] in
  location <- get_prop (curiostack config) "location" ;;
  dependencies <- read_array dependsOn ;;
  run <-
    register "GoogleCloudRunV2Service" this "service"
      [("name", VStr (name config));
       ("location", location);
       ("customAudiences", VArr [VStr (name config)]);
       ("ingress", ingress);
       ("template",
         VObj
           [("executionEnvironment", VStr "EXECUTION_ENVIRONMENT_GEN2");
            ("serviceAccount", attr serviceAccount "email");
            ("scaling",
              VObj [("minInstanceCount", VNum 0);
                    ("maxInstanceCount", VNum 1)]);
            ("containers",
              VArr
                [VObj
                   [("image", imageName);
                    ("name", VStr "app");
                    ("resources",
                      VObj [("cpuIdle", VBool true);
                            ("startupCpuBoost", VBool true)]);
                    ("startupProbe",
                      VObj [("periodSeconds", VNum 1);
                            ("failureThreshold", VNum 10);
                            ("initialDelaySeconds", VNum 1);
                            ("httpGet", health_probe)]);
                    ("livenessProbe",
                      VObj [("periodSeconds", VNum 5);
                            ("failureThreshold", VNum 3);
                            ("httpGet", health_probe)]);
                    ("env", VArr vars);
                    ("ports",
                      VObj [("name", VStr "h2c");
                            ("containerPort", VNum 8080)])];
                 VObj
                   [("image", otelCollectorImage);
                    ("name", VStr "otel");
                    ("args", VArr [VStr "--config"; VStr "/otel/config.yaml"]);
                    ("resources",
                      VObj [("cpuIdle", VBool true);
                            ("startupCpuBoost", VBool true);
                            ("limits",
                              VObj [("cpu", VStr "1000m");
                                    ("memory", VStr "256Mi")])])]])]);
       ("dependsOn", VArr dependencies);
       ("lifecycle",
         VObj [("ignoreChanges",
                 if truthy_str (imageTag config) then VUndef
                 else VArr [VStr "client"; VStr "client_version";
                            VStr "template[0].revision";
                            VStr "template[0].containers[0].image"])])] ;;
  (if default false (public config)
   then
     _ <- register "CloudRunServiceIamMember" this "publicaccess"
         [("location", attr run "location");
          ("service", attr run "name");
          ("role", VStr "roles/run.invoker");
          ("member", VStr "allUsers")] ;;
     ret tt
   else ret tt) ;;;
  ret (instance this [("serviceAccount", serviceAccount); ("run", run)]).

End curiostack_service_ghcr.

(** ** The dependency graph

    Modelled from the spec: the Dependency Graph Builder is the part of
    CDKTF and of the provisioning engine that turns declarations into
    ordering constraints; it is not code of this repository.  The spec
    gives its contract: [addResource], [addEdge] (edges deduplicated),
    implicit edges for every deferred reference embedded in a config,
    explicit edges for [dependsOn], and [finalize] with a depth-first
    cycle check that yields one topological order. *)
Module graph.

Definition edge := (path * path)%type.

Definition edge_eqb (e f : edge) : bool :=
  path_eqb e.1 f.1 && path_eqb e.2 f.2.

(** The producers of the deferred references embedded in a value. *)
Fixpoint tokens (v : value) : list path :=
  match v with
  | VTok p _ => [p]
  | VTemplate l => (fix go l := match l with
                                | [] => []
                                | x :: r => tokens x ++ go r
                                end) l
  | VArr l => (fix go l := match l with
                           | [] => []
                           | x :: r => tokens x ++ go r
                           end) l
  | VCall _ l => (fix go l := match l with
                              | [] => []
                              | x :: r => tokens x ++ go r
                              end) l
  | VObj fs => (fix go fs := match fs with
                             | [] => []
                             | (_, x) :: r => tokens x ++ go r
                             end) fs
  | _ => []
  end.

Definition implicit_deps (config : obj) : list path :=
  flat_map (fun kv => tokens kv.2) config.

Definition explicit_deps (config : obj) : list path :=
  match obj_get "dependsOn" config with
  | VArr l => omap (fun v => match v with VRes p => Some p | _ => None end) l
  | _ => []
  end.

(** Everything a declaration has to wait for. *)
Definition producers (d : decl) : list path :=
  implicit_deps (d_config d) ++ explicit_deps (d_config d).

Record builder : Type := Builder {
  b_resources : list path;
  b_edges : list edge;
}.

Definition addEdge (from to : path) (b : builder) : builder :=
  if existsb (edge_eqb (from, to)) (b_edges b) then b
  else Builder (b_resources b) (b_edges b ++ [(from, to)]).

Definition addResource (d : decl) (b : builder) : builder :=
  fold_left (fun b p => addEdge p (d_path d) b) (producers d)
    (Builder (b_resources b ++ [d_path d]) (b_edges b)).

Definition build (ds : list decl) : builder :=
  fold_left (fun b d => addResource d b) ds (Builder [] []).

Record Graph : Type := {
  g_resources : list path;
  g_edges : list edge;
  g_order : list path;
}.

Definition mem (n : path) (l : list path) : bool := existsb (path_eqb n) l.

Definition successors (es : list edge) (n : path) : list path :=
  map snd (filter (fun e => path_eqb e.1 n) es).

(** The nodes on the recursion stack from the revisited node up. *)
Fixpoint cycle_of (n : path) (stack : list path) : list path :=
  match stack with
  | [] => [n]
  | m :: r => if path_eqb m n then [m] else m :: cycle_of n r
  end.

(** Depth-first visit: [stack] is the recursion stack, [done] the nodes
    finished so far, each one ahead of everything reachable from it. *)
Fixpoint visit (fuel : nat) (es : list edge) (stack done : list path)
    (n : path) : result (list path) :=
  match fuel with
  | O => Throw (CyclicDependencyError (rev (n :: stack)))
  | S fuel' =>
      if mem n done then Ok done
      else if mem n stack
      then Throw (CyclicDependencyError (rev (n :: cycle_of n stack)))
      else
        match
          fold_left
            (fun acc s =>
               match acc with
               | Ok done' => visit fuel' es (n :: stack) done' s
               | Throw e => Throw e
               end)
            (successors es n) (Ok done)
        with
        | Ok done' => Ok (n :: done')
        | Throw e => Throw e
        end
  end.

Definition endpoints (es : list edge) : list path :=
  flat_map (fun e => [e.1; e.2]) es.

Definition finalize (b : builder) : result Graph :=
  let all := b_resources b ++ endpoints (b_edges b) in
  match
    fold_left
      (fun acc n =>
         match acc with
         | Ok done => visit (S (length all)) (b_edges b) [] done n
         | Throw e => Throw e
         end)
      all (Ok [])
  with
  | Ok order =>
      Ok {| g_resources := b_resources b;
            g_edges := b_edges b;
            g_order := order |}
  | Throw e => Throw e
  end.

(** [a] comes strictly before [b] in [order]. *)
Definition before (a b : path) (order : list path) : Prop :=
  exists i j : nat, order !! i = Some a /\ order !! j = Some b /\ (i < j)%nat.

(** A creation order the provisioning engine may follow. *)
Definition topological (g : Graph) (order : list path) : Prop :=
  NoDup order /\
  (forall n, n ∈ g_resources g -> n ∈ order) /\
  (forall e, e ∈ g_edges g -> before e.1 e.2 order).

End graph.

(** ** Reasoning about composition passes *)

(** [q] lies in the subtree rooted at [p]. *)
Definition under (p q : path) : Prop := p `suffix_of` q.

(** [q] lies strictly below [p]. *)
Definition below (p q : path) : Prop := exists x, under (x :: p) q.

(** The scope at [p] has no child yet: nothing is registered at or under
    the path. *)
Definition vacant (p : path) (w : world) : Prop :=
  Forall (fun d => ~ under p (d_path d)) (nodes w).

Definition prepend (pre : list decl) (w : world) : world :=
  World (pre ++ nodes w) (arrays w).

(** The world with its declarations forgotten. *)
Definition blank (w : world) : world := World [] (arrays w).

(** A computation that registers only at paths satisfying [P] does not
    see declarations outside [P]. *)
Definition local (P : path -> Prop) {A} (m : M A) : Prop :=
  forall pre w, Forall (fun d => ~ P (d_path d)) pre ->
    m (prepend pre w) = (prepend pre (m w).1, (m w).2).

(** A computation that only adds declarations, at paths satisfying [P]. *)
Definition grows (P : path -> Prop) {A} (m : M A) : Prop :=
  forall w, exists l,
    nodes (m w).1 = nodes w ++ l /\ Forall (fun d => P (d_path d)) l.

(** A computation that neither reads nor writes the shared arrays. *)
Definition array_free {A} (m : M A) : Prop :=
  forall w a,
    m (World (nodes w) a) = (World (nodes (m w).1) a, (m w).2)
    /\ arrays (m w).1 = arrays w.

(** Only errors in [E] can be thrown. *)
Definition throws_only (E : error -> Prop) {A} (m : M A) : Prop :=
  forall w w' e, m w = (w', Throw e) -> E e.

(** Every value returned satisfies [Q]. *)
Definition returns {A} (Q : A -> Prop) (m : M A) : Prop :=
  forall w w' a, m w = (w', Ok a) -> Q a.

(** The declarations a pass added to [w]. *)
Definition added (w w' : world) : list decl :=
  drop (length (nodes w)) (nodes w').

Definition is_duplicate (e : error) : Prop :=
  exists scope id, e = DuplicateIdentifierError scope id.

Definition is_type_error (e : error) : Prop := exists msg, e = TypeError msg.

(** What a computation declares, and how it ends, when nothing else has
    been declared. *)
Definition declared {A} (m : M A) : list decl := nodes (m empty_world).1.
Definition outcome {A} (m : M A) : result A := (m empty_world).2.

(** A pass that succeeds after [pre] succeeds without it, with the same
    result and the same additions. *)
Definition portable {A} (m : M A) : Prop :=
  forall pre w w' v, m (prepend pre w) = (w', Ok v) ->
    exists w'', m w = (w'', Ok v) /\ w' = prepend pre w''.

(** The declaration registered at [p], if any. *)
Definition find_decl (p : path) (w : world) : option decl :=
  List.find (fun d => path_eqb p (d_path d)) (nodes w).

(** The value a successful property read yields. *)
Definition prop_of (v : value) (k : string) : value :=
  match v with
  | VObj fs => obj_get k fs
  | VRes p => VTok p k
  | _ => VUndef
  end.

Definition has_kind (k : string) (d : decl) : bool := String.eqb (d_kind d) k.

Definition value_of (r : result value) : value :=
  match r with
  | Ok v => v
  | Throw _ => VUndef
  end.

(** ** Vocabulary of the statements, and the running examples *)

Import curiostack.

Definition environment_missing (config : CurioStackConfig) : Prop :=
  truthy_str (githubEnvironment config) = false
  /\ includes "-" (project config) = false.

(** What is registered when the environment check throws. *)
Definition declared_before_check (scope : path) (config : CurioStackConfig)
    : list decl :=
  let apps := "apps" :: "curiostack" :: scope in
  [Decl ("curiostack" :: scope) "CurioStack" [];
   Decl apps "Apps" [];
   Decl ("service-artifactregistry" :: apps) "ProjectService"
     [("service", VStr "artifactregistry.googleapis.com")];
   Decl ("service-run" :: apps) "ProjectService"
     [("service", VStr "run.googleapis.com")];
   Decl ("service-cloudtrace" :: apps) "ProjectService"
     [("service", VStr "cloudtrace.googleapis.com")];
   Decl ("service-monitoring" :: apps) "ProjectService"
     [("service", VStr "monitoring.googleapis.com")];
   Decl ("cloudrun-deployer" :: apps) "ProjectIamCustomRole"
     [("roleId", VStr "cloudRunDeployer");
      ("title", VStr "Cloud Run Deployer");
      ("permissions",
        VArr [VStr "run.operations.get"; VStr "run.services.create";
              VStr "run.services.get"; VStr "run.services.update"])];
   Decl ("github-id-pool" :: apps) "DataGoogleIamWorkloadIdentityPool"
     [("workloadIdentityPoolId",
        VStr (default "github" (githubIdentityPoolId config)));
      ("provider", googleBeta config)]].

Definition acme (env : option string) : CurioStackConfig :=
  {| project := "acme";
     location := "us-central1";
     domain := "acme.example";
     githubRepo := "acme/app";
     githubIdentityPoolId := None;
     githubEnvironment := env;
     terraformViewerServiceAccountId := None;
     googleBeta := VRes ["google-beta"] |}.

Import curiostack.
Import curiostack_hosting.

Definition acme_dev : CurioStackConfig :=
  {| project := "acme-dev";
     location := "us-central1";
     domain := "acme.example";
     githubRepo := "acme/app";
     githubIdentityPoolId := None;
     githubEnvironment := None;
     terraformViewerServiceAccountId := None;
     googleBeta := VRes ["google-beta"] |}.

Definition acme_stack : value :=
  value_of (CurioStack [] acme_dev empty_world).2.

Definition acme_site : CurioStackHostingConfig :=
  {| displayName := "Acme Site";
     curiostack_hosting.curiostack := acme_stack;
     curiostack_hosting.dependsOn := None |}.

Definition my_project_dev : CurioStackConfig :=
  {| project := "my-project-dev";
     location := "us-central1";
     domain := "acme.example";
     githubRepo := "acme/app";
     githubIdentityPoolId := None;
     githubEnvironment := None;
     terraformViewerServiceAccountId := None;
     googleBeta := VRes ["google-beta"] |}.

(** A stack instance as [service.ts] expects it: the properties the
    constructor of [index.ts] sets, and [otelBucket] and [location]. *)
Definition with_props (v : value) (extra : obj) : value :=
  match v with
  | VObj fs => VObj (spread fs extra)
  | _ => v
  end.

Definition serviced (stack : value) : value :=
  with_props stack
    [("otelBucket", VRes ["otel-config"]); ("location", VStr "us-central1")].

Import curiostack_service.

Definition api_service (stack : value) (deps : option nat)
    : CurioStackServiceConfig :=
  {| name := "api";
     imageTag := None;
     environment := None;
     public := Some true;
     env := Some [("LOG_LEVEL", "debug")];
     websockets := None;
     envSecrets :=
       Some [("DB_PASSWORD",
              {| secret := VTok ["db-password"] "secretId";
                 version := VStr "latest" |})];
     otelCollectorImage := None;
     scaling := None;
     curiostack_service.curiostack := stack;
     curiostack_service.dependsOn := deps |}.

(** The first entry of the [env] of the first container of a Cloud Run
    service configuration. *)
Definition first_env (config : obj) : value :=
  match obj_get "template" config with
  | VObj t =>
      match obj_get "containers" t with
      | VArr (VObj c :: _) =>
          match obj_get "env" c with
          | VArr (e :: _) => e
          | _ => VUndef
          end
      | _ => VUndef
      end
  | _ => VUndef
  end.

Import github_repository.

(** The places where the constructor spreads a caller's configuration
    over its defaults: the id and the kind of the declaration, the
    defaults and the caller's part. *)
Definition merge_sites (scope : path) (config : GitHubRepositoryConfig)
    : list (string * string * obj * option obj) :=
  let repository := VRes ("this" :: name config :: scope) in
  [("this", "Repository", repository_defaults config,
     repositoryConfig config);
   ("main-ruleset", "RepositoryRuleset", main_ruleset_defaults repository,
     mainRulesetConfig config);
   ("release-ruleset", "RepositoryRuleset",
     release_ruleset_defaults repository, releaseRulesetConfig config);
   ("env-dev-viewer", "RepositoryEnvironment",
     dev_viewer_environment_defaults repository,
     devViewerEnvironmentConfig config);
   ("env-dev", "RepositoryEnvironment",
     environment_defaults repository "dev", devEnvironmentConfig config);
   ("env-prod-viewer", "RepositoryEnvironment",
     environment_defaults repository "prod-viewer",
     prodViewerEnvironmentConfig config);
   ("env-prod", "RepositoryEnvironment",
     environment_defaults repository "prod", prodEnvironmentConfig config)].

Definition acme_repository : GitHubRepositoryConfig :=
  {| name := "acme";
     adminTeam := Some (VStr "acme-admins");
     repositoryConfig := Some [("allowMergeCommit", VBool true)];
     mainRulesetConfig :=
       Some [("rules", VObj [("deletion", VBool false)])];
     releaseRulesetConfig := None;
     devEnvironmentConfig := None;
     devViewerEnvironmentConfig := None;
     prodEnvironmentConfig := None;
     prodViewerEnvironmentConfig := None |}.

Import graph.

(** A checker for creation orders. *)
Fixpoint index_of (n : path) (l : list path) : option nat :=
  match l with
  | [] => None
  | m :: r => if path_eqb n m then Some 0%nat else S <$> index_of n r
  end.

Fixpoint nodup_b (l : list path) : bool :=
  match l with
  | [] => true
  | n :: r => negb (mem n r) && nodup_b r
  end.

Definition before_b (a b : path) (order : list path) : bool :=
  match index_of a order, index_of b order with
  | Some i, Some j => (i <? j)%nat
  | _, _ => false
  end.

Definition topological_b (g : Graph) (order : list path) : bool :=
  nodup_b order
  && forallb (fun n => mem n order) (g_resources g)
  && forallb (fun e => before_b e.1 e.2 order) (g_edges g).

Import gcp_project.

Definition acme_project : GcpProjectConfig :=
  {| projectId := "acme-dev";
     displayName := None;
     organizationId := "1234567890";
     billingAccountId := "ABCDEF-123456";
     githubInfraRepo := "acme/acme-infra";
     githubEnvironment := "dev";
     terraformStateLocation := None;
     googleBeta := VRes ["google-beta"];
     dependsOn := None |}.

Definition graph_of (r : result Graph) : Graph :=
  match r with
  | Ok g => g
  | Throw _ => {| g_resources := []; g_edges := []; g_order := [] |}
  end.

Definition acme_project_graph : Graph :=
  graph_of (finalize (build (nodes (GcpProject [] acme_project empty_world).1))).

Import curiostack_service.

(** The IAM member the loop over [envSecrets] declares for one secret. *)
Definition secret_member (this : path) (ns : string * SecretVersion) : value :=
  VRes (("secret-accessor-" +:+ ns.1) :: this).

Definition database : value := VRes ["database"].

(** The world after the stack of [acme_dev] has been composed, with one
    array in the heap: the caller's [dependsOn]. *)
Definition acme_world : world :=
  World (nodes (curiostack.CurioStack [] acme_dev empty_world).1) [[database]].

Import bootstrap.

Definition other_world : world := World [Decl ["other"] "Other" []] [[VNum 1]].

Definition acme_bootstrap (n : string) : BootstrapConfig :=
  {| name := n;
     organizationId := "1234567890";
     billingAccountId := "ABCDEF-123456";
     githubOrg := "acme-corp";
     domain := Some "acme.example";
     appRepositoryConfig := None;
     infraRepositoryConfig := Some [("visibility", VStr "private")];
     disableGitHubWorkflows := None;
     googleBeta := VRes ["google-beta"] |}.

Import bootstrap.

Definition team_decl (this : path) (n : string) : decl :=
  Decl ("github-admins" :: this) "Team"
    [("name", VStr (n +:+ "-admins"));
     ("description", VStr ("Administrators for the " +:+ n +:+ " project"));
     ("privacy", VStr "closed")].

Definition trailing_kind (d : decl) : Prop :=
  d_kind d ∈ ["RepositoryFile"; "DnsManagedZone"; "DnsRecordSet"].

Import gcp_project.

Definition project_ids (config : BootstrapConfig) : list (string * string) :=
  [(name config +:+ "-sysadmin", "prod");
   (name config +:+ "-dev", "dev");
   (name config +:+ "-prod", "prod")].

(** Every declaration lies in the subtree of one of the children [used]
    of the scope [p0]. *)
Definition rooted (p0 : path) (used : list string) (w : world) : Prop :=
  Forall (fun d => exists r, r ∈ used /\ under (r :: p0) (d_path d)) (nodes w).

Import gcp_project.

Definition GcpProject_instance (scope : path) (config : GcpProjectConfig)
    : value :=
  let this := projectId config :: scope in
  instance this
    [("project", VRes ("this" :: this));
     ("tfstateBucketName", VStr (projectId config +:+ "-tfstate"));
     ("dnsService", VRes ("dns" :: this));
     ("githubIdentityPool", VRes ("github-id-pool" :: this));
     ("terraformKeyring", VRes ("terraform-keyring" :: this));
     ("terraformSecretsKey", VRes ("terraform-key" :: this));
     ("terraformAdminServiceAccount", VRes ("terraform-admin" :: this));
     ("terraformViewerServiceAccount", VRes ("terraform-viewer" :: this))].

Import gcp_project.

(** An id that the construct tree takes as it is written.  Under a scope
    the base constructor refuses the empty id, and it rewrites every
    path separator [/] of an id to [--]; neither is part of [register],
    so a statement that a construction succeeds is made for ids that are
    not empty and have no [/]. *)
Definition plain_id (s : string) : Prop :=
  s <> "" /\ includes "/" s = false.

(** A string of ASCII characters only.  On these [toLowerCase] is
    String.prototype.toLowerCase. *)
Definition ascii_only (s : string) : bool :=
  forallb (fun c => (nat_of_ascii c <? 128)%nat) (list_ascii_of_string s).

(** Where a declaration sits and what it is. *)
Definition signature (d : decl) : path * string := (d_path d, d_kind d).

(** The children of a [GcpProject] in the order its constructor declares
    them: local id and kind. *)
Definition GcpProject_children (config : GcpProjectConfig)
    : list (string * string) :=
  [("this", "Project");
   ("firebase", "GoogleFirebaseProject");
   ("tfstate", "StorageBucket");
   ("resourcemanager", "ProjectService");
   ("dns", "ProjectService");
   ("iam", "ProjectService");
   ("github-id-pool", "IamWorkloadIdentityPool");
   ("github-id-provider", "IamWorkloadIdentityPoolProvider");
   ("github-identity-provider-" +:+ projectId config, "TerraformOutput");
   ("kms-service", "ProjectService");
   ("terraform-keyring", "KmsKeyRing");
   ("terraform-key", "KmsCryptoKey");
   ("terraform-admin", "ServiceAccount");
   ("terraform-admin-owner", "ProjectIamMember");
   ("terraform-admin-github-actions", "ServiceAccountIamMember");
   ("terraform-viewer", "ServiceAccount");
   ("terraform-viewer-viewer", "ProjectIamMember");
   ("terraform-viewer-serviceUser", "ProjectIamMember");
   ("terraform-viewer-key-decrypter", "KmsCryptoKeyIamMember");
   ("terraform-viewer-key-secretaccess", "ProjectIamMember");
   ("terraform-viewer-github-actions", "ServiceAccountIamMember");
   ("gcp-testable-permissions", "DataGoogleIamTestablePermissions");
   ("iam-policy-viewer", "ProjectIamCustomRole");
   ("terraform-viewer-iam-policy-viewer", "ProjectIamMember");
   ("terraform-viewer-tfstate", "StorageBucketIamMember")].

(** The resources a configuration value refers to, through a token for
    one of their attributes or directly. *)
Fixpoint mentions (v : value) : list path :=
  match v with
  | VTok p _ => [p]
  | VRes p => [p]
  | VTemplate l => flat_map mentions l
  | VArr l => flat_map mentions l
  | VCall _ l => flat_map mentions l
  | VObj fs => flat_map (fun kv => mentions kv.2) fs
  | _ => []
  end.

Definition mentioned (d : decl) : list path :=
  flat_map (fun kv => mentions kv.2) (d_config d).

(** What the caller hands in: the provider and the dependencies. *)
Definition GcpProject_inputs (config : GcpProjectConfig) : list path :=
  mentions (googleBeta config)
  ++ flat_map mentions (default [] (dependsOn config)).

Definition acme_project_prod : GcpProjectConfig :=
  {| projectId := "acme-prod";
     displayName := Some "Acme";
     organizationId := "1234567890";
     billingAccountId := "ABCDEF-123456";
     githubInfraRepo := "acme/acme-infra";
     githubEnvironment := "prod";
     terraformStateLocation := Some "EU";
     googleBeta := VRes ["google-beta"];
     dependsOn := Some [VRes ["this"; "acme-dev"]] |}.

Import github_repository.

(** The [TeamRepository] that gives [team] admin permission on the
    repository of the construct at [this]. *)
Definition admin_team_decl (this : path) (team : value) : decl :=
  Decl ("admin-team" :: this) "TeamRepository"
    [("repository", VTok ("this" :: this) "name");
     ("teamId", team);
     ("permission", VStr "admin")].

(** The children of a [GitHubRepository] that do not depend on the
    configuration, in the order of declaration. *)
Definition GitHubRepository_rules_and_environments : list (string * string) :=
  [("main-ruleset", "RepositoryRuleset");
   ("release-ruleset", "RepositoryRuleset");
   ("env-dev-viewer", "RepositoryEnvironment");
   ("env-dev", "RepositoryEnvironment");
   ("env-dev-policy", "RepositoryEnvironmentDeploymentPolicy");
   ("env-prod-viewer", "RepositoryEnvironment");
   ("env-prod-viewer-policy", "RepositoryEnvironmentDeploymentPolicy");
   ("env-prod", "RepositoryEnvironment");
   ("env-prod-policy", "RepositoryEnvironmentDeploymentPolicy")].

Definition plain_repository (team : option value) : GitHubRepositoryConfig :=
  {| name := "acme";
     adminTeam := team;
     repositoryConfig := None;
     mainRulesetConfig := None;
     releaseRulesetConfig := None;
     devEnvironmentConfig := None;
     devViewerEnvironmentConfig := None;
     prodEnvironmentConfig := None;
     prodViewerEnvironmentConfig := None |}.

Import curiostack.

(** The instance the constructor of [CurioStack] returns: [project] and
    the four properties copied from [Apps]. *)
Definition CurioStack_instance (scope : path) (config : CurioStackConfig)
    : value :=
  let this := "curiostack" :: scope in
  let apps := "apps" :: this in
  instance this
    [("project", VStr (project config));
     ("dockerRepository", VRes ("docker-registry" :: apps));
     ("ghcrRepository", VRes ("ghcr-repo" :: apps));
     ("githubEnvironmentIamMember",
       VTemplate [VStr "principal://iam.googleapis.com/";
                  VTok ("github-id-pool" :: apps) "name";
                  VStr "/subject/repo:"; VStr (githubRepo config);
                  VStr ":environment:"; VStr (interpolate (githubEnv config))]);
     ("runService", VRes ("service-run" :: apps))].

(** What [CurioStack] declares, in order: path below the scope, and kind. *)
Definition CurioStack_tree : list (list string * string) :=
  [(["curiostack"], "CurioStack");
   (["apps"; "curiostack"], "Apps");
   (["service-artifactregistry"; "apps"; "curiostack"], "ProjectService");
   (["service-run"; "apps"; "curiostack"], "ProjectService");
   (["service-cloudtrace"; "apps"; "curiostack"], "ProjectService");
   (["service-monitoring"; "apps"; "curiostack"], "ProjectService");
   (["cloudrun-deployer"; "apps"; "curiostack"], "ProjectIamCustomRole");
   (["github-id-pool"; "apps"; "curiostack"],
     "DataGoogleIamWorkloadIdentityPool");
   (["docker-registry"; "apps"; "curiostack"], "ArtifactRegistryRepository");
   (["github-cloudrun-deploy"; "apps"; "curiostack"], "ProjectIamMember");
   (["docker-member-github"; "apps"; "curiostack"],
     "ArtifactRegistryRepositoryIamMember");
   (["ghcr-repo"; "apps"; "curiostack"], "ArtifactRegistryRepository");
   (["identity"; "curiostack"], "Identity");
   (["identitytoolkit"; "identity"; "curiostack"], "ProjectService");
   (["identity-platform"; "identity"; "curiostack"], "IdentityPlatformConfig");
   (["firebaseauth-config-secret-viewer"; "identity"; "curiostack"],
     "ProjectIamCustomRole");
   (["terraform-viewer-firebase-secret"; "identity"; "curiostack"],
     "ProjectIamMember")].

(** The principal that [CurioStack] allows to deploy: the repository
    [repo] acting in the GitHub environment [env]. *)
Definition deploy_principal (scope : path) (repo env : string) : value :=
  VTemplate [VStr "principal://iam.googleapis.com/";
             VTok ("github-id-pool" :: "apps" :: "curiostack" :: scope) "name";
             VStr "/subject/repo:"; VStr repo;
             VStr ":environment:"; VStr env].

Definition acme_dev_unnamed_environment : CurioStackConfig :=
  {| project := "acme-dev";
     location := "us-central1";
     domain := "acme.example";
     githubRepo := "acme/app";
     githubIdentityPoolId := None;
     githubEnvironment := Some "";
     terraformViewerServiceAccountId := None;
     googleBeta := VRes ["google-beta"] |}.

Import curiostack_service.

(** The IAM member that lets the service account read one secret. *)
Definition secret_decl (this : path) (ns : string * SecretVersion) : decl :=
  Decl (("secret-accessor-" +:+ ns.1) :: this) "SecretManagerSecretIamMember"
    [("secretId", secret ns.2);
     ("role", VStr "roles/secretmanager.secretAccessor");
     ("member", VTok ("service-account" :: this) "member")].

(** The value of [CONFIG_ENV]: the environment given, else the second
    segment of the stack's project id. *)
Definition config_env (environment : option string) (stack : value) : value :=
  match environment with
  | Some e => VStr e
  | None =>
      match prop_of stack "project" with
      | VStr s => opt_str (split "-" s !! 1%nat)
      | _ => VUndef
      end
  end.

(** The variables the constructor sets itself. *)
Definition default_env (config : CurioStackServiceConfig) : list value :=
  [env_var "CONFIG_ENV" (config_env (environment config) (curiostack config));
   env_var "GOOGLE_PROJECT" (prop_of (curiostack config) "project");
   env_var "OTEL_METRICS_EXPORTER" (VStr "otlp");
   env_var "OTEL_TRACES_EXPORTER" (VStr "otlp");
   env_var "OTEL_SERVICE_NAME" (VStr (name config))]
  ++ (if default false (public config)
      then [env_var "OTEL_TRACES_SAMPLER" (VStr "always_on")] else [])
  ++ [env_var "LOGGING_JSON" (VStr "true")].

(** The variables of the caller, and the references to the secrets. *)
Definition caller_env (env : option (list (string * string))) : list value :=
  map (fun nv => env_var nv.1 (VStr nv.2)) (default [] env).

Definition secret_env (secrets : option (list (string * SecretVersion)))
    : list value :=
  map (fun ns => env_secret ns.1 ns.2) (default [] secrets).

(** The first container of a Cloud Run service configuration. *)
Definition app_container (service : obj) : obj :=
  match obj_get "template" service with
  | VObj t =>
      match obj_get "containers" t with
      | VArr (VObj c :: _) => c
      | _ => []
      end
  | _ => []
  end.

(** What the constructor declares before it loops over the secrets. *)
Definition service_prefix (this : path) (stack : value) (name : string)
    : list decl :=
  [Decl this "CurioStackService" [];
   Decl ("service-account" :: this) "ServiceAccount"
     [("accountId", VStr ("service-" +:+ name))];
   Decl ("service-account-metrics" :: this) "ProjectIamMember"
     [("project", prop_of stack "project");
      ("role", VStr "roles/monitoring.metricWriter");
      ("member", VTok ("service-account" :: this) "member")];
   Decl ("service-account-traces" :: this) "ProjectIamMember"
     [("project", prop_of stack "project");
      ("role", VStr "roles/cloudtrace.agent");
      ("member", VTok ("service-account" :: this) "member")];
   Decl ("service-account-profiles" :: this) "ProjectIamMember"
     [("project", prop_of stack "project");
      ("role", VStr "roles/cloudprofiler.agent");
      ("member", VTok ("service-account" :: this) "member")];
   Decl ("cloudrun-github" :: this) "ServiceAccountIamMember"
     [("serviceAccountId", VTok ("service-account" :: this) "name");
      ("role", VStr "roles/iam.serviceAccountUser");
      ("member", prop_of stack "githubEnvironmentIamMember")]].

(** The grant that opens a service to everyone. *)
Definition public_access_decl (this : path) : decl :=
  Decl ("publicaccess" :: this) "CloudRunServiceIamMember"
    [("location", VTok ("service" :: this) "location");
     ("service", VTok ("service" :: this) "name");
     ("role", VStr "roles/run.invoker");
     ("member", VStr "allUsers")].

(** The array the constructor pushes to, and the arrays as they are when
    it starts pushing: the caller's array, or a new one. *)
Definition dependsOn_index (deps : option nat) (w : world) : nat :=
  default (length (arrays w)) deps.

Definition dependsOn_arrays (deps : option nat) (w : world)
    : list (list value) :=
  match deps with
  | Some _ => arrays w
  | None => arrays w ++ [[]]
  end.

(** What the constructor pushes, in order. *)
Definition service_dependencies (this : path) (stack : value)
    (secrets : option (list (string * SecretVersion))) : list value :=
  [prop_of stack "runService"]
  ++ map (secret_member this) (default [] secrets)
  ++ [VRes ("otel-bucket-reader" :: this)].

(** The bucket reader, the last grant before the service itself. *)
Definition otel_reader_decl (this : path) (stack : value) : decl :=
  Decl ("otel-bucket-reader" :: this) "StorageBucketIamMember"
    [("bucket", prop_of (prop_of stack "otelBucket") "name");
     ("role", VStr "roles/storage.objectViewer");
     ("member", VTok ("service-account" :: this) "member")].

(** The image of the application: the stack's docker repository, the
    name of the service, and the tag. *)
Definition app_image (stack : value) (name tag : string) : value :=
  let repository := prop_of stack "dockerRepository" in
  VTemplate [prop_of repository "location"; VStr "-docker.pkg.dev/";
             prop_of repository "project"; VStr "/";
             prop_of repository "name"; VStr "/";
             VStr name; VStr ":"; VStr tag].

(** The changes Terraform leaves to deployments from outside. *)
Definition external_deployment : value :=
  VArr [VStr "client"; VStr "client_version"; VStr "template[0].revision";
        VStr "template[0].containers[0].image"].

Definition acme_api : CurioStackServiceConfig :=
  api_service (serviced acme_stack) (Some 0%nat).

Definition acme_api_run : world * result value :=
  CurioStackService [] acme_api acme_world.

Definition acme_worker : CurioStackServiceConfig :=
  api_service (serviced acme_stack) None.

Definition acme_worker_run : world * result value :=
  CurioStackService [] acme_worker acme_world.

Definition acme_untagged : CurioStackServiceConfig :=
  {| name := "api";
     imageTag := Some "";
     environment := Some "dev";
     public := None;
     env := None;
     websockets := None;
     envSecrets := None;
     otelCollectorImage := None;
     scaling := None;
     curiostack := serviced acme_stack;
     dependsOn := None |}.

Definition acme_untagged_run : world * result value :=
  CurioStackService [] acme_untagged acme_world.

Definition acme_plain : curiostack.CurioStackConfig := acme (Some "dev").

Definition acme_plain_world : world :=
  World (nodes (curiostack.CurioStack [] acme_plain empty_world).1) [].

Definition acme_plain_service : CurioStackServiceConfig :=
  {| name := "api";
     imageTag := None;
     environment := None;
     public := None;
     env := None;
     websockets := None;
     envSecrets := None;
     otelCollectorImage := None;
     scaling := None;
     curiostack := serviced (CurioStack_instance [] acme_plain);
     dependsOn := None |}.

Definition acme_plain_run : world * result value :=
  CurioStackService [] acme_plain_service acme_plain_world.

(** The error of reading [name] from the [otelBucket] that is not there. *)
Definition no_otel_bucket : error :=
  TypeError "Cannot read properties of undefined (reading 'name')".

Import curiostack_service curiostack_service_ghcr.

(** The image of the collector: a fixed path in the stack's ghcr
    repository. *)
Definition collector_image (stack : value) : value :=
  let ghcr := prop_of stack "ghcrRepository" in
  VTemplate [prop_of ghcr "location"; VStr "-docker.pkg.dev/";
             prop_of ghcr "project"; VStr "/"; prop_of ghcr "name";
             VStr "/curioswitch/go-usegcp/otel-collector:latest"].

(** The second container of a Cloud Run service configuration. *)
Definition collector_container (service : obj) : obj :=
  match obj_get "template" service with
  | VObj t =>
      match obj_get "containers" t with
      | VArr (_ :: VObj c :: _) => c
      | _ => []
      end
  | _ => []
  end.

Definition accessor_id (n : string) : string := "secret-accessor-" +:+ n.

Definition acme_ghcr_api : CurioStackServiceConfig :=
  {| name := "api";
     imageTag := None;
     environment := None;
     public := Some true;
     env := Some [("LOG_LEVEL", "debug")];
     envSecrets :=
       Some [("DB_PASSWORD",
              {| secret := VTok ["db-password"] "secretId";
                 version := VStr "latest" |})];
     curiostack := acme_stack;
     dependsOn := Some 0%nat |}.

Import bootstrap.

(** The ids that [Bootstrap] gives to children of its own for this
    configuration: the team, the workflow files unless the workflows are
    disabled, and the DNS resources if there is a domain. *)
Definition Bootstrap_own_ids (config : BootstrapConfig) : list string :=
  "github-admins"
  :: (if negb (default false (disableGitHubWorkflows config))
      then ["infra-ci-pr"; "infra-ci-main"] else [])
  ++ (if truthy_str (domain config)
      then ["alpha-dns-zone"; "prod-dns-zone"; "prod-alpha-ns-delegate"]
      else []).

Definition quiet_bootstrap (n : string) : BootstrapConfig :=
  {| name := n;
     organizationId := "1234567890";
     billingAccountId := "ABCDEF-123456";
     githubOrg := "acme-corp";
     domain := Some "";
     appRepositoryConfig := None;
     infraRepositoryConfig := None;
     disableGitHubWorkflows := Some true;
     googleBeta := VRes ["google-beta"] |}.

(** The two workflow files, committed to the infrastructure repository
    from templates that receive the ids and numbers of the dev and prod
    projects. *)
Definition workflow_files (dirname : string) (this : path) (n : string)
    : list decl :=
  let dev := "this" :: (n +:+ "-dev") :: this in
  let prod := "this" :: (n +:+ "-prod") :: this in
  let infra := VTok ("this" :: (n +:+ "-infra") :: this) "name" in
  let templateVars :=
    VObj [("gcp_project_id_dev", VTok dev "projectId");
          ("gcp_project_number_dev", VTok dev "number");
          ("gcp_project_id_prod", VTok prod "projectId");
          ("gcp_project_number_prod", VTok prod "number")] in
  [Decl ("infra-ci-pr" :: this) "RepositoryFile"
     [("repository", infra);
      ("file", VStr ".github/workflows/pr.yaml");
      ("content",
        VCall "Fn.templatefile"
          [VStr (path_join [dirname; "templates";
                            "infraWorkflowPr.yaml.tftpl"]);
           templateVars])];
   Decl ("infra-ci-main" :: this) "RepositoryFile"
     [("repository", infra);
      ("file", VStr ".github/workflows/main.yaml");
      ("content",
        VCall "Fn.templatefile"
          [VStr (path_join [dirname; "templates";
                            "infraWorkflowMain.yaml.tftpl"]);
           templateVars])]].

(** The zone of the domain in the prod project, the zone of its [alpha]
    subdomain in the dev project, and the delegation of the one to the
    other. *)
Definition dns_zones (this : path) (n domain : string) : list decl :=
  let dev := (n +:+ "-dev") :: this in
  let prod := (n +:+ "-prod") :: this in
  [Decl ("alpha-dns-zone" :: this) "DnsManagedZone"
     [("project", VTok ("this" :: dev) "projectId");
      ("name", VStr ("alpha-" +:+ replaceAll "." "-" domain));
      ("dnsName", VStr ("alpha." +:+ domain +:+ "."));
      ("dependsOn", VArr [VRes ("dns" :: dev)])];
   Decl ("prod-dns-zone" :: this) "DnsManagedZone"
     [("project", VTok ("this" :: prod) "projectId");
      ("name", VStr (replaceAll "." "-" domain));
      ("dnsName", VStr (domain +:+ "."));
      ("dependsOn", VArr [VRes ("dns" :: prod)])];
   Decl ("prod-alpha-ns-delegate" :: this) "DnsRecordSet"
     [("project", VTok ("this" :: prod) "projectId");
      ("managedZone", VTok ("prod-dns-zone" :: this) "name");
      ("name", VStr ("alpha." +:+ domain +:+ "."));
      ("type", VStr "NS");
      ("rrdatas", VTok ("alpha-dns-zone" :: this) "nameServers");
      ("ttl", VNum 21600)]].

Definition tail_kinds : list string :=
  ["RepositoryFile"; "DnsManagedZone"; "DnsRecordSet"].

Definition outside_tail_kinds (l : list decl) : bool :=
  forallb (fun d => negb (existsb (String.eqb (d_kind d)) tail_kinds)) l.

Definition acme_run : world * result value :=
  Bootstrap "/srv/app" [] (acme_bootstrap "acme") other_world.

Import bootstrap.

(** The four variables that tell the workflows of one repository the ids
    and numbers of the dev and prod projects. *)
Definition actions_variables (this : path) (n label : string)
    (repository : value) : list decl :=
  let dev := "this" :: (n +:+ "-dev") :: this in
  let prod := "this" :: (n +:+ "-prod") :: this in
  [Decl (("gh-var-" +:+ label +:+ "-gcp-project-id-dev") :: this)
     "ActionsVariable"
     [("repository", repository);
      ("variableName", VStr "GCP_PROJECT_ID_DEV");
      ("value", VTok dev "projectId")];
   Decl (("gh-var-" +:+ label +:+ "-gcp-project-id-prod") :: this)
     "ActionsVariable"
     [("repository", repository);
      ("variableName", VStr "GCP_PROJECT_ID_PROD");
      ("value", VTok prod "projectId")];
   Decl (("gh-var-" +:+ label +:+ "-gcp-project-number-dev") :: this)
     "ActionsVariable"
     [("repository", repository);
      ("variableName", VStr "GCP_PROJECT_NUMBER_DEV");
      ("value", VTok dev "number")];
   Decl (("gh-var-" +:+ label +:+ "-gcp-project-number-prod") :: this)
     "ActionsVariable"
     [("repository", repository);
      ("variableName", VStr "GCP_PROJECT_NUMBER_PROD");
      ("value", VTok prod "number")]].

(** The branch with a random suffix that changes with the workflow files,
    the two files committed to it, and the pull request that brings them to
    the branch it was cut from. *)
Definition ci_pull_request (dirname : string) (this : path) (n : string)
    : list decl :=
  let infra := VTok ("this" :: (n +:+ "-infra") :: this) "name" in
  let branch := VTok ("ci-branch" :: this) "branch" in
  [Decl ("ci-branch-suffix" :: this) "StringResource"
     [("length", VNum 16);
      ("special", VBool false);
      ("keepers",
        VObj [("prWorkflow",
                VCall "Fn.filebase64"
                  [VStr (path_join [dirname; "templates";
                                    "infraWorkflowPr.yaml"])]);
              ("mainWorkflow",
                VCall "Fn.filebase64"
                  [VStr (path_join [dirname; "templates";
                                    "infraWorkflowMain.yaml"])])])];
   Decl ("ci-branch" :: this) "Branch"
     [("repository", infra);
      ("branch",
        VTemplate [VStr "tf-"; VTok ("ci-branch-suffix" :: this) "result"])];
   Decl ("infra-ci-pr" :: this) "RepositoryFile"
     [("repository", infra);
      ("branch", branch);
      ("file", VStr ".github/workflows/pr.yaml");
      ("content",
        VCall "Fn.file"
          [VStr (path_join [dirname; "templates"; "infraWorkflowPr.yaml"])])];
   Decl ("infra-ci-main" :: this) "RepositoryFile"
     [("repository", infra);
      ("branch", branch);
      ("file", VStr ".github/workflows/main.yaml");
      ("content",
        VCall "Fn.file"
          [VStr (path_join [dirname; "templates";
                            "infraWorkflowMain.yaml"])])];
   Decl ("infra-ci-pr-apply" :: this) "RepositoryPullRequest"
     [("baseRepository", infra);
      ("baseRef", VTok ("ci-branch" :: this) "sourceBranch");
      ("headRef", branch);
      ("title", VStr "Update CI workflows");
      ("body",
        VStr "This is an automated change to update CI workflows to the latest.");
      ("dependsOn",
        VArr [VRes ("infra-ci-pr" :: this); VRes ("infra-ci-main" :: this)])]].

(** Everything the second [Bootstrap] declares for the workflows. *)
Definition ci_workflows (dirname : string) (this : path) (n : string)
    : list decl :=
  actions_variables this n "infra"
    (VTok ("this" :: (n +:+ "-infra") :: this) "name")
  ++ actions_variables this n "app" (VTok ("this" :: n :: this) "name")
  ++ ci_pull_request dirname this n.

Definition ci_kinds : list string :=
  ["ActionsVariable"; "StringResource"; "Branch"; "RepositoryFile";
   "RepositoryPullRequest"; "DnsManagedZone"; "DnsRecordSet"].

Definition of_kinds (ks : list string) (d : decl) : bool :=
  existsb (String.eqb (d_kind d)) ks.

Definition workflow_kinds : list string :=
  ["ActionsVariable"; "StringResource"; "Branch"; "RepositoryFile";
   "RepositoryPullRequest"].

Definition acme_ci_run : world * result value :=
  bootstrap_ci.Bootstrap "/srv/app" [] (acme_bootstrap "acme") other_world.

Import gcp_project.

(** What the current [GcpProject] declares and the second revision did
    not: the DNS service and the role that lets the Terraform viewer read
    IAM policies. *)
Definition GcpProject_additions : list string :=
  ["dns"; "gcp-testable-permissions"; "iam-policy-viewer";
   "terraform-viewer-iam-policy-viewer"].

(** The configuration of the first revision: the current one without
    [terraformStateLocation]. *)
Definition first_revision_config (config : GcpProjectConfig)
    : gcp_project_r1.GcpProjectConfig :=
  {| gcp_project_r1.projectId := projectId config;
     gcp_project_r1.displayName := displayName config;
     gcp_project_r1.organizationId := organizationId config;
     gcp_project_r1.billingAccountId := billingAccountId config;
     gcp_project_r1.githubInfraRepo := githubInfraRepo config;
     gcp_project_r1.githubEnvironment := githubEnvironment config;
     gcp_project_r1.googleBeta := googleBeta config;
     gcp_project_r1.dependsOn := dependsOn config |}.

(** The output of the identity provider under the id it has had since the
    second revision. *)
Definition rename_output (this : path) (pid : string) (d : decl) : decl :=
  if has_kind "TerraformOutput" d
  then Decl (("github-identity-provider-" +:+ pid) :: this) (d_kind d)
         (d_config d)
  else d.

Import curiostack_hosting.

Definition acme_cool_site : CurioStackHostingConfig :=
  {| displayName := "Acme Cool Site";
     curiostack := acme_stack;
     dependsOn := None |}.

Import github_repository.

(** The policy that lets the branches matching [pattern] deploy to the
    environment registered as [env]. *)
Definition deployment_policy (this : path) (id env pattern : string) : decl :=
  Decl (id :: this) "RepositoryEnvironmentDeploymentPolicy"
    [("repository", VTok ("this" :: this) "name");
     ("environment", VTok (env :: this) "environment");
     ("branchPattern", VStr pattern)].

Import bootstrap.

(** The ids of the variables, and of what provisions the workflow files. *)
Definition ci_own_ids : list string :=
  ["gh-var-infra-gcp-project-id-dev";
   "gh-var-infra-gcp-project-id-prod";
   "gh-var-infra-gcp-project-number-dev";
   "gh-var-infra-gcp-project-number-prod";
   "gh-var-app-gcp-project-id-dev";
   "gh-var-app-gcp-project-id-prod";
   "gh-var-app-gcp-project-number-dev";
   "gh-var-app-gcp-project-number-prod";
   "ci-branch-suffix"; "ci-branch"; "infra-ci-pr"; "infra-ci-main";
   "infra-ci-pr-apply"].

(** The names whose dev project would be called like one of the
    variables. *)
Definition ci_variable_stems : list string :=
  ["gh-var-infra-gcp-project-id"; "gh-var-infra-gcp-project-number";
   "gh-var-app-gcp-project-id"; "gh-var-app-gcp-project-number"].

(** The names that clash with a child the second [Bootstrap] declares
    itself for this configuration. *)
Definition Bootstrap_ci_reserved (config : BootstrapConfig) : list string :=
  "github-admins"
  :: (if negb (default false (disableGitHubWorkflows config))
      then ci_own_ids ++ ci_variable_stems else [])
  ++ (if truthy_str (domain config)
      then ["alpha-dns-zone"; "prod-dns-zone"; "prod-alpha-ns-delegate"]
      else []).

Import curiostack_hosting.

(** Where a [CurioStackHosting] registers. *)
Definition CurioStackHosting_path (scope : path)
    (config : CurioStackHostingConfig) : path :=
  toLowerCase (replace_first " " "-" (displayName config)) :: scope.

(** The children of a [CurioStackHosting] in the order its constructor
    declares them: local id and kind. *)
Definition CurioStackHosting_children : list (string * string) :=
  [("web-app", "GoogleFirebaseWebApp");
   ("hosting-site", "GoogleFirebaseHostingSite");
   ("custom-domain", "GoogleFirebaseHostingCustomDomain");
   ("custom-domain-dns-updates", "TerraformOutput");
   ("cloudrun-deployer", "ProjectIamCustomRole");
   ("firebase-deployer", "ServiceAccount");
   ("firebase-deployer-hosting-admin", "ProjectIamMember");
   ("firebase-deployer-cloudrun-viewer", "ProjectIamMember");
   ("github-firebase-deployer", "ServiceAccountIamMember")].

(** The resources declared through the google-beta provider. *)
Definition firebase_kinds : list string :=
  ["GoogleFirebaseWebApp"; "GoogleFirebaseHostingSite";
   "GoogleFirebaseHostingCustomDomain"].

Definition configured_stack : value :=
  VObj [("node", VRes ["curiostack"]);
        ("config",
         VObj [("project", VStr "acme-dev");
               ("domain", VStr "acme.example");
               ("googleBeta", VRes ["google-beta"])]);
        ("githubEnvironmentIamMember",
         VStr "principal://iam.googleapis.com/pool/subject/repo:acme/app:environment:dev")].

Definition acme_configured_site : CurioStackHostingConfig :=
  {| displayName := "Acme Site";
     curiostack := configured_stack;
     dependsOn := Some 0%nat |}.

(** * Proofs *)

(** * Proofs *)

(** ** Paths *)

Lemma path_eqb_eq (p q : path) : path_eqb p q = true <-> p = q.
Proof.
  revert q. induction p as [|a p IH]; intros [|b q]; simpl; try easy.
  rewrite andb_true_iff, String.eqb_eq, IH. split.
  - intros [-> ->]. reflexivity.
  - intros [= -> ->]. auto.
Qed.

Lemma path_eqb_refl (p : path) : path_eqb p p = true.
Proof. apply path_eqb_eq. reflexivity. Qed.

Lemma path_eqb_neq (p q : path) : path_eqb p q = false <-> p <> q.
Proof.
  rewrite <- path_eqb_eq. destruct (path_eqb p q); split; congruence.
Qed.

Lemma has_path_false (p : path) (w : world) :
  has_path p w = false <-> Forall (fun d => d_path d <> p) (nodes w).
Proof.
  unfold has_path. induction (nodes w) as [|d l IH]; simpl.
  - split; auto.
  - rewrite orb_false_iff, IH, Forall_cons, path_eqb_neq.
    split; intros [H1 H2]; split; auto.
Qed.

Lemma has_path_true (p : path) (w : world) :
  has_path p w = true <-> exists d, d ∈ nodes w /\ d_path d = p.
Proof.
  unfold has_path. rewrite existsb_exists. split.
  - intros (d & Hin & Heq). exists d. rewrite list_elem_of_In.
    apply path_eqb_eq in Heq. auto.
  - intros (d & Hin & Heq). exists d. rewrite <- list_elem_of_In.
    split; [done|]. apply path_eqb_eq. auto.
Qed.

Lemma has_path_prepend (p : path) (pre : list decl) (w : world) :
  has_path p (prepend pre w)
  = existsb (fun d => path_eqb p (d_path d)) pre || has_path p w.
Proof. unfold has_path, prepend. simpl. apply existsb_app. Qed.

Lemma outside_not_found (P : path -> Prop) (p : path) (pre : list decl) :
  P p -> Forall (fun d => ~ P (d_path d)) pre ->
  existsb (fun d => path_eqb p (d_path d)) pre = false.
Proof.
  intros HP. induction 1 as [|d l Hd _ IH]; simpl; [done|].
  rewrite IH, orb_false_r. apply path_eqb_neq. intros ->. auto.
Qed.

Lemma under_refl (p : path) : under p p.
Proof. unfold under. reflexivity. Qed.

Lemma under_cons (p q : path) (x : string) : under p q -> under p (x :: q).
Proof. apply suffix_cons_r. Qed.

Lemma under_trans (p q r : path) : under p q -> under q r -> under p r.
Proof. unfold under. intros. by etrans. Qed.

Lemma below_child (p : path) (x : string) : below p (x :: p).
Proof. exists x. apply under_refl. Qed.

Lemma below_cons (p q : path) (x : string) : below p q -> below p (x :: q).
Proof. intros [y H]. exists y. by apply under_cons. Qed.

Lemma below_under (p q : path) : below p q -> under p q.
Proof.
  intros [x H]. eapply under_trans; [|exact H]. apply under_cons, under_refl.
Qed.

Lemma not_below_self (p : path) : ~ below p p.
Proof. intros [x H]. by apply suffix_cons_not in H. Qed.

(** Two different paths of the same depth root disjoint subtrees. *)
Lemma siblings_disjoint (p q r : path) :
  length p = length q -> p <> q -> under p r -> ~ under q r.
Proof.
  unfold under. intros Hlen Hne Hp Hq.
  destruct (suffix_weak_total _ _ _ Hp Hq) as [[k Hk]|[k Hk]];
    apply (f_equal length) in Hk as Hl; rewrite length_app in Hl;
    destruct k; simpl in *; try lia; congruence.
Qed.

(** ** The composition monad *)

Lemma bind_ok {A B} (m : M A) (k : A -> M B) (w w' : world) (a : A) :
  m w = (w', Ok a) -> bind m k w = k a w'.
Proof. unfold bind. by intros ->. Qed.

Lemma bind_throw {A B} (m : M A) (k : A -> M B) (w w' : world) (e : error) :
  m w = (w', Throw e) -> bind m k w = (w', Throw e).
Proof. unfold bind. by intros ->. Qed.

Lemma bind_inv_ok {A B} (m : M A) (k : A -> M B) (w w' : world) (b : B) :
  bind m k w = (w', Ok b) ->
  exists w1 a, m w = (w1, Ok a) /\ k a w1 = (w', Ok b).
Proof.
  unfold bind. destruct (m w) as [w1 [a|e]]; [eauto|discriminate].
Qed.

Lemma bind_inv_throw {A B} (m : M A) (k : A -> M B) (w w' : world) (e : error) :
  bind m k w = (w', Throw e) ->
  m w = (w', Throw e) \/ exists w1 a, m w = (w1, Ok a) /\ k a w1 = (w', Throw e).
Proof.
  unfold bind. destruct (m w) as [w1 [a|e']]; [eauto|].
  intros [= -> ->]. auto.
Qed.

Lemma register_vacant (kind : string) (scope : path) (id : string)
    (config : obj) (w : world) :
  has_path (id :: scope) w = false ->
  register kind scope id config w
  = (add_node (Decl (id :: scope) kind config) w, Ok (VRes (id :: scope))).
Proof. unfold register. by intros ->. Qed.

Lemma register_taken (kind : string) (scope : path) (id : string)
    (config : obj) (w : world) :
  has_path (id :: scope) w = true ->
  register kind scope id config w
  = (w, Throw (DuplicateIdentifierError scope id)).
Proof. unfold register. by intros ->. Qed.

Lemma register_inv_ok kind scope id config w w' v :
  register kind scope id config w = (w', Ok v) ->
  has_path (id :: scope) w = false
  /\ w' = add_node (Decl (id :: scope) kind config) w
  /\ v = VRes (id :: scope).
Proof.
  unfold register. destruct (has_path _ _); [discriminate|].
  by intros [= <- <-].
Qed.

Lemma construct_inv_ok cls scope id w w' p :
  construct cls scope id w = (w', Ok p) ->
  has_path (id :: scope) w = false
  /\ w' = add_node (Decl (id :: scope) cls []) w
  /\ p = id :: scope.
Proof.
  unfold construct. intros H. apply bind_inv_ok in H as (w1 & a & H1 & H2).
  apply register_inv_ok in H1 as (? & -> & ->).
  unfold ret in H2. by simplify_eq.
Qed.

(** ** Locality *)

Section local.
Context (P : path -> Prop).

Lemma local_ret {A} (a : A) : local P (ret a).
Proof. by intros pre w _. Qed.

Lemma local_throw {A} (e : error) : local P (@throw A e).
Proof. by intros pre w _. Qed.

Lemma local_bind {A B} (m : M A) (k : A -> M B) :
  local P m -> (forall a, local P (k a)) -> local P (bind m k).
Proof.
  intros Hm Hk pre w Hpre. unfold bind. rewrite (Hm pre w Hpre).
  destruct (m w) as [w1 [a|e]]; simpl; [|done].
  by rewrite (Hk a pre w1 Hpre).
Qed.

Lemma local_register kind scope id config :
  P (id :: scope) -> local P (register kind scope id config).
Proof.
  intros HP pre w Hpre. unfold register.
  rewrite has_path_prepend, (outside_not_found P) by done. simpl.
  destruct (has_path _ w); simpl; [done|].
  unfold add_node, prepend. simpl. by rewrite app_assoc.
Qed.

Lemma local_construct_bind {B} cls scope id (k : path -> M B) :
  P (id :: scope) -> local P (k (id :: scope)) ->
  local P (bind (construct cls scope id) k).
Proof.
  intros HP Hk. unfold construct. intros pre w Hpre. unfold bind.
  rewrite (local_register cls scope id [] HP pre w Hpre).
  unfold register. destruct (has_path _ w); simpl; [done|].
  apply (Hk pre _ Hpre).
Qed.

Lemma local_get_prop v k : local P (get_prop v k).
Proof. destruct v; simpl; auto using @local_ret, @local_throw. Qed.

Lemma local_get_path v ks : local P (get_path v ks).
Proof.
  revert v. induction ks as [|k ks IH]; intros v; simpl.
  - apply local_ret.
  - apply local_bind; [apply local_get_prop|]. intros a. apply IH.
Qed.

Lemma local_new_array items : local P (new_array items).
Proof. by intros pre w _. Qed.

Lemma local_read_array l : local P (read_array l).
Proof. by intros pre w _. Qed.

Lemma local_push l x : local P (push l x).
Proof. by intros pre w _. Qed.

Lemma local_split_index v c i : local P (split_index v c i).
Proof. destruct v; simpl; auto using @local_ret, @local_throw. Qed.

Lemma local_foldM {A B} (body : B -> A -> M B) xs acc :
  (forall b a, local P (body b a)) -> local P (foldM body xs acc).
Proof.
  intros Hbody. revert acc. induction xs as [|x xs IH]; intros acc; simpl.
  - apply local_ret.
  - apply local_bind; [apply Hbody|]. intros b. apply IH.
Qed.

Lemma local_for_each {A} (xs : list A) (body : A -> M unit) :
  (forall a, local P (body a)) -> local P (for_each xs body).
Proof.
  intros Hbody. induction xs as [|x xs IH]; simpl.
  - apply local_ret.
  - apply local_bind; [apply Hbody|]. intros _. apply IH.
Qed.

End local.

Lemma local_mono (P Q : path -> Prop) {A} (m : M A) :
  (forall p, P p -> Q p) -> local P m -> local Q m.
Proof.
  intros HPQ Hm pre w Hpre. apply Hm.
  eapply Forall_impl; [exact Hpre|]. simpl. intros d Hd HP. auto.
Qed.

(** ** Growth *)

Section grows.
Context (P : path -> Prop).

Lemma grows_ret {A} (a : A) : grows P (ret a).
Proof. intros w. exists []. by rewrite app_nil_r. Qed.

Lemma grows_throw {A} (e : error) : grows P (@throw A e).
Proof. intros w. exists []. by rewrite app_nil_r. Qed.

Lemma grows_bind {A B} (m : M A) (k : A -> M B) :
  grows P m -> (forall a, grows P (k a)) -> grows P (bind m k).
Proof.
  intros Hm Hk w. unfold bind. destruct (Hm w) as (l1 & E1 & F1).
  destruct (m w) as [w1 [a|e]]; simpl in *; [|eauto].
  destruct (Hk a w1) as (l2 & E2 & F2). exists (l1 ++ l2).
  rewrite E2, E1, app_assoc. split; [done|]. by apply Forall_app.
Qed.

Lemma grows_register kind scope id config :
  P (id :: scope) -> grows P (register kind scope id config).
Proof.
  intros HP w. unfold register. destruct (has_path _ w); simpl.
  - exists []. by rewrite app_nil_r.
  - eexists. split; [done|]. by constructor.
Qed.

Lemma grows_construct_bind {B} cls scope id (k : path -> M B) :
  P (id :: scope) -> grows P (k (id :: scope)) ->
  grows P (bind (construct cls scope id) k).
Proof.
  intros HP Hk w. unfold construct, bind.
  destruct (grows_register cls scope id [] HP w) as (l1 & E1 & F1).
  destruct (register cls scope id [] w) as [w1 [a|e]]; simpl in *; [|eauto].
  destruct (Hk w1) as (l2 & E2 & F2). exists (l1 ++ l2).
  rewrite E2, E1, app_assoc. split; [done|]. by apply Forall_app.
Qed.

Lemma grows_get_prop v k : grows P (get_prop v k).
Proof. destruct v; simpl; auto using @grows_ret, @grows_throw. Qed.

Lemma grows_get_path v ks : grows P (get_path v ks).
Proof.
  revert v. induction ks as [|k ks IH]; intros v; simpl.
  - apply grows_ret.
  - apply grows_bind; [apply grows_get_prop|]. intros a. apply IH.
Qed.

Lemma grows_new_array items : grows P (new_array items).
Proof. intros w. exists []. simpl. by rewrite app_nil_r. Qed.

Lemma grows_read_array l : grows P (read_array l).
Proof. intros w. exists []. simpl. by rewrite app_nil_r. Qed.

Lemma grows_push l x : grows P (push l x).
Proof. intros w. exists []. simpl. by rewrite app_nil_r. Qed.

Lemma grows_split_index v c i : grows P (split_index v c i).
Proof. destruct v; simpl; auto using @grows_ret, @grows_throw. Qed.

Lemma grows_foldM {A B} (body : B -> A -> M B) xs acc :
  (forall b a, grows P (body b a)) -> grows P (foldM body xs acc).
Proof.
  intros Hbody. revert acc. induction xs as [|x xs IH]; intros acc; simpl.
  - apply grows_ret.
  - apply grows_bind; [apply Hbody|]. intros b. apply IH.
Qed.

Lemma grows_for_each {A} (xs : list A) (body : A -> M unit) :
  (forall a, grows P (body a)) -> grows P (for_each xs body).
Proof.
  intros Hbody. induction xs as [|x xs IH]; simpl.
  - apply grows_ret.
  - apply grows_bind; [apply Hbody|]. intros _. apply IH.
Qed.

End grows.

Lemma grows_mono (P Q : path -> Prop) {A} (m : M A) :
  (forall p, P p -> Q p) -> grows P m -> grows Q m.
Proof.
  intros HPQ Hm w. destruct (Hm w) as (l & E & F). exists l. split; [done|].
  eapply Forall_impl; [exact F|]. simpl. auto.
Qed.

(** ** Computations that leave the shared arrays alone *)

Lemma array_free_ret {A} (a : A) : array_free (ret a).
Proof. by intros w a'. Qed.

Lemma array_free_throw {A} (e : error) : array_free (@throw A e).
Proof. by intros w a'. Qed.

Lemma array_free_bind {A B} (m : M A) (k : A -> M B) :
  array_free m -> (forall a, array_free (k a)) -> array_free (bind m k).
Proof.
  intros Hm Hk w a. unfold bind. destruct (Hm w a) as [E1 E2]. rewrite E1.
  destruct (m w) as [w1 [x|e]]; simpl in *; [|done].
  destruct (Hk x w1 a) as [E3 E4]. rewrite E3. split; [done|]. congruence.
Qed.

Lemma array_free_register kind scope id config :
  array_free (register kind scope id config).
Proof.
  intros w a. unfold register, has_path. simpl.
  by destruct (existsb _ (nodes w)).
Qed.

Lemma array_free_construct cls scope id : array_free (construct cls scope id).
Proof.
  apply array_free_bind; [apply array_free_register|].
  intros _. apply array_free_ret.
Qed.

Lemma array_free_get_prop v k : array_free (get_prop v k).
Proof. destruct v; simpl; auto using @array_free_ret, @array_free_throw. Qed.

Lemma array_free_get_path v ks : array_free (get_path v ks).
Proof.
  revert v. induction ks as [|k ks IH]; intros v; simpl.
  - apply array_free_ret.
  - apply array_free_bind; [apply array_free_get_prop|]. intros a. apply IH.
Qed.

Lemma array_free_for_each {A} (xs : list A) (body : A -> M unit) :
  (forall a, array_free (body a)) -> array_free (for_each xs body).
Proof.
  intros Hbody. induction xs as [|x xs IH]; simpl.
  - apply array_free_ret.
  - apply array_free_bind; [apply Hbody|]. intros _. apply IH.
Qed.

(** ** Which errors a computation can throw *)

Section throws_only.
Context (E : error -> Prop).

Lemma throws_only_ret {A} (a : A) : throws_only E (ret a).
Proof. intros w w' e. discriminate. Qed.

Lemma throws_only_throw {A} (e : error) : E e -> throws_only E (@throw A e).
Proof. intros He w w' e'. by intros [= _ <-]. Qed.

Lemma throws_only_bind {A B} (m : M A) (k : A -> M B) :
  throws_only E m -> (forall a, throws_only E (k a)) ->
  throws_only E (bind m k).
Proof.
  intros Hm Hk w w' e H.
  apply bind_inv_throw in H as [H|(w1 & a & _ & H)].
  - by eapply Hm.
  - by eapply Hk.
Qed.

Lemma throws_only_register kind scope id config :
  E (DuplicateIdentifierError scope id) ->
  throws_only E (register kind scope id config).
Proof.
  intros He w w' e. unfold register. destruct (has_path _ w); [|discriminate].
  by intros [= _ <-].
Qed.

Lemma throws_only_construct cls scope id :
  E (DuplicateIdentifierError scope id) ->
  throws_only E (construct cls scope id).
Proof.
  intros He. apply throws_only_bind; [by apply throws_only_register|].
  intros _. apply throws_only_ret.
Qed.

Lemma throws_only_get_prop v k :
  (forall msg, E (TypeError msg)) -> throws_only E (get_prop v k).
Proof.
  intros He. destruct v; simpl; auto using @throws_only_ret, @throws_only_throw.
Qed.

Lemma throws_only_get_path v ks :
  (forall msg, E (TypeError msg)) -> throws_only E (get_path v ks).
Proof.
  intros He. revert v. induction ks as [|k ks IH]; intros v; simpl.
  - apply throws_only_ret.
  - apply throws_only_bind; [by apply throws_only_get_prop|]. intros a. apply IH.
Qed.

End throws_only.

(** ** What a computation returns *)

Lemma returns_ret {A} (Q : A -> Prop) (a : A) : Q a -> returns Q (ret a).
Proof. intros HQ w w' a'. by intros [= _ <-]. Qed.

Lemma returns_throw {A} (Q : A -> Prop) (e : error) : returns Q (@throw A e).
Proof. intros w w' a. discriminate. Qed.

Lemma returns_bind {A B} (Q : B -> Prop) (m : M A) (k : A -> M B) :
  (forall a, returns Q (k a)) -> returns Q (bind m k).
Proof.
  intros Hk w w' b H. apply bind_inv_ok in H as (w1 & a & _ & H).
  by eapply Hk.
Qed.

(** ** The frame property *)

(** A local computation behaves in any world that has nothing in its
    region as it does in the empty world. *)
Lemma frame (P : path -> Prop) {A} (m : M A) (w : world) :
  local P m -> array_free m ->
  Forall (fun d => ~ P (d_path d)) (nodes w) ->
  m w = (World (nodes w ++ declared m) (arrays w), outcome m).
Proof.
  intros Hl Ha Hw.
  assert (w = prepend (nodes w) (blank w)) as Ew.
  { destruct w. unfold prepend, blank. simpl. by rewrite app_nil_r. }
  rewrite Ew at 1. rewrite (Hl _ _ Hw).
  destruct (Ha empty_world (arrays w)) as [E1 _].
  unfold blank. simpl in E1. rewrite E1. reflexivity.
Qed.

(** Peeling the [super] call off a constructor: the body runs in the
    world it started from, with the construct's own node put in front. *)
Lemma construct_frame {B} cls scope id (k : path -> M B) (w : world) :
  vacant (id :: scope) w ->
  local (below (id :: scope)) (k (id :: scope)) ->
  bind (construct cls scope id) k w
  = (prepend (nodes w ++ [Decl (id :: scope) cls []])
       (k (id :: scope) (blank w)).1,
     (k (id :: scope) (blank w)).2).
Proof.
  intros Hv Hk. unfold bind, construct, bind, ret.
  rewrite register_vacant.
  2:{ apply has_path_false. eapply Forall_impl; [exact Hv|]. simpl.
      intros d Hd Heq. apply Hd. rewrite Heq. apply under_refl. }
  replace (add_node (Decl (id :: scope) cls []) w)
    with (prepend (nodes w ++ [Decl (id :: scope) cls []]) (blank w))
    by (unfold prepend, add_node; simpl; by rewrite app_nil_r).
  apply Hk. apply Forall_app. split.
  - eapply Forall_impl; [exact Hv|]. simpl. intros d Hd Hb.
    by apply Hd, below_under.
  - constructor; [|constructor]. simpl. apply not_below_self.
Qed.

Lemma vacant_empty (p : path) : vacant p empty_world.
Proof. constructor. Qed.

Lemma vacant_blank (p : path) (w : world) : vacant p (blank w).
Proof. constructor. Qed.

(** ** Automation *)

Ltac solve_under :=
  repeat first [ apply under_refl | apply under_cons ].

Ltac solve_below :=
  repeat first [ apply below_child | apply below_cons ].

Ltac solve_region :=
  first [ solve [solve_under] | solve [solve_below]
        | solve [eauto using under_refl, under_cons, below_child, below_cons] ].

Ltac intro_binder :=
  match goal with
  | |- forall _, _ => intro
  end.

Ltac split_branch :=
  match goal with
  | |- context [ if ?b then _ else _ ] => destruct b eqn:?
  | |- context [ match ?x with Some _ => _ | None => _ end ] => destruct x eqn:?
  end.

Ltac solve_local :=
  repeat first
    [ apply local_ret | apply local_throw | apply local_get_prop
    | apply local_get_path | apply local_new_array | apply local_read_array
    | apply local_push | apply local_split_index
    | apply local_register; solve_region
    | apply local_construct_bind; [solve_region|]
    | apply local_bind
    | apply local_foldM
    | apply local_for_each
    | split_branch
    | intro_binder ].

Ltac solve_grows :=
  repeat first
    [ apply grows_ret | apply grows_throw | apply grows_get_prop
    | apply grows_get_path | apply grows_new_array | apply grows_read_array
    | apply grows_push | apply grows_split_index
    | apply grows_register; solve_region
    | apply grows_construct_bind; [solve_region|]
    | apply grows_bind
    | apply grows_foldM
    | apply grows_for_each
    | split_branch
    | intro_binder ].

Ltac solve_array_free :=
  repeat first
    [ apply array_free_ret | apply array_free_throw | apply array_free_get_prop
    | apply array_free_get_path | apply array_free_register
    | apply array_free_construct
    | apply array_free_bind
    | apply array_free_for_each
    | split_branch
    | intro_binder ].

(** ** The constructors are local to the subtree they create *)

Import gcp_project.

Lemma GcpProject_local scope config :
  local (under (projectId config :: scope)) (GcpProject scope config).
Proof. unfold GcpProject. solve_local. Qed.

Lemma GcpProject_grows scope config :
  grows (under (projectId config :: scope)) (GcpProject scope config).
Proof. unfold GcpProject. solve_grows. Qed.

Lemma GcpProject_array_free scope config :
  array_free (GcpProject scope config).
Proof. unfold GcpProject. solve_array_free. Qed.

(** ** Successful passes do not depend on what was declared before *)

Lemma portable_ret {A} (a : A) : portable (ret a).
Proof. intros pre w w' v [= <- <-]. eauto. Qed.

Lemma portable_throw {A} (e : error) : portable (@throw A e).
Proof. intros pre w w' v. discriminate. Qed.

Lemma portable_bind {A B} (m : M A) (k : A -> M B) :
  portable m -> (forall a, portable (k a)) -> portable (bind m k).
Proof.
  intros Hm Hk pre w w' v H.
  apply bind_inv_ok in H as (w1 & a & H1 & H2).
  apply Hm in H1 as (w1' & H1 & ->).
  apply Hk in H2 as (w2' & H2 & ->).
  exists w2'. split; [|done]. by rewrite (bind_ok _ _ _ _ _ H1).
Qed.

Lemma portable_register kind scope id config :
  portable (register kind scope id config).
Proof.
  intros pre w w' v H. apply register_inv_ok in H as (Hf & -> & ->).
  rewrite has_path_prepend in Hf. apply orb_false_iff in Hf as [_ Hf].
  rewrite (register_vacant _ _ _ _ _ Hf). eexists. split; [done|].
  unfold add_node, prepend. simpl. by rewrite app_assoc.
Qed.

Lemma portable_construct cls scope id : portable (construct cls scope id).
Proof.
  apply portable_bind; [apply portable_register|].
  intros _. apply portable_ret.
Qed.

Lemma portable_get_prop v k : portable (get_prop v k).
Proof. destruct v; simpl; auto using @portable_ret, @portable_throw. Qed.

Lemma portable_get_path v ks : portable (get_path v ks).
Proof.
  revert v. induction ks as [|k ks IH]; intros v; simpl.
  - apply portable_ret.
  - apply portable_bind; [apply portable_get_prop|]. intros a. apply IH.
Qed.

Lemma portable_new_array items : portable (new_array items).
Proof. intros pre w w' v [= <- <-]. eexists. split; done. Qed.

Lemma portable_read_array l : portable (read_array l).
Proof. intros pre w w' v [= <- <-]. eexists. split; done. Qed.

Lemma portable_push l x : portable (push l x).
Proof. intros pre w w' v [= <- <-]. eexists. split; done. Qed.

Lemma portable_split_index v c i : portable (split_index v c i).
Proof. destruct v; simpl; auto using @portable_ret, @portable_throw. Qed.

Lemma portable_foldM {A B} (body : B -> A -> M B) xs acc :
  (forall b a, portable (body b a)) -> portable (foldM body xs acc).
Proof.
  intros Hbody. revert acc. induction xs as [|x xs IH]; intros acc; simpl.
  - apply portable_ret.
  - apply portable_bind; [apply Hbody|]. intros b. apply IH.
Qed.

Lemma portable_for_each {A} (xs : list A) (body : A -> M unit) :
  (forall a, portable (body a)) -> portable (for_each xs body).
Proof.
  intros Hbody. induction xs as [|x xs IH]; simpl.
  - apply portable_ret.
  - apply portable_bind; [apply Hbody|]. intros _. apply IH.
Qed.

Ltac solve_portable :=
  repeat first
    [ apply portable_ret | apply portable_throw | apply portable_get_prop
    | apply portable_get_path | apply portable_new_array
    | apply portable_read_array | apply portable_push
    | apply portable_split_index | apply portable_register
    | apply portable_construct
    | apply portable_bind
    | apply portable_foldM
    | apply portable_for_each
    | split_branch
    | intro_binder ].

(** A successful pass added what it adds in the empty world. *)
Lemma portable_run {A} (m : M A) (w w' : world) (v : A) :
  portable m -> array_free m -> m w = (w', Ok v) ->
  w' = World (nodes w ++ declared m) (arrays w) /\ outcome m = Ok v.
Proof.
  intros Hp Ha H.
  assert (w = prepend (nodes w) (blank w)) as Ew.
  { destruct w. unfold prepend, blank. simpl. by rewrite app_nil_r. }
  rewrite Ew in H. apply Hp in H as (w'' & H & ->).
  destruct (Ha empty_world (arrays w)) as [E1 _].
  unfold blank in H. simpl in E1. rewrite E1 in H.
  injection H as <- Ho. unfold outcome. rewrite Ho. done.
Qed.

(** Inverting a successful constructor: the [super] call found the id
    free, and the body did what it does on its own. *)
Lemma construct_bind_inv {B} cls scope id (k : path -> M B) w w' v :
  portable (k (id :: scope)) ->
  bind (construct cls scope id) k w = (w', Ok v) ->
  exists w'', k (id :: scope) (blank w) = (w'', Ok v)
    /\ w' = prepend (nodes w ++ [Decl (id :: scope) cls []]) w''.
Proof.
  intros Hk H. apply bind_inv_ok in H as (w1 & p & H1 & H2).
  apply construct_inv_ok in H1 as (_ & -> & ->).
  replace (add_node (Decl (id :: scope) cls []) w)
    with (prepend (nodes w ++ [Decl (id :: scope) cls []]) (blank w)) in H2
    by (unfold prepend, add_node; simpl; by rewrite app_nil_r).
  by apply Hk in H2.
Qed.

(** Once a constructor has succeeded, the id it took is taken. *)
Lemma construct_bind_taken {B} cls scope id (k : path -> M B) w w' v :
  grows (fun _ => True) (k (id :: scope)) ->
  bind (construct cls scope id) k w = (w', Ok v) ->
  has_path (id :: scope) w' = true.
Proof.
  intros Hk H. apply bind_inv_ok in H as (w1 & p & H1 & H2).
  apply construct_inv_ok in H1 as (_ & -> & ->).
  destruct (Hk (add_node (Decl (id :: scope) cls []) w)) as (l & E & _).
  rewrite H2 in E. simpl in E. apply has_path_true.
  exists (Decl (id :: scope) cls []). split; [|done].
  rewrite E, !elem_of_app, list_elem_of_singleton. auto.
Qed.

Lemma construct_bind_taken_throws {B} cls scope id (k : path -> M B) w :
  has_path (id :: scope) w = true ->
  bind (construct cls scope id) k w
  = (w, Throw (DuplicateIdentifierError scope id)).
Proof.
  intros H. unfold bind, construct, bind. by rewrite register_taken.
Qed.

Import gcp_project.

(** Claim C8.  A second registration under the same scope with an id
    already taken throws a DuplicateIdentifierError at once, whatever the
    two kinds are, and leaves the tree as it was; in particular a second
    [GcpProject] with the same [projectId] under one scope throws at its
    [super] call. *)
Theorem duplicate_logical_id_rejected :
  (forall kind1 kind2 scope id c1 c2 w w1 v,
     register kind1 scope id c1 w = (w1, Ok v) ->
     register kind2 scope id c2 w1
     = (w1, Throw (DuplicateIdentifierError scope id)))
  /\
  (forall scope c1 c2 w w1 v,
     projectId c1 = projectId c2 ->
     GcpProject scope c1 w = (w1, Ok v) ->
     GcpProject scope c2 w1
     = (w1, Throw (DuplicateIdentifierError scope (projectId c2)))).
Proof.
  split.
  - intros * H. apply register_inv_ok in H as (_ & -> & _).
    apply register_taken, has_path_true.
    exists (Decl (id :: scope) kind1 c1). split; [|done].
    unfold add_node. simpl. rewrite elem_of_app, list_elem_of_singleton. auto.
  - intros * Hid H. unfold GcpProject in *.
    apply construct_bind_taken in H.
    2:{ solve_grows. }
    rewrite <- Hid. by apply construct_bind_taken_throws.
Qed.

Lemma duplicate_logical_id_rejected_witness :
  register "Team" [] "shared" [] (register "Project" [] "shared" [] empty_world).1
  = ((register "Project" [] "shared" [] empty_world).1,
     Throw (DuplicateIdentifierError [] "shared")).
Proof.
  apply (proj1 duplicate_logical_id_rejected "Project" "Team" [] "shared"
           [] [] empty_world (register "Project" [] "shared" [] empty_world).1
           (VRes ["shared"])).
  reflexivity.
Defined.

Lemma added_app (w : world) (l : list decl) (a : list (list value)) :
  added w (World (nodes w ++ l) a) = l.
Proof. unfold added. simpl. by rewrite drop_app_length. Qed.

Ltac solve_throws side :=
  repeat first
    [ apply throws_only_ret
    | apply throws_only_throw; side
    | apply throws_only_get_prop; side
    | apply throws_only_get_path; side
    | apply throws_only_register; side
    | apply throws_only_construct; side
    | apply throws_only_bind
    | split_branch
    | intro_binder ].

Ltac solve_returns :=
  repeat first [ apply returns_bind; intro | apply returns_throw | split_branch ].

(** ** CurioStack *)
Import curiostack.

Lemma CurioStack_local scope config :
  local (under ("curiostack" :: scope)) (CurioStack scope config).
Proof. unfold CurioStack, Apps, Identity. solve_local. Qed.

Lemma CurioStack_array_free scope config :
  array_free (CurioStack scope config).
Proof. unfold CurioStack, Apps, Identity. solve_array_free. Qed.

Lemma CurioStack_throws scope config :
  throws_only
    (fun e => forall msg, e = ConfigurationError msg ->
       msg = missing_environment /\ environment_missing config)
    (CurioStack scope config).
Proof.
  unfold CurioStack, Apps, Identity.
  solve_throws ltac:(try (intros; discriminate)).
  match goal with H : ConfigurationError _ = ConfigurationError _ |- _ =>
    injection H as <- end.
  split; [done|].
  match goal with H : _ && _ = true |- _ =>
    apply andb_true_iff in H as [H1 H2];
    apply negb_true_iff in H1; apply negb_true_iff in H2 end.
  by split.
Qed.

Lemma CurioStack_missing_run scope config :
  environment_missing config ->
  CurioStack scope config empty_world
  = (World (declared_before_check scope config) [],
     Throw (ConfigurationError missing_environment)).
Proof.
  intros [H1 H2]. unfold CurioStack, Apps. rewrite H1, H2.
  vm_compute. reflexivity.
Qed.

Lemma added_frame (w : world) (l : list decl) :
  added w (World (nodes w ++ l) (arrays w)) = l.
Proof. apply added_app. Qed.

(** Claim C1, amended.  The error citing the missing environment is
    thrown only where [githubEnvironment] is absent or empty and
    [project] has no [-]; and under a scope with no child [curiostack]
    it is thrown in every such case.  A supplied empty string counts as
    missing: the guard is [!config.githubEnvironment]. *)
Theorem CurioStack_missing_environment scope config w :
  (forall w' msg,
     CurioStack scope config w = (w', Throw (ConfigurationError msg)) ->
     msg = missing_environment /\ environment_missing config)
  /\
  (vacant ("curiostack" :: scope) w -> environment_missing config ->
   exists w',
     CurioStack scope config w
     = (w', Throw (ConfigurationError missing_environment))).
Proof.
  split.
  - intros w' msg H. by eapply (CurioStack_throws scope config).
  - intros Hv Hm.
    rewrite (frame _ _ _ (CurioStack_local scope config)
               (CurioStack_array_free scope config) Hv).
    unfold outcome. rewrite (CurioStack_missing_run _ _ Hm). simpl. eauto.
Qed.

Lemma CurioStack_missing_environment_witness :
  exists w',
    CurioStack [] (acme None) empty_world
    = (w', Throw (ConfigurationError missing_environment)).
Proof.
  apply (CurioStack_missing_environment [] (acme None) empty_world).
  - apply vacant_empty.
  - split; reflexivity.
Defined.

(** Claim C1 does not hold as stated: with [githubEnvironment] supplied
    as the empty string and the project [acme], the error is thrown. *)
Lemma CurioStack_empty_environment_counterexample :
  ~ (forall scope config w,
       (exists w' msg,
          CurioStack scope config w = (w', Throw (ConfigurationError msg)))
       <-> (githubEnvironment config = None
            /\ includes "-" (project config) = false)).
Proof.
  intros H.
  destruct (H [] (acme (Some "")) empty_world) as [H1 _].
  destruct H1 as [H1 _]; [|discriminate].
  eexists _, _. vm_compute. reflexivity.
Qed.

(** Claim C5, amended.  When the environment check fails under a scope
    with no child [curiostack], the error aborts the constructor at the
    check and nothing is rolled back: what the call has added to the tree
    is exactly what is declared before the check (the [CurioStack] and
    [Apps] constructs, four [ProjectService]s, the deployer role and the
    identity-pool data source), and nothing of what follows it. *)
Theorem CurioStack_failure_keeps_earlier_declarations scope config w w' msg :
  vacant ("curiostack" :: scope) w ->
  CurioStack scope config w = (w', Throw (ConfigurationError msg)) ->
  added w w' = declared_before_check scope config.
Proof.
  intros Hv H.
  pose proof (CurioStack_throws scope config _ _ _ H _ eq_refl) as [_ Hm].
  rewrite (frame _ _ _ (CurioStack_local scope config)
             (CurioStack_array_free scope config) Hv) in H.
  injection H as <- _. rewrite added_frame.
  unfold declared. by rewrite (CurioStack_missing_run _ _ Hm).
Qed.

Lemma CurioStack_failure_keeps_earlier_declarations_witness :
  added empty_world (CurioStack [] (acme None) empty_world).1
  = declared_before_check [] (acme None).
Proof.
  eapply (CurioStack_failure_keeps_earlier_declarations
            [] (acme None) empty_world _ missing_environment).
  - apply vacant_empty.
  - vm_compute. reflexivity.
Defined.

(** Claim C5 does not hold as stated: after the failure the tree is not
    what it was before the call. *)
Lemma CurioStack_failure_not_atomic_counterexample :
  ~ (forall scope config w w' msg,
       CurioStack scope config w = (w', Throw (ConfigurationError msg)) ->
       nodes w' = nodes w).
Proof.
  intros H.
  specialize (H [] (acme None) empty_world
                (CurioStack [] (acme None) empty_world).1 missing_environment).
  vm_compute in H. specialize (H eq_refl). discriminate.
Qed.

Import curiostack.

(** ** CurioStackHosting reads a property CurioStack never sets *)

Lemma CurioStack_returns scope config :
  returns (fun v => get_prop v "config" = ret VUndef) (CurioStack scope config).
Proof.
  unfold CurioStack. solve_returns. apply returns_ret. reflexivity.
Qed.

Import curiostack_hosting.

(** Claim C10.  Whatever instance the [CurioStack] constructor has
    returned, constructing a [CurioStackHosting] with it fails: the
    instance has no [config] property, so destructuring
    [config.curiostack.config] throws a TypeError as soon as the [super]
    call has registered the construct; and where the [super] call itself
    is refused, construction fails with the duplicate id. *)
Theorem CurioStackHosting_always_fails
    scope0 config0 w0 w1 stack scope config w :
  CurioStack scope0 config0 w0 = (w1, Ok stack) ->
  curiostack_hosting.curiostack config = stack ->
  let id := toLowerCase (replace_first " " "-" (displayName config)) in
  CurioStackHosting scope config w
  = (if has_path (id :: scope) w
     then (w, Throw (DuplicateIdentifierError scope id))
     else (add_node (Decl (id :: scope) "CurioStackHosting" []) w,
           Throw (TypeError
                    "Cannot destructure property 'googleBeta' of undefined"))).
Proof.
  intros Hstack Hcfg id. apply CurioStack_returns in Hstack.
  unfold CurioStackHosting, bind at 1, construct, bind at 1, register.
  fold id. destruct (has_path (id :: scope) w); [done|].
  unfold ret at 1. cbv beta iota. unfold bind at 1.
  by rewrite Hcfg, Hstack.
Qed.

Lemma CurioStackHosting_always_fails_witness :
  CurioStackHosting [] acme_site (CurioStack [] acme_dev empty_world).1
  = (add_node (Decl ["acme-site"] "CurioStackHosting" [])
       (CurioStack [] acme_dev empty_world).1,
     Throw (TypeError "Cannot destructure property 'googleBeta' of undefined")).
Proof.
  apply (CurioStackHosting_always_fails [] acme_dev empty_world
           (CurioStack [] acme_dev empty_world).1 acme_stack [] acme_site
           (CurioStack [] acme_dev empty_world).1).
  - vm_compute. reflexivity.
  - reflexivity.
Defined.

(** ** The derived environment is the second segment of the project id *)

Import curiostack_service.

(** Claim C6, at the input where the code departs from it.  For the
    project id [my-project-dev] and no explicit environment, the code
    derives the second segment of the id, [project], where the claim and
    the doc comments of the source say [dev]: in [githubEnv], in the IAM
    member the stack exports, and in the default [CONFIG_ENV] of a
    service. *)
Theorem environment_of_my_project_dev :
  let stack := CurioStack [] my_project_dev empty_world in
  let service :=
    CurioStackService [] (api_service (serviced (value_of stack.2)) None)
      stack.1 in
  githubEnv my_project_dev = Some "project"
  /\ prop_of (value_of stack.2) "githubEnvironmentIamMember"
     = VTemplate [VStr "principal://iam.googleapis.com/";
                  VTok ["github-id-pool"; "apps"; "curiostack"] "name";
                  VStr "/subject/repo:"; VStr "acme/app";
                  VStr ":environment:"; VStr "project"]
  /\ (first_env ∘ d_config <$> find_decl ["service"; "api"] service.1)
     = Some (env_var "CONFIG_ENV" (VStr "project")).
Proof. vm_compute. repeat split. Qed.

(** Where the id has exactly one separator, the derived environment is
    what follows it. *)
Lemma split_no_separator (c : ascii) (s : string) :
  includes c s = false -> split c s = [s].
Proof.
  induction s as [|a s IH]; simpl; [done|].
  intros [Ha Hs]%orb_false_iff. rewrite Ha, (IH Hs). done.
Qed.

Lemma split_at_first_separator (c : ascii) (a b : string) :
  includes c a = false ->
  split c (a +:+ String c b) = a :: split c b.
Proof.
  induction a as [|x a IH]; simpl.
  - intros _. by rewrite Ascii.eqb_refl.
  - intros [Hx Ha]%orb_false_iff. rewrite Hx, (IH Ha). done.
Qed.

Lemma githubEnv_single_separator (config : CurioStackConfig) (a b : string) :
  githubEnvironment config = None ->
  project config = a +:+ "-" +:+ b ->
  includes "-" a = false -> includes "-" b = false ->
  githubEnv config = Some b.
Proof.
  intros He Hp Ha Hb. unfold githubEnv. rewrite He, Hp.
  change ("-" +:+ b) with (String "-"%char b).
  rewrite split_at_first_separator, split_no_separator by done. done.
Qed.

(** ** Object spread *)

Lemma obj_lookup_set (k k' : string) (v : value) (o : obj) :
  obj_lookup k (obj_set k' v o)
  = if String.eqb k k' then Some v else obj_lookup k o.
Proof.
  induction o as [|[k0 v0] o IH]; simpl.
  - done.
  - destruct (String.eqb k' k0) eqn:E0; simpl.
    + apply String.eqb_eq in E0 as <-. by destruct (String.eqb k k').
    + destruct (String.eqb k k0) eqn:E1.
      * apply String.eqb_eq in E1 as ->.
        rewrite String.eqb_sym, E0. done.
      * apply IH.
Qed.

Lemma obj_lookup_absent (k : string) (o : obj) :
  k ∉ o.*1 -> obj_lookup k o = None.
Proof.
  induction o as [|[k0 v0] o IH]; simpl; [done|].
  rewrite not_elem_of_cons. intros [Hne Hnin].
  apply String.eqb_neq in Hne. rewrite Hne. auto.
Qed.

(** Override wins, key by key: a key of [extra] takes the value [extra]
    gives it, any other key keeps what [base] had. *)
Lemma spread_lookup (k : string) (base extra : obj) :
  obj_wf extra ->
  obj_lookup k (spread base extra)
  = match obj_lookup k extra with
    | Some v => Some v
    | None => obj_lookup k base
    end.
Proof.
  unfold spread, obj_wf. revert base.
  induction extra as [|[k' v'] extra IH]; intros base Hwf; simpl; [done|].
  apply NoDup_cons in Hwf as [Hnin Hwf]. rewrite (IH _ Hwf).
  rewrite obj_lookup_set. destruct (String.eqb k k') eqn:E.
  - apply String.eqb_eq in E as ->. by rewrite obj_lookup_absent.
  - done.
Qed.

(** ** GitHubRepository *)
Import github_repository.

Lemma GitHubRepository_local scope config :
  local (under (name config :: scope)) (GitHubRepository scope config).
Proof. unfold GitHubRepository. solve_local. Qed.

Lemma GitHubRepository_grows scope config :
  grows (under (name config :: scope)) (GitHubRepository scope config).
Proof. unfold GitHubRepository. solve_grows. Qed.

Lemma GitHubRepository_array_free scope config :
  array_free (GitHubRepository scope config).
Proof. unfold GitHubRepository. solve_array_free. Qed.

Lemma GitHubRepository_portable scope config :
  portable (GitHubRepository scope config).
Proof. unfold GitHubRepository. solve_portable. Qed.

Lemma added_prepend (w w'' : world) (l : list decl) :
  added w (prepend (nodes w ++ l) w'') = l ++ nodes w''.
Proof.
  unfold added, prepend. simpl.
  by rewrite <- app_assoc, drop_app_length.
Qed.

Ltac solve_elem :=
  solve [ repeat first [ apply list_elem_of_here | apply list_elem_of_further ] ].

Lemma GitHubRepository_merged scope config w w' inst :
  GitHubRepository scope config w = (w', Ok inst) ->
  forall id kind defaults override,
    (id, kind, defaults, override) ∈ merge_sites scope config ->
    Decl (id :: name config :: scope) kind
      (spread defaults (opt_obj override)) ∈ added w w'.
Proof.
  intros H. unfold GitHubRepository in H.
  apply construct_bind_inv in H as (w'' & H & ->); [|solve_portable].
  rewrite added_prepend. unfold blank in H.
  intros id kind defaults override Hin. unfold merge_sites in Hin.
  destruct (from_option truthy false (adminTeam config)) eqn:Hteam;
    vm_compute in H; injection H as <- _;
    repeat (apply elem_of_cons in Hin as [[= -> -> -> ->]|Hin];
            [vm_compute; solve_elem|]);
    by apply elem_of_nil in Hin.
Qed.

(** Claim C2.  At each place where [GitHubRepository] spreads a caller's
    configuration over its defaults, the resource is declared with a
    configuration in which every key the caller supplies has exactly the
    caller's value, nested objects included, and every other key has the
    default. *)
Theorem GitHubRepository_override_wins
    scope config w w' inst id kind defaults override :
  GitHubRepository scope config w = (w', Ok inst) ->
  (id, kind, defaults, override) ∈ merge_sites scope config ->
  obj_wf (opt_obj override) ->
  exists d,
    d ∈ added w w'
    /\ d_path d = id :: name config :: scope
    /\ d_kind d = kind
    /\ (forall k v, obj_lookup k (opt_obj override) = Some v ->
          obj_lookup k (d_config d) = Some v)
    /\ (forall k, obj_lookup k (opt_obj override) = None ->
          obj_lookup k (d_config d) = obj_lookup k defaults).
Proof.
  intros H Hsite Hwf.
  exists (Decl (id :: name config :: scope) kind
            (spread defaults (opt_obj override))).
  split; [by eapply GitHubRepository_merged|].
  repeat split; simpl; intros k; [intros v|]; intros Hk;
    by rewrite spread_lookup, Hk.
Qed.

Lemma GitHubRepository_override_wins_witness :
  exists d,
    d ∈ added empty_world (GitHubRepository [] acme_repository empty_world).1
    /\ d_path d = ["main-ruleset"; "acme"]
    /\ d_kind d = "RepositoryRuleset"
    /\ (forall k v,
          obj_lookup k [("rules", VObj [("deletion", VBool false)])] = Some v ->
          obj_lookup k (d_config d) = Some v)
    /\ (forall k,
          obj_lookup k [("rules", VObj [("deletion", VBool false)])] = None ->
          obj_lookup k (d_config d)
          = obj_lookup k (main_ruleset_defaults (VRes ["this"; "acme"]))).
Proof.
  apply (GitHubRepository_override_wins [] acme_repository empty_world
           (GitHubRepository [] acme_repository empty_world).1
           (value_of (GitHubRepository [] acme_repository empty_world).2)
           "main-ruleset" "RepositoryRuleset"
           (main_ruleset_defaults (VRes ["this"; "acme"]))
           (Some [("rules", VObj [("deletion", VBool false)])])).
  - vm_compute. reflexivity.
  - unfold merge_sites. simpl. solve_elem.
  - unfold obj_wf. simpl. repeat constructor. by intros ?%elem_of_nil.
Defined.

(** No deep merge: a caller's [rules] replaces the default [rules] as a
    whole, none of the default rules survives next to it. *)
Lemma GitHubRepository_rules_replaced :
  (fun d => obj_lookup "rules" (d_config d))
    <$> find_decl ["main-ruleset"; "acme"]
          (GitHubRepository [] acme_repository empty_world).1
  = Some (Some (VObj [("deletion", VBool false)])).
Proof. vm_compute. reflexivity. Qed.

(** ** The dependency graph *)
Import graph.

Lemma edge_eqb_eq (e f : edge) : edge_eqb e f = true <-> e = f.
Proof.
  destruct e as [a b], f as [c d]. unfold edge_eqb. simpl.
  rewrite andb_true_iff, !path_eqb_eq. split.
  - by intros [-> ->].
  - by intros [= -> ->].
Qed.

Lemma addEdge_edges (from to : path) (b : builder) (e : edge) :
  e ∈ b_edges (addEdge from to b) <-> e ∈ b_edges b \/ e = (from, to).
Proof.
  unfold addEdge. destruct (existsb _ _) eqn:E; simpl.
  - split; [auto|]. intros [H| ->]; [done|].
    apply existsb_exists in E as (f & Hin & Heq).
    apply edge_eqb_eq in Heq as <-. by apply list_elem_of_In.
  - by rewrite elem_of_app, list_elem_of_singleton.
Qed.

Lemma addEdge_resources (from to : path) (b : builder) :
  b_resources (addEdge from to b) = b_resources b.
Proof. unfold addEdge. by destruct (existsb _ _). Qed.

Lemma addEdges_edges (to : path) (ps : list path) (b : builder) (e : edge) :
  e ∈ b_edges (fold_left (fun b p => addEdge p to b) ps b)
  <-> e ∈ b_edges b \/ exists p, p ∈ ps /\ e = (p, to).
Proof.
  revert b. induction ps as [|p ps IH]; intros b; simpl.
  - split; [auto|]. intros [H|(p & Hp & _)]; [done|]. by apply elem_of_nil in Hp.
  - rewrite IH, addEdge_edges. split.
    + intros [[H| ->]|(q & Hq & ->)]; eauto.
      * right. exists p. split; [left|done].
      * right. exists q. split; [by right|done].
    + intros [H|(q & Hq & ->)]; [auto|].
      apply elem_of_cons in Hq as [->|Hq]; eauto.
Qed.

Lemma addResource_edges (d : decl) (b : builder) (e : edge) :
  e ∈ b_edges (addResource d b)
  <-> e ∈ b_edges b \/ exists p, p ∈ producers d /\ e = (p, d_path d).
Proof. unfold addResource. by rewrite addEdges_edges. Qed.

Lemma build_from_edges (ds : list decl) (b : builder) (e : edge) :
  e ∈ b_edges (fold_left (fun b d => addResource d b) ds b)
  <-> e ∈ b_edges b
      \/ exists d p, d ∈ ds /\ p ∈ producers d /\ e = (p, d_path d).
Proof.
  revert b. induction ds as [|d ds IH]; intros b; simpl.
  - split; [auto|]. intros [H|(d & p & Hd & _)]; [done|].
    by apply elem_of_nil in Hd.
  - rewrite IH, addResource_edges. split.
    + intros [[H|(p & Hp & ->)]|(d' & p & Hd & Hp & ->)]; eauto.
      * right. exists d, p. split; [left|done].
      * right. exists d', p. split; [by right|done].
    + intros [H|(d' & p & Hd & Hp & ->)]; [auto|].
      apply elem_of_cons in Hd as [->|Hd]; eauto 6.
Qed.

(** Edge completeness of the builder: an edge for every producer of every
    declaration, and no other edge. *)
Lemma build_edges (ds : list decl) (e : edge) :
  e ∈ b_edges (build ds)
  <-> exists d p, d ∈ ds /\ p ∈ producers d /\ e = (p, d_path d).
Proof.
  unfold build. rewrite build_from_edges. simpl. split.
  - intros [H|H]; [by apply elem_of_nil in H|done].
  - auto.
Qed.

Lemma finalize_inv (b : builder) (g : Graph) :
  finalize b = Ok g ->
  g_resources g = b_resources b /\ g_edges g = b_edges b.
Proof.
  unfold finalize. destruct (fold_left _ _ _); [|discriminate].
  by intros [= <-].
Qed.

Lemma finalized_edge (ds : list decl) (g : Graph) (d : decl) (p q : path) :
  finalize (build ds) = Ok g ->
  d ∈ ds -> d_path d = q -> p ∈ producers d ->
  (p, q) ∈ g_edges g.
Proof.
  intros [_ ->]%finalize_inv Hd <- Hp. apply build_edges. eauto.
Qed.

Lemma topological_before (g : Graph) (order : list path) (p q : path) :
  (p, q) ∈ g_edges g -> topological g order -> before p q order.
Proof. intros He (_ & _ & Ht). apply (Ht _ He). Qed.

Lemma added_elem (w w' : world) (d : decl) : d ∈ added w w' -> d ∈ nodes w'.
Proof. unfold added. intros H. eapply elem_of_suffix; [done|apply suffix_drop]. Qed.

Lemma index_of_lookup (n : path) (l : list path) (i : nat) :
  index_of n l = Some i -> l !! i = Some n.
Proof.
  revert i. induction l as [|m l IH]; intros i; simpl; [done|].
  destruct (path_eqb n m) eqn:E.
  - apply path_eqb_eq in E as ->. by intros [= <-].
  - destruct (index_of n l) as [j|]; simpl; [|done].
    intros [= <-]. simpl. by apply IH.
Qed.

Lemma mem_elem (n : path) (l : list path) : mem n l = true <-> n ∈ l.
Proof.
  unfold mem. rewrite existsb_exists, list_elem_of_In. split.
  - by intros (m & Hin & ->%path_eqb_eq).
  - intros H. exists n. split; [done|apply path_eqb_refl].
Qed.

Lemma nodup_b_sound (l : list path) : nodup_b l = true -> NoDup l.
Proof.
  induction l as [|n l IH]; simpl; [constructor|].
  intros [Hn Hl]%andb_true_iff. constructor; [|auto].
  apply negb_true_iff in Hn. rewrite <- mem_elem. by rewrite Hn.
Qed.

Lemma before_b_sound (a b : path) (order : list path) :
  before_b a b order = true -> before a b order.
Proof.
  unfold before_b.
  destruct (index_of a order) as [i|] eqn:Ea; [|done].
  destruct (index_of b order) as [j|] eqn:Eb; [|done].
  intros H%Nat.ltb_lt. exists i, j. eauto using index_of_lookup.
Qed.

Lemma topological_b_sound (g : Graph) (order : list path) :
  topological_b g order = true -> topological g order.
Proof.
  unfold topological_b.
  intros [[H1 H2]%andb_true_iff H3]%andb_true_iff.
  split; [by apply nodup_b_sound|]. split.
  - intros n Hn. rewrite forallb_forall in H2. apply mem_elem, H2.
    by apply list_elem_of_In.
  - intros e He. rewrite forallb_forall in H3. apply before_b_sound, H3.
    by apply list_elem_of_In.
Qed.

(** ** GcpProject *)
Import gcp_project.

Lemma GcpProject_portable scope config : portable (GcpProject scope config).
Proof. unfold GcpProject. solve_portable. Qed.

Ltac pick_by_path l q k :=
  lazymatch l with
  | ?x :: ?r =>
      first [ (let E := fresh in assert (d_path x = q) as E by reflexivity;
               clear E); k x
            | pick_by_path r q k ]
  end.

(** Claim C3.  In the finalized graph of a world in which a
    [GcpProject] has been composed, every declaration of the project has
    an edge from each producer it references by token or lists in
    [dependsOn], among them the edges from the [Project] to the tfstate
    bucket and from the iam [ProjectService] to the workload identity
    pool; and every topological order puts the producer strictly before
    the consumer. *)
Theorem GcpProject_edges_complete_and_ordered scope config w w' inst g :
  GcpProject scope config w = (w', Ok inst) ->
  finalize (build (nodes w')) = Ok g ->
  let this := projectId config :: scope in
  (forall d p, d ∈ added w w' -> p ∈ producers d ->
     (p, d_path d) ∈ g_edges g
     /\ forall order, topological g order -> before p (d_path d) order)
  /\ ("this" :: this, "tfstate" :: this) ∈ g_edges g
  /\ ("iam" :: this, "github-id-pool" :: this) ∈ g_edges g
  /\ (forall order, topological g order ->
        before ("this" :: this) ("tfstate" :: this) order
        /\ before ("iam" :: this) ("github-id-pool" :: this) order).
Proof.
  intros H Hg this.
  assert (forall d p q, d ∈ added w w' -> d_path d = q -> p ∈ producers d ->
            (p, q) ∈ g_edges g) as Hedge.
  { intros d p q Hd Hq Hp. eapply finalized_edge; eauto using added_elem. }
  assert (("this" :: this, "tfstate" :: this) ∈ g_edges g
          /\ ("iam" :: this, "github-id-pool" :: this) ∈ g_edges g) as [E1 E2].
  { unfold GcpProject in H.
    apply construct_bind_inv in H as (w'' & H & ->); [|solve_portable].
    rewrite added_prepend in Hedge. unfold blank in H.
    vm_compute in H. injection H as <- _. simpl nodes in Hedge.
    split.
    - match type of Hedge with context [ _ ∈ [_] ++ ?l ] =>
        pick_by_path l ("tfstate" :: this)
          ltac:(fun d => apply (Hedge d); [ apply list_elem_of_further; solve_elem | reflexivity | vm_compute; solve_elem ]) end.
    - match type of Hedge with context [ _ ∈ [_] ++ ?l ] =>
        pick_by_path l ("github-id-pool" :: this)
          ltac:(fun d => apply (Hedge d); [ apply list_elem_of_further; solve_elem | reflexivity | vm_compute; solve_elem ]) end. }
  split; [|split; [done|split; [done|]]].
  - intros d p Hd Hp. split; [by eapply Hedge|].
    intros order. apply topological_before. by eapply Hedge.
  - intros order Ho. split; by eapply topological_before.
Qed.

Lemma GcpProject_edges_complete_and_ordered_witness :
  let w' := (GcpProject [] acme_project empty_world).1 in
  let g := acme_project_graph in
  (forall d p, d ∈ added empty_world w' -> p ∈ producers d ->
     (p, d_path d) ∈ g_edges g
     /\ forall order, topological g order -> before p (d_path d) order)
  /\ (["this"; "acme-dev"], ["tfstate"; "acme-dev"]) ∈ g_edges g
  /\ (["iam"; "acme-dev"], ["github-id-pool"; "acme-dev"]) ∈ g_edges g
  /\ (forall order, topological g order ->
        before ["this"; "acme-dev"] ["tfstate"; "acme-dev"] order
        /\ before ["iam"; "acme-dev"] ["github-id-pool"; "acme-dev"] order).
Proof.
  apply (GcpProject_edges_complete_and_ordered [] acme_project empty_world
           (GcpProject [] acme_project empty_world).1
           (value_of (GcpProject [] acme_project empty_world).2)
           acme_project_graph).
  - vm_compute. reflexivity.
  - vm_compute. reflexivity.
Defined.

(** The order [finalize] computes for the project is a creation order, so
    the orders the theorem speaks about exist. *)
Lemma acme_project_order_topological :
  topological acme_project_graph (g_order acme_project_graph).
Proof. apply topological_b_sound. vm_compute. reflexivity. Qed.

Lemma acme_project_order_covers_all :
  length (g_order acme_project_graph)
  = length (nodes (GcpProject [] acme_project empty_world).1).
Proof. vm_compute. reflexivity. Qed.

(** ** How the steps of a constructor treat the shared arrays *)

Lemma register_arrays kind scope id config w w' v :
  register kind scope id config w = (w', Ok v) ->
  v = VRes (id :: scope) /\ arrays w' = arrays w.
Proof. intros (_ & -> & ->)%register_inv_ok. done. Qed.

Lemma construct_arrays cls scope id w w' p :
  construct cls scope id w = (w', Ok p) ->
  p = id :: scope /\ arrays w' = arrays w.
Proof. intros (_ & -> & ->)%construct_inv_ok. done. Qed.

Lemma get_prop_inv v k w w' x :
  get_prop v k w = (w', Ok x) -> x = prop_of v k /\ w' = w.
Proof. destruct v; simpl; unfold ret, throw; intros [= <- <-]; done. Qed.

Lemma get_path_inv v ks w w' x :
  get_path v ks w = (w', Ok x) -> x = fold_left prop_of ks v /\ w' = w.
Proof.
  revert v. induction ks as [|k ks IH]; intros v; simpl.
  - by intros [= <- <-].
  - intros (w1 & a & [-> ->]%get_prop_inv & H)%bind_inv_ok. by apply IH.
Qed.

Lemma split_index_inv v c i w w' x :
  split_index v c i w = (w', Ok x) -> w' = w.
Proof. destruct v; simpl; unfold ret, throw; intros [= <-]; done. Qed.

Lemma push_arrays l x w w' u :
  push l x w = (w', Ok u) ->
  arrays w' = alter (fun a => a ++ [x]) l (arrays w).
Proof. by intros [= <-]. Qed.

Lemma pushed (l : nat) (x : value) (arrs : list (list value)) (cur : list value) :
  arrs !! l = Some cur ->
  alter (fun a => a ++ [x]) l arrs !! l = Some (cur ++ [x]).
Proof. intros H. by rewrite list_lookup_alter_eq, H. Qed.

(** ** CurioStackService *)
Import curiostack_service.

Lemma secrets_loop (this : path) (l : nat) (member : value)
    (secrets : list (string * SecretVersion)) :
  forall (vars vars' : list value) (w w' : world) (cur : list value),
  foldM (fun vars ns =>
           let vars := vars ++ [env_secret ns.1 ns.2] in
           secretIam <-
             register "SecretManagerSecretIamMember" this
               ("secret-accessor-" +:+ ns.1)
               [("secretId", secret ns.2);
                ("role", VStr "roles/secretmanager.secretAccessor");
                ("member", member)] ;;
           push l secretIam ;;;
           ret vars)
    secrets vars w = (w', Ok vars') ->
  arrays w !! l = Some cur ->
  arrays w' !! l = Some (cur ++ map (secret_member this) secrets).
Proof.
  induction secrets as [|ns secrets IH]; intros vars vars' w w' cur; simpl.
  - intros [= <- _] Hl. by rewrite app_nil_r.
  - intros (w1 & a & H1 & H)%bind_inv_ok Hl.
    apply bind_inv_ok in H1 as (w2 & v & [-> Ha]%register_arrays & H1).
    apply bind_inv_ok in H1 as (w3 & u & Hp%push_arrays & H1).
    injection H1 as <- <-.
    rewrite (IH _ _ _ _ (cur ++ [secret_member this ns]) H).
    + by rewrite <- app_assoc.
    + rewrite Hp, Ha. by apply pushed.
Qed.

(** Claim C9.  Where the caller passes a [dependsOn] array, a
    [CurioStackService] that has been constructed has pushed to that very
    array: it holds its former entries followed by the stack's
    [runService], one [SecretManagerSecretIamMember] per entry of
    [envSecrets], and the otel-bucket [StorageBucketIamMember]; it is not
    what it was. *)
Theorem CurioStackService_mutates_dependsOn
    scope config w w' inst (l : nat) (arr : list value) :
  dependsOn config = Some l ->
  arrays w !! l = Some arr ->
  CurioStackService scope config w = (w', Ok inst) ->
  let this := name config :: scope in
  arrays w' !! l
  = Some (arr
          ++ [prop_of (curiostack config) "runService"]
          ++ map (secret_member this) (default [] (envSecrets config))
          ++ [VRes ("otel-bucket-reader" :: this)])
  /\ arrays w' !! l <> Some arr.
Proof.
  intros Hdeps Harr H this.
  assert (arrays w' !! l
          = Some (arr
                  ++ [prop_of (curiostack config) "runService"]
                  ++ map (secret_member this) (default [] (envSecrets config))
                  ++ [VRes ("otel-bucket-reader" :: this)])) as Hres.
  2:{ split; [done|]. rewrite Hres. intros [= E].
      apply (f_equal length) in E. rewrite !length_app in E. simpl in E. lia. }
  unfold CurioStackService in H. rewrite Hdeps in H.
  apply bind_inv_ok in H as (w0 & p & [-> A0]%construct_arrays & H).
  repeat (apply bind_inv_ok in H as (? & ? & [-> ->]%get_prop_inv & H)).
  apply bind_inv_ok in H as (w1 & ? & [-> A1]%register_arrays & H).
  repeat (apply bind_inv_ok in H as (? & ? & [-> ->]%get_prop_inv & H)).
  apply bind_inv_ok in H as (w2 & ? & [-> A2]%register_arrays & H).
  apply bind_inv_ok in H as (w3 & ? & [-> A3]%register_arrays & H).
  apply bind_inv_ok in H as (w4 & ? & [-> A4]%register_arrays & H).
  repeat (apply bind_inv_ok in H as (? & ? & [-> ->]%get_prop_inv & H)).
  apply bind_inv_ok in H as (w5 & ? & [-> A5]%register_arrays & H).
  apply bind_inv_ok in H as (? & ? & [= <- <-] & H).
  repeat (apply bind_inv_ok in H as (? & ? & [-> ->]%get_prop_inv & H)).
  apply bind_inv_ok in H as (w6 & ? & A6%push_arrays & H).
  apply bind_inv_ok in H as (w7 & configEnv & Henv & H).
  assert (w7 = w6) as ->.
  { destruct (environment config); [by injection Henv|].
    by apply split_index_inv in Henv. }
  apply bind_inv_ok in H as (w8 & vars & Hloop & H).
  apply bind_inv_ok in H as (? & ? & [-> ->]%get_path_inv & H).
  apply bind_inv_ok in H as (w9 & ? & [-> A9]%register_arrays & H).
  apply bind_inv_ok in H as (w10 & ? & A10%push_arrays & H).
  repeat (apply bind_inv_ok in H as (? & ? & [-> ->]%get_prop_inv & H)).
  apply bind_inv_ok in H as (? & ? & [-> ->]%get_path_inv & H).
  apply bind_inv_ok in H as (? & deps & [= <- <-] & H).
  apply bind_inv_ok in H as (w11 & ? & [-> A11]%register_arrays & H).
  apply bind_inv_ok in H as (w12 & ? & Hpublic & H).
  injection H as <- _.
  assert (arrays w12 = arrays w11) as ->.
  { destruct (default false (public config)); [|by injection Hpublic as <-].
    apply bind_inv_ok in Hpublic as (? & ? & [_ E]%register_arrays & Hr).
    by injection Hr as <-. }
  rewrite A11, A10, A9.
  eapply (secrets_loop _ _ _ _ _ _ _ _ (arr ++ [_])) in Hloop.
  2:{ rewrite A6, A5, A4, A3, A2, A1, A0. by apply pushed. }
  erewrite pushed; [|exact Hloop].
  by rewrite <- !app_assoc.
Qed.

Lemma CurioStackService_mutates_dependsOn_witness :
  let w' :=
    (CurioStackService [] (api_service (serviced acme_stack) (Some 0%nat))
       acme_world).1 in
  arrays w' !! 0%nat
  = Some ([database]
          ++ [VRes ["service-run"; "apps"; "curiostack"]]
          ++ map (secret_member ["api"])
               [("DB_PASSWORD",
                 {| secret := VTok ["db-password"] "secretId";
                    version := VStr "latest" |})]
          ++ [VRes ["otel-bucket-reader"; "api"]])
  /\ arrays w' !! 0%nat <> Some [database].
Proof.
  apply (CurioStackService_mutates_dependsOn []
           (api_service (serviced acme_stack) (Some 0%nat)) acme_world
           (CurioStackService [] (api_service (serviced acme_stack) (Some 0%nat))
              acme_world).1
           (value_of
              (CurioStackService []
                 (api_service (serviced acme_stack) (Some 0%nat))
                 acme_world).2)
           0%nat [database]).
  - reflexivity.
  - reflexivity.
  - vm_compute. reflexivity.
Defined.

(** With the instance the constructor of [index.ts] returns, which has no
    [otelBucket], construction stops at [config.curiostack.otelBucket.name];
    the caller's array has been pushed to all the same. *)
Lemma CurioStackService_on_index_stack :
  let r :=
    CurioStackService [] (api_service acme_stack (Some 0%nat)) acme_world in
  r.2 = Throw (TypeError "Cannot read properties of undefined (reading 'name')")
  /\ arrays r.1 !! 0%nat
     = Some [database; VRes ["service-run"; "apps"; "curiostack"];
             VRes ["secret-accessor-DB_PASSWORD"; "api"]].
Proof. vm_compute. split; reflexivity. Qed.

(** ** Bootstrap *)
Import bootstrap.

Lemma Bootstrap_local dirname scope config :
  local (under (name config :: scope)) (Bootstrap dirname scope config).
Proof.
  unfold Bootstrap, gcp_project.GcpProject, github_repository.GitHubRepository.
  solve_local.
Qed.

Lemma Bootstrap_array_free dirname scope config :
  array_free (Bootstrap dirname scope config).
Proof.
  unfold Bootstrap, gcp_project.GcpProject, github_repository.GitHubRepository.
  solve_array_free.
Qed.

Lemma Bootstrap_ci_local dirname scope config :
  local (under (name config :: scope))
    (bootstrap_ci.Bootstrap dirname scope config).
Proof.
  unfold bootstrap_ci.Bootstrap, gcp_project.GcpProject,
    github_repository.GitHubRepository.
  solve_local.
Qed.

Lemma Bootstrap_ci_array_free dirname scope config :
  array_free (bootstrap_ci.Bootstrap dirname scope config).
Proof.
  unfold bootstrap_ci.Bootstrap, gcp_project.GcpProject,
    github_repository.GitHubRepository.
  solve_array_free.
Qed.

(** Two passes of a local computation, started in worlds that both have
    its region free, add the same declarations and end the same way. *)
Lemma local_deterministic (P : path -> Prop) {A} (m : M A) (w1 w2 : world) :
  local P m -> array_free m ->
  Forall (fun d => ~ P (d_path d)) (nodes w1) ->
  Forall (fun d => ~ P (d_path d)) (nodes w2) ->
  added w1 (m w1).1 = added w2 (m w2).1 /\ (m w1).2 = (m w2).2.
Proof.
  intros Hl Ha H1 H2.
  rewrite (frame P m w1 Hl Ha H1), (frame P m w2 Hl Ha H2). simpl.
  by rewrite !added_app.
Qed.

(** Claim C4.  Composing [Bootstrap] with the same configuration twice,
    in any two worlds that have its scope free, adds the same
    declarations, ends with the same result and yields the same
    dependency graph; this holds for both revisions of the construct,
    the one that declares a random branch suffix included. *)
Theorem Bootstrap_deterministic dirname scope config w1 w2 :
  vacant (name config :: scope) w1 ->
  vacant (name config :: scope) w2 ->
  (let r1 := Bootstrap dirname scope config w1 in
   let r2 := Bootstrap dirname scope config w2 in
   added w1 r1.1 = added w2 r2.1
   /\ r1.2 = r2.2
   /\ graph.build (added w1 r1.1) = graph.build (added w2 r2.1))
  /\
  (let r1 := bootstrap_ci.Bootstrap dirname scope config w1 in
   let r2 := bootstrap_ci.Bootstrap dirname scope config w2 in
   added w1 r1.1 = added w2 r2.1
   /\ r1.2 = r2.2
   /\ graph.build (added w1 r1.1) = graph.build (added w2 r2.1)).
Proof.
  intros H1 H2. split; simpl.
  - destruct (local_deterministic _ _ w1 w2
                (Bootstrap_local dirname scope config)
                (Bootstrap_array_free dirname scope config) H1 H2) as [E1 E2].
    by rewrite E1, E2.
  - destruct (local_deterministic _ _ w1 w2
                (Bootstrap_ci_local dirname scope config)
                (Bootstrap_ci_array_free dirname scope config) H1 H2)
      as [E1 E2].
    by rewrite E1, E2.
Qed.

Lemma vacant_other (n : string) : n <> "other" -> vacant [n] other_world.
Proof.
  intros Hn. constructor; [|constructor]. simpl.
  intros [[= ->]| ?%suffix_nil_inv]%suffix_cons_inv; [done|discriminate].
Qed.

Lemma Bootstrap_deterministic_witness :
  (let r1 := Bootstrap "/srv/app" [] (acme_bootstrap "acme") empty_world in
   let r2 := Bootstrap "/srv/app" [] (acme_bootstrap "acme") other_world in
   added empty_world r1.1 = added other_world r2.1
   /\ r1.2 = r2.2
   /\ graph.build (added empty_world r1.1)
      = graph.build (added other_world r2.1))
  /\
  (let r1 :=
     bootstrap_ci.Bootstrap "/srv/app" [] (acme_bootstrap "acme") empty_world in
   let r2 :=
     bootstrap_ci.Bootstrap "/srv/app" [] (acme_bootstrap "acme") other_world in
   added empty_world r1.1 = added other_world r2.1
   /\ r1.2 = r2.2
   /\ graph.build (added empty_world r1.1)
      = graph.build (added other_world r2.1)).
Proof.
  apply (Bootstrap_deterministic "/srv/app" [] (acme_bootstrap "acme")
           empty_world other_world).
  - apply vacant_empty.
  - apply vacant_other. discriminate.
Defined.

(** ** What Bootstrap declares *)

Import gcp_project github_repository.

Lemma GcpProject_inv scope config w w' v :
  GcpProject scope config w = (w', Ok v) ->
  w' = World (nodes w ++ declared (GcpProject scope config)) (arrays w).
Proof.
  intros H. eapply portable_run in H as [H _];
    eauto using GcpProject_portable, GcpProject_array_free.
Qed.

Lemma GitHubRepository_inv scope config w w' v :
  GitHubRepository scope config w = (w', Ok v) ->
  w' = World (nodes w ++ declared (GitHubRepository scope config)) (arrays w).
Proof.
  intros H. eapply portable_run in H as [H _];
    eauto using GitHubRepository_portable, GitHubRepository_array_free.
Qed.

Ltac peel_declared :=
  unfold declared;
  rewrite construct_frame; [|apply vacant_empty|solve_local];
  unfold blank, empty_world; simpl arrays.

Lemma GcpProject_declared_kinds scope config :
  let ds := declared (GcpProject scope config) in
  List.filter (has_kind "GcpProject") ds
  = [Decl (projectId config :: scope) "GcpProject" []]
  /\ List.filter (has_kind "GitHubRepository") ds = []
  /\ List.filter (has_kind "Team") ds = [].
Proof.
  unfold GcpProject. peel_declared. vm_compute. done.
Qed.

Lemma GitHubRepository_declared_kinds scope config :
  let ds := declared (GitHubRepository scope config) in
  List.filter (has_kind "GcpProject") ds = []
  /\ List.filter (has_kind "GitHubRepository") ds
     = [Decl (github_repository.name config :: scope) "GitHubRepository" []]
  /\ List.filter (has_kind "Team") ds = [].
Proof.
  unfold GitHubRepository. peel_declared.
  destruct (from_option truthy false (adminTeam config)); vm_compute; done.
Qed.

Import bootstrap.

Lemma register_nodes kind scope id config w w' v :
  register kind scope id config w = (w', Ok v) ->
  v = VRes (id :: scope)
  /\ nodes w' = nodes w ++ [Decl (id :: scope) kind config].
Proof. intros (_ & -> & ->)%register_inv_ok. done. Qed.

Lemma GcpProject_nodes scope config w w' v :
  gcp_project.GcpProject scope config w = (w', Ok v) ->
  nodes w' = nodes w ++ declared (gcp_project.GcpProject scope config).
Proof. by intros ->%GcpProject_inv. Qed.

Lemma GitHubRepository_nodes scope config w w' v :
  github_repository.GitHubRepository scope config w = (w', Ok v) ->
  nodes w'
  = nodes w ++ declared (github_repository.GitHubRepository scope config).
Proof. by intros ->%GitHubRepository_inv. Qed.

Ltac invert_reads H :=
  repeat first
    [ apply bind_inv_ok in H as (? & ? & [-> ->]%get_path_inv & H)
    | apply bind_inv_ok in H as (? & ? & [-> ->]%get_prop_inv & H) ].

Ltac invert_register H E :=
  apply bind_inv_ok in H as (? & ? & [-> E]%register_nodes & H).

(** The declarations of a successful [Bootstrap], block by block. *)
Lemma Bootstrap_blocks dirname scope config w w' inst :
  Bootstrap dirname scope config w = (w', Ok inst) ->
  let this := name config :: scope in
  let admins := VTok ("github-admins" :: this) "id" in
  exists rest,
    added w w'
    = Decl this "Bootstrap" []
      :: declared (gcp_project.GcpProject this
                     (project_config config "sysadmin" "prod"))
      ++ declared (gcp_project.GcpProject this
                     (project_config config "dev" "dev"))
      ++ declared (gcp_project.GcpProject this
                     (project_config config "prod" "prod"))
      ++ team_decl this (name config)
      :: declared (github_repository.GitHubRepository this
                     (repository_config (name config) admins
                        (appRepositoryConfig config) None))
      ++ declared (github_repository.GitHubRepository this
                     (repository_config (name config +:+ "-infra") admins
                        (infraRepositoryConfig config)
                        (Some [("reviewers",
                                 VArr [VObj [("teams",
                                               VArr [VCall "Fn.tonumber"
                                                       [admins]])]])])))
      ++ rest
    /\ Forall trailing_kind rest.
Proof.
  intros H this admins. unfold Bootstrap in H.
  apply bind_inv_ok in H as (w0 & p & (_ & E0 & ->)%construct_inv_ok & H).
  apply (f_equal nodes) in E0. simpl in E0.
  apply bind_inv_ok in H as (w1 & sysadminProject & E1%GcpProject_nodes & H).
  apply bind_inv_ok in H as (w2 & devProject & E2%GcpProject_nodes & H).
  apply bind_inv_ok in H as (w3 & prodProject & E3%GcpProject_nodes & H).
  apply bind_inv_ok in H as (w4 & ? & [-> E4]%register_nodes & H).
  apply bind_inv_ok in H as (w5 & apprepo & E5%GitHubRepository_nodes & H).
  apply bind_inv_ok in H as (w6 & infraRepo & E6%GitHubRepository_nodes & H).
  apply bind_inv_ok in H as (w7 & ? & Hwf & H).
  apply bind_inv_ok in H as (w8 & ? & Hdns & H).
  injection H as <- _.
  assert (exists r1, nodes w7 = nodes w6 ++ r1 /\ Forall trailing_kind r1)
    as (r1 & E7 & F1).
  { destruct (negb _).
    - invert_reads Hwf. invert_register Hwf Ea.
      invert_reads Hwf. invert_register Hwf Eb.
      injection Hwf as <- _. eexists [_; _]. split.
      + rewrite Eb, Ea, <- app_assoc. reflexivity.
      + unfold trailing_kind. repeat constructor.
    - injection Hwf as <- _. exists []. split; [|constructor].
      by rewrite app_nil_r. }
  assert (exists r2, nodes w8 = nodes w7 ++ r2 /\ Forall trailing_kind r2)
    as (r2 & E8 & F2).
  { destruct (truthy_str _).
    - invert_reads Hdns. invert_register Hdns Ea.
      invert_reads Hdns. invert_register Hdns Eb.
      invert_reads Hdns. invert_register Hdns Ec.
      injection Hdns as <- _. eexists [_; _; _]. split.
      + rewrite Ec, Eb, Ea, <- !app_assoc. reflexivity.
      + unfold trailing_kind. repeat constructor.
    - injection Hdns as <- _. exists []. split; [|constructor].
      by rewrite app_nil_r. }
  exists (r1 ++ r2). split; [|by apply Forall_app].
  unfold added. rewrite E8, E7, E6, E5, E4, E3, E2, E1, E0.
  rewrite <- !app_assoc. rewrite drop_app_length. simpl.
  rewrite <- ?app_assoc. reflexivity.
Qed.

Lemma filter_trailing (k : string) (rest : list decl) :
  k ∉ ["RepositoryFile"; "DnsManagedZone"; "DnsRecordSet"] ->
  Forall trailing_kind rest ->
  List.filter (has_kind k) rest = [].
Proof.
  intros Hk. induction 1 as [|d rest Hd _ IH]; simpl; [done|].
  unfold has_kind at 1. destruct (String.eqb (d_kind d) k) eqn:E; [|done].
  apply String.eqb_eq in E. unfold trailing_kind in Hd. by rewrite E in Hd.
Qed.

Import gcp_project.

(** What identifies a project among its declarations: the project id on
    the [Project] resource, and the infrastructure repository and its
    environment in the principal that may act as Terraform admin. *)
Lemma GcpProject_identity scope config :
  let this := projectId config :: scope in
  Decl ("this" :: this) "Project"
    [("projectId", VStr (projectId config));
     ("name", VStr (default (projectId config) (displayName config)));
     ("orgId", VStr (organizationId config));
     ("billingAccount", VStr (billingAccountId config));
     ("labels", VObj [("firebase", VStr "enabled")]);
     ("dependsOn", from_option VArr VUndef (dependsOn config))]
    ∈ declared (GcpProject scope config)
  /\ Decl ("terraform-admin-github-actions" :: this) "ServiceAccountIamMember"
       [("serviceAccountId", VTok ("terraform-admin" :: this) "name");
        ("role", VStr "roles/iam.serviceAccountTokenCreator");
        ("member",
          VTemplate [VStr "principal://iam.googleapis.com/";
                     VTok ("github-id-pool" :: this) "name";
                     VStr "/subject/repo:"; VStr (githubInfraRepo config);
                     VStr ":environment:"; VStr (githubEnvironment config)])]
       ∈ declared (GcpProject scope config).
Proof.
  unfold GcpProject. peel_declared. split; vm_compute; solve_elem.
Qed.

Local Opaque declared gcp_project.GcpProject github_repository.GitHubRepository.

Ltac in_blocks :=
  rewrite elem_of_cons, !elem_of_app;
  multimatch goal with
  | H : _ ∈ _ |- _ =>
      first [ right; left; exact H
            | right; right; left; exact H
            | right; right; right; left; exact H ]
  end.

(** Whatever completes, completes with these identifiers. *)
Lemma Bootstrap_declared_identifiers dirname scope config w w' inst :
  Bootstrap dirname scope config w = (w', Ok inst) ->
  let this := name config :: scope in
  let infra := githubOrg config +:+ "/" +:+ name config +:+ "-infra" in
  map d_path (List.filter (has_kind "GcpProject") (added w w'))
  = map (fun pe => pe.1 :: this) (project_ids config)
  /\ (forall pid env, (pid, env) ∈ project_ids config ->
        exists project admin,
          project ∈ added w w'
          /\ d_path project = "this" :: pid :: this
          /\ d_kind project = "Project"
          /\ obj_lookup "projectId" (d_config project) = Some (VStr pid)
          /\ admin ∈ added w w'
          /\ d_path admin = "terraform-admin-github-actions" :: pid :: this
          /\ obj_lookup "member" (d_config admin)
             = Some (VTemplate
                       [VStr "principal://iam.googleapis.com/";
                        VTok ("github-id-pool" :: pid :: this) "name";
                        VStr "/subject/repo:"; VStr infra;
                        VStr ":environment:"; VStr env]))
  /\ map d_path (List.filter (has_kind "GitHubRepository") (added w w'))
     = [name config :: this; (name config +:+ "-infra") :: this]
  /\ List.filter (has_kind "Team") (added w w')
     = [team_decl this (name config)].
Proof.
  intros H this infra.
  destruct (Bootstrap_blocks _ _ _ _ _ _ H) as (rest & E & Hrest).
  fold this in E. rewrite E. clear E H.
  destruct (GcpProject_declared_kinds this
              (project_config config "sysadmin" "prod")) as (Ks1 & Ks2 & Ks3).
  destruct (GcpProject_declared_kinds this
              (project_config config "dev" "dev")) as (Kd1 & Kd2 & Kd3).
  destruct (GcpProject_declared_kinds this
              (project_config config "prod" "prod")) as (Kp1 & Kp2 & Kp3).
  destruct (GitHubRepository_declared_kinds this
              (repository_config (name config)
                 (VTok ("github-admins" :: this) "id")
                 (appRepositoryConfig config) None)) as (Ka1 & Ka2 & Ka3).
  destruct (GitHubRepository_declared_kinds this
              (repository_config (name config +:+ "-infra")
                 (VTok ("github-admins" :: this) "id")
                 (infraRepositoryConfig config)
                 (Some [("reviewers",
                          VArr [VObj [("teams",
                                        VArr [VCall "Fn.tonumber"
                                                [VTok ("github-admins" :: this)
                                                   "id"]])]])])))
    as (Ki1 & Ki2 & Ki3).
  destruct (GcpProject_identity this (project_config config "sysadmin" "prod"))
    as [Is1 Is2].
  destruct (GcpProject_identity this (project_config config "dev" "dev"))
    as [Id1 Id2].
  destruct (GcpProject_identity this (project_config config "prod" "prod"))
    as [Ip1 Ip2].
  simpl projectId in *. simpl github_repository.name in *.
  simpl githubInfraRepo in *. simpl gcp_project.githubEnvironment in *.
  simpl displayName in *. simpl organizationId in *.
  simpl billingAccountId in *. simpl dependsOn in *.
  remember (declared (GcpProject this
                        (project_config config "sysadmin" "prod")))
    as D1 eqn:HD1 in *. clear HD1.
  remember (declared (GcpProject this (project_config config "dev" "dev")))
    as D2 eqn:HD2 in *. clear HD2.
  remember (declared (GcpProject this (project_config config "prod" "prod")))
    as D3 eqn:HD3 in *. clear HD3.
  remember (declared (github_repository.GitHubRepository this
                        (repository_config (name config)
                           (VTok ("github-admins" :: this) "id")
                           (appRepositoryConfig config) None)))
    as D4 eqn:HD4 in *. clear HD4.
  remember (declared (github_repository.GitHubRepository this
                        (repository_config (name config +:+ "-infra")
                           (VTok ("github-admins" :: this) "id")
                           (infraRepositoryConfig config)
                           (Some [("reviewers",
                                    VArr [VObj [("teams",
                                                  VArr [VCall "Fn.tonumber"
                                                          [VTok ("github-admins"
                                                                   :: this)
                                                             "id"]])]])]))))
    as D5 eqn:HD5 in *. clear HD5.
  assert (forall k, k ∈ ["GcpProject"; "GitHubRepository"; "Team"] ->
            List.filter (has_kind k) rest = []) as Kr.
  { intros k Hk. apply filter_trailing; [|done].
    intros Hk'. repeat (apply elem_of_cons in Hk as [->|Hk];
      [repeat (apply elem_of_cons in Hk' as [[=]|Hk']);
       by apply elem_of_nil in Hk'|]).
    by apply elem_of_nil in Hk. }
  split; [|split; [|split]].
  - simpl. rewrite !List.filter_app. simpl. rewrite !List.filter_app.
    rewrite Ks1, Kd1, Kp1, Ka1, Ki1, Kr by solve_elem.
    reflexivity.
  - intros pid env Hin. unfold project_ids in Hin.
    repeat (apply elem_of_cons in Hin as [[= -> ->]|Hin]);
      [..|by apply elem_of_nil in Hin];
      eexists _, _;
      (split; [in_blocks|]);
      (split; [reflexivity|]); (split; [reflexivity|]);
      (split; [reflexivity|]);
      (split; [in_blocks|]);
      (split; reflexivity).
  - simpl. rewrite !List.filter_app. simpl. rewrite !List.filter_app.
    rewrite Ks2, Kd2, Kp2, Ka2, Ki2, Kr by solve_elem.
    reflexivity.
  - simpl. rewrite !List.filter_app. simpl. rewrite !List.filter_app.
    rewrite Ks3, Kd3, Kp3, Ka3, Ki3, Kr by solve_elem.
    reflexivity.
Qed.

Local Transparent declared gcp_project.GcpProject github_repository.GitHubRepository.

(** Claim C7 does not hold as stated: for a project named like one of
    the construct's own children, composition stops at the duplicate id
    and declares no [GitHubRepository] at all. *)
Lemma Bootstrap_reserved_name_counterexample :
  let r :=
    Bootstrap "/srv/app" [] (acme_bootstrap "github-admins") empty_world in
  r.2 = Throw (DuplicateIdentifierError ["github-admins"] "github-admins")
  /\ List.filter (has_kind "GitHubRepository") (nodes r.1) = [].
Proof. vm_compute. split; reflexivity. Qed.

(** ** Telling identifiers apart *)

Lemma append_inj_l (n a b : string) : n +:+ a = n +:+ b -> a = b.
Proof. induction n as [|c n IH]; simpl; [done|]. intros [= H]. auto. Qed.

Lemma length_append (a b : string) :
  String.length (a +:+ b) = (String.length a + String.length b)%nat.
Proof. induction a as [|c a IH]; simpl; [done|]. by rewrite IH. Qed.

Lemma append_neq_self (n s : string) : s <> "" -> n +:+ s <> n.
Proof.
  intros Hs E. apply (f_equal String.length) in E. rewrite length_append in E.
  destruct s; [done|]. simpl in E. lia.
Qed.

Lemma substring_append (n s : string) :
  substring 0 (String.length n) (n +:+ s) = n.
Proof.
  induction n as [|c n IH]; simpl.
  - by destruct s.
  - by rewrite IH.
Qed.

(** If [n ++ s] is the string [c], then [n] is what is left of [c] once
    the length of [s] is taken off its end. *)
Lemma append_eq_inv (n s c : string) :
  n +:+ s = c ->
  c = substring 0 (String.length c - String.length s) c +:+ s.
Proof.
  intros <-. rewrite length_append.
  replace (String.length n + String.length s - String.length s)%nat
    with (String.length n) by lia.
  by rewrite substring_append.
Qed.

Ltac distinct_ids :=
  let E := fresh in
  intros E; cbn in E;
  first
    [ discriminate E
    | by apply append_inj_l in E
    | by (apply append_neq_self in E)
    | by (symmetry in E; apply append_neq_self in E)
    | apply append_eq_inv in E; vm_compute in E; discriminate E
    | symmetry in E; apply append_eq_inv in E; vm_compute in E; discriminate E
    | congruence ].

(** ** Siblings under one scope *)

Lemma rooted_vacant p0 used w x :
  rooted p0 used w -> x ∉ used -> vacant (x :: p0) w.
Proof.
  intros Hr Hx. eapply Forall_impl; [exact Hr|]. simpl.
  intros d (r & Hin & Hu). eapply siblings_disjoint; [| |exact Hu].
  - done.
  - intros [= ->]. done.
Qed.

Lemma rooted_fresh p0 used w x :
  rooted p0 used w -> x ∉ used -> has_path (x :: p0) w = false.
Proof.
  intros Hr Hx. apply has_path_false.
  eapply Forall_impl; [exact (rooted_vacant _ _ _ _ Hr Hx)|]. simpl.
  intros d Hd E. apply Hd. rewrite E. apply under_refl.
Qed.

Lemma rooted_empty p0 a : rooted p0 [] (World [] a).
Proof. constructor. Qed.

Lemma rooted_mono p0 used used' w :
  used ⊆ used' -> rooted p0 used w -> rooted p0 used' w.
Proof.
  intros Hs Hr. eapply Forall_impl; [exact Hr|]. simpl.
  intros d (r & Hin & Hu). eauto.
Qed.

(** A construct composed under a free id: the pass behaves as in the empty
    world, and its declarations form a new subtree. *)
Lemma step_construct {B} (m : M value) (k : value -> M B) x p0 used w :
  local (under (x :: p0)) m -> array_free m -> grows (under (x :: p0)) m ->
  rooted p0 used w -> x ∉ used ->
  exists w1,
    bind m k w
    = match outcome m with
      | Ok v => k v w1
      | Throw e => (w1, Throw e)
      end
    /\ rooted p0 (x :: used) w1.
Proof.
  intros Hl Ha Hg Hr Hx.
  exists (World (nodes w ++ declared m) (arrays w)). split.
  - unfold bind. rewrite (frame _ m w Hl Ha (rooted_vacant _ _ _ _ Hr Hx)).
    by destruct (outcome m).
  - unfold rooted. simpl. apply Forall_app. split.
    + eapply rooted_mono; [|exact Hr]. intros r Hin. by right.
    + destruct (Hg empty_world) as (l & E & F). unfold declared.
      rewrite E. simpl. eapply Forall_impl; [exact F|]. simpl.
      intros d Hd. exists x. split; [left|done].
Qed.

Lemma step_register {B} kind x config (k : value -> M B) p0 used w :
  rooted p0 used w -> x ∉ used ->
  exists w1,
    bind (register kind p0 x config) k w = k (VRes (x :: p0)) w1
    /\ rooted p0 (x :: used) w1.
Proof.
  intros Hr Hx. eexists. split.
  - unfold bind. rewrite register_vacant by by eapply rooted_fresh. done.
  - unfold rooted, add_node. simpl. apply Forall_app. split.
    + eapply rooted_mono; [|exact Hr]. intros r Hin. by right.
    + constructor; [|constructor]. simpl. exists x. split; [left|].
      apply under_refl.
Qed.

(** ** The constructs succeed where their id is free *)

Import gcp_project.

Lemma GcpProject_outcome scope config :
  outcome (GcpProject scope config) = Ok (GcpProject_instance scope config).
Proof.
  unfold outcome, GcpProject.
  rewrite construct_frame; [|apply vacant_empty|solve_local].
  unfold blank, empty_world. simpl arrays. vm_compute. reflexivity.
Qed.

Lemma GcpProject_succeeds scope config w :
  vacant (projectId config :: scope) w ->
  GcpProject scope config w
  = (World (nodes w ++ declared (GcpProject scope config)) (arrays w),
     Ok (GcpProject_instance scope config)).
Proof.
  intros Hv.
  rewrite (frame _ _ w (GcpProject_local scope config)
             (GcpProject_array_free scope config) Hv).
  by rewrite GcpProject_outcome.
Qed.

Import github_repository.

Lemma GitHubRepository_outcome scope config :
  outcome (GitHubRepository scope config)
  = Ok (instance (name config :: scope)
          [("repository", VRes ("this" :: name config :: scope))]).
Proof.
  unfold outcome, GitHubRepository.
  rewrite construct_frame; [|apply vacant_empty|solve_local].
  unfold blank, empty_world. simpl arrays.
  destruct (from_option truthy false (adminTeam config));
    vm_compute; reflexivity.
Qed.

Lemma GitHubRepository_succeeds scope config w :
  vacant (name config :: scope) w ->
  GitHubRepository scope config w
  = (World (nodes w ++ declared (GitHubRepository scope config)) (arrays w),
     Ok (instance (name config :: scope)
           [("repository", VRes ("this" :: name config :: scope))])).
Proof.
  intros Hv.
  rewrite (frame _ _ w (GitHubRepository_local scope config)
             (GitHubRepository_array_free scope config) Hv).
  by rewrite GitHubRepository_outcome.
Qed.

Import curiostack.

Lemma CurioStack_succeeds scope config w :
  vacant ("curiostack" :: scope) w ->
  ~ environment_missing config ->
  exists w' stack, CurioStack scope config w = (w', Ok stack).
Proof.
  intros Hv Hm.
  rewrite (frame _ _ w (CurioStack_local scope config)
             (CurioStack_array_free scope config) Hv).
  unfold outcome, CurioStack, Apps.
  assert (negb (truthy_str (githubEnvironment config))
          && negb (includes "-" (project config)) = false) as ->.
  { unfold environment_missing in Hm.
    destruct (truthy_str _), (includes _ _); try done. by destruct Hm. }
  vm_compute. eauto.
Qed.

Lemma get_prop_pure v k w :
  get_prop v k w = (w, (get_prop v k empty_world).2).
Proof. by destruct v. Qed.

Lemma get_path_pure v ks w :
  get_path v ks w = (w, (get_path v ks empty_world).2).
Proof.
  revert v. induction ks as [|k ks IH]; intros v; simpl; [done|].
  destruct v; simpl; unfold bind, ret, throw; simpl; try done; apply IH.
Qed.

Lemma bind_get_path {B} v ks (k : value -> M B) w x :
  (get_path v ks empty_world).2 = Ok x -> bind (get_path v ks) k w = k x w.
Proof. intros H. unfold bind. by rewrite get_path_pure, H. Qed.

Lemma bind_get_prop {B} v p (k : value -> M B) w x :
  (get_prop v p empty_world).2 = Ok x -> bind (get_prop v p) k w = k x w.
Proof. intros H. unfold bind. by rewrite get_prop_pure, H. Qed.

Lemma bind_assoc {A B C} (m : M A) (f : A -> M B) (g : B -> M C) w :
  bind (bind m f) g w = bind m (fun x => bind (f x) g) w.
Proof. unfold bind. by destruct (m w) as [w1 [a|e]]. Qed.

Lemma bind_ret {A B} (a : A) (k : A -> M B) w : bind (ret a) k w = k a w.
Proof. done. Qed.

Import bootstrap.

Ltac not_used :=
  repeat (apply not_elem_of_cons; split; [distinct_ids|]);
  apply not_elem_of_nil.

Ltac project_step :=
  match goal with
  | R : rooted _ _ ?w
    |- context [ bind (gcp_project.GcpProject ?p ?c) ?k ?w ] =>
      let E := fresh "E" in
      let w' := fresh "w" in
      let R' := fresh "R" in
      destruct (step_construct (gcp_project.GcpProject p c) k
                  (gcp_project.projectId c) p _ w
                  (GcpProject_local p c) (GcpProject_array_free p c)
                  (GcpProject_grows p c) R) as (w' & E & R');
      [ simpl gcp_project.projectId; not_used
      | rewrite E, GcpProject_outcome; clear E R; cbv beta ]
  end.

Ltac repository_step :=
  match goal with
  | R : rooted _ _ ?w
    |- context [ bind (github_repository.GitHubRepository ?p ?c) ?k ?w ] =>
      let E := fresh "E" in
      let w' := fresh "w" in
      let R' := fresh "R" in
      destruct (step_construct (github_repository.GitHubRepository p c) k
                  (github_repository.name c) p _ w
                  (GitHubRepository_local p c)
                  (GitHubRepository_array_free p c)
                  (GitHubRepository_grows p c) R) as (w' & E & R');
      [ simpl github_repository.name; not_used
      | rewrite E, GitHubRepository_outcome; clear E R; cbv beta ]
  end.

Ltac register_step :=
  match goal with
  | R : rooted _ _ ?w |- context [ bind (register ?kind ?p ?x ?c) ?k ?w ] =>
      let E := fresh "E" in
      let w' := fresh "w" in
      let R' := fresh "R" in
      destruct (step_register kind x c k p _ w R) as (w' & E & R');
      [ not_used | rewrite E; clear E R; cbv beta ]
  end.

Ltac read_step :=
  match goal with
  | |- context [ bind (get_path ?v ?ks) ?k ?w ] =>
      erewrite (bind_get_path v ks k w) by (vm_compute; reflexivity);
      cbv beta
  | |- context [ bind (get_prop ?v ?p) ?k ?w ] =>
      erewrite (bind_get_prop v p k w) by (vm_compute; reflexivity);
      cbv beta
  end.

(** * Further properties of the constructs *)

(** ** GcpProject: what a project is made of *)
Import gcp_project.

(** Property X1.  Under a scope that has no child named like the project,
    [GcpProject] succeeds for every configuration whose project id is
    not empty and has no [/].  It leaves what was
    declared before, and the shared arrays, as they were; it adds its own
    node and twenty-five children under it, with these ids and kinds in
    this order; and the instance it returns carries the [Project], the dns
    [ProjectService], the identity pool, the key ring, the key, the two
    service accounts, and the bucket name as a plain string. *)
Theorem GcpProject_composes_in_its_subtree scope config w :
  plain_id (projectId config) ->
  vacant (projectId config :: scope) w ->
  let this := projectId config :: scope in
  exists l,
    GcpProject scope config w
    = (World (nodes w ++ l) (arrays w), Ok (GcpProject_instance scope config))
    /\ map signature l
       = (this, "GcpProject")
         :: map (fun ik => (ik.1 :: this, ik.2)) (GcpProject_children config).
Proof.
  intros _ Hv this. exists (declared (GcpProject scope config)). split.
  - by apply GcpProject_succeeds.
  - unfold GcpProject. peel_declared. vm_compute. reflexivity.
Qed.

Lemma GcpProject_composes_in_its_subtree_witness :
  exists l,
    GcpProject ["stack"] acme_project other_world
    = (World (nodes other_world ++ l) (arrays other_world),
       Ok (GcpProject_instance ["stack"] acme_project))
    /\ map signature l
       = (["acme-dev"; "stack"], "GcpProject")
         :: map (fun ik => (ik.1 :: ["acme-dev"; "stack"], ik.2))
              (GcpProject_children acme_project).
Proof.
  apply (GcpProject_composes_in_its_subtree ["stack"] acme_project other_world).
  { split; [discriminate|reflexivity]. }
  repeat constructor. simpl. intros H%suffix_length. simpl in H. lia.
Defined.

(** ** GcpProject: references point backwards *)

Ltac split_elem H :=
  repeat match type of H with
    | _ ∈ _ ++ _ => apply elem_of_app in H as [H|H]
    | _ ∈ _ :: _ => apply elem_of_cons in H as [->|H]
    | _ ∈ [] => by apply elem_of_nil in H
    end.

Ltac earlier_from n j :=
  lazymatch n with
  | O => fail
  | S ?n' =>
      first [ exists j; eexists; split; [lia|split; reflexivity]
            | earlier_from n' (S j) ]
  end.

(** Property X2.  In a [GcpProject], every resource that the
    configuration of a declaration refers to, through a token or in
    [dependsOn], is either a declaration the constructor made earlier or
    one that came in with the caller's [googleBeta] and [dependsOn]: no
    declaration refers to a later one or to itself. *)
Theorem GcpProject_refers_backwards scope config w w' inst :
  GcpProject scope config w = (w', Ok inst) ->
  forall i d p, added w w' !! i = Some d -> p ∈ mentioned d ->
    (exists j e, (j < i)%nat /\ added w w' !! j = Some e /\ d_path e = p)
    \/ p ∈ GcpProject_inputs config.
Proof.
  intros H. apply GcpProject_inv in H as ->. rewrite added_app.
  unfold GcpProject. peel_declared. unfold GcpProject_inputs.
  destruct config as [pid name org billing repo env location beta deps].
  match goal with |- context [ nodes ?x ] => set (ds := nodes x) end.
  vm_compute in ds. cbn [googleBeta dependsOn].
  destruct deps as [deps|];
    intros i d p Hd Hp;
    do 26 (destruct i as [|i];
           [vm_compute in Hd; injection Hd as <-;
            unfold mentioned in Hp; simpl in Hp;
            rewrite ?app_nil_r in Hp; split_elem Hp;
            first [ right; rewrite elem_of_app; by auto
                  | left; earlier_from 26%nat 0%nat ]|]);
    by destruct i.
Qed.

Lemma GcpProject_refers_backwards_witness :
  GcpProject [] acme_project empty_world
  = ((GcpProject [] acme_project empty_world).1,
     Ok (GcpProject_instance [] acme_project))
  /\ ((exists j e, (j < 2)%nat
         /\ added empty_world (GcpProject [] acme_project empty_world).1 !! j
            = Some e
         /\ d_path e = ["this"; "acme-dev"])
      \/ ["this"; "acme-dev"] ∈ GcpProject_inputs acme_project).
Proof.
  assert (GcpProject [] acme_project empty_world
          = ((GcpProject [] acme_project empty_world).1,
             Ok (GcpProject_instance [] acme_project))) as H
    by (vm_compute; reflexivity).
  split; [exact H|].
  eapply (GcpProject_refers_backwards [] acme_project empty_world _ _ H 2).
  - vm_compute. reflexivity.
  - vm_compute. repeat constructor.
Defined.

(** ** GcpProject: who may authenticate *)

(** Property X3.  The identity provider of a [GcpProject] admits tokens
    of one repository owner only: for an infrastructure repository
    [owner/repo], whose owner has no [/], the provider is declared with
    the attribute condition [assertion.repository_owner == 'owner'],
    whatever follows the first [/]. *)
Theorem GcpProject_trusts_the_repository_owner
    scope config w w' inst owner repo :
  githubInfraRepo config = owner +:+ "/" +:+ repo ->
  includes "/" owner = false ->
  GcpProject scope config w = (w', Ok inst) ->
  exists d,
    d ∈ added w w'
    /\ signature d
       = ("github-id-provider" :: projectId config :: scope,
          "IamWorkloadIdentityPoolProvider")
    /\ obj_lookup "attributeCondition" (d_config d)
       = Some (VStr ("assertion.repository_owner == '" +:+ owner +:+ "'")).
Proof.
  intros Hrepo Howner H. apply GcpProject_inv in H as ->. rewrite added_app.
  unfold GcpProject. peel_declared. rewrite Hrepo.
  change ("/" +:+ repo) with (String "/"%char repo).
  rewrite split_at_first_separator by done. cbn [lookup list_lookup interpolate].
  eexists. split; [|split].
  - vm_compute. do 8 apply list_elem_of_further. apply list_elem_of_here.
  - reflexivity.
  - vm_compute. reflexivity.
Qed.

Lemma GcpProject_trusts_the_repository_owner_witness :
  exists d,
    d ∈ added empty_world (GcpProject [] acme_project empty_world).1
    /\ signature d
       = (["github-id-provider"; "acme-dev"],
          "IamWorkloadIdentityPoolProvider")
    /\ obj_lookup "attributeCondition" (d_config d)
       = Some (VStr "assertion.repository_owner == 'acme'").
Proof.
  apply (GcpProject_trusts_the_repository_owner [] acme_project empty_world
           (GcpProject [] acme_project empty_world).1
           (GcpProject_instance [] acme_project) "acme" "acme-infra").
  - reflexivity.
  - reflexivity.
  - vm_compute. reflexivity.
Defined.

(** ** GcpProject: projects side by side *)

(** Property X4.  Two projects with different ids, both not empty and
    without [/], compose under one scope in every world that has both
    ids free: the second succeeds after the first, and each adds exactly
    what it adds when it is composed alone. *)
Theorem GcpProject_siblings_compose scope c1 c2 w :
  plain_id (projectId c1) ->
  plain_id (projectId c2) ->
  projectId c1 <> projectId c2 ->
  vacant (projectId c1 :: scope) w ->
  vacant (projectId c2 :: scope) w ->
  exists w1 w2,
    GcpProject scope c1 w = (w1, Ok (GcpProject_instance scope c1))
    /\ GcpProject scope c2 w1 = (w2, Ok (GcpProject_instance scope c2))
    /\ added w w1 = declared (GcpProject scope c1)
    /\ added w1 w2 = declared (GcpProject scope c2).
Proof.
  intros _ _ Hne H1 H2.
  rewrite (GcpProject_succeeds scope c1 w H1).
  eexists _, _. split; [reflexivity|].
  rewrite GcpProject_succeeds.
  - split; [reflexivity|]. by rewrite !added_app.
  - unfold vacant. simpl. apply Forall_app. split; [done|].
    destruct (GcpProject_grows scope c1 empty_world) as (l & E & F).
    unfold declared. rewrite E. simpl.
    eapply Forall_impl; [exact F|]. simpl. intros d Hd.
    eapply siblings_disjoint; [| |exact Hd]; [done|].
    intros [= E']. by apply Hne.
Qed.

Lemma GcpProject_siblings_compose_witness :
  exists w1 w2,
    GcpProject [] acme_project empty_world
    = (w1, Ok (GcpProject_instance [] acme_project))
    /\ GcpProject [] acme_project_prod w1
       = (w2, Ok (GcpProject_instance [] acme_project_prod))
    /\ added empty_world w1 = declared (GcpProject [] acme_project)
    /\ added w1 w2 = declared (GcpProject [] acme_project_prod).
Proof.
  apply (GcpProject_siblings_compose [] acme_project acme_project_prod
           empty_world).
  - split; [discriminate|reflexivity].
  - split; [discriminate|reflexivity].
  - discriminate.
  - apply vacant_empty.
  - apply vacant_empty.
Defined.

(** ** GitHubRepository: the admin team *)
Import github_repository.

(** Property X5.  Under a scope that has no child named like the
    repository, [GitHubRepository] succeeds for every configuration
    whose name is not empty and has no [/], whatever the caller's
    overrides hold, and leaves earlier declarations and the arrays as
    they were.  It grants a team admin permission
    exactly when [adminTeam] is given and truthy: an absent or empty
    [adminTeam] declares no [TeamRepository].  The repository, the two
    rulesets, the four environments and the three deployment policies are
    declared in every case. *)
Theorem GitHubRepository_grants_admin_team scope config w :
  plain_id (name config) ->
  vacant (name config :: scope) w ->
  let this := name config :: scope in
  let granted := from_option truthy false (adminTeam config) in
  exists l,
    GitHubRepository scope config w
    = (World (nodes w ++ l) (arrays w),
       Ok (instance this [("repository", VRes ("this" :: this))]))
    /\ List.filter (has_kind "TeamRepository") l
       = (if granted
          then [admin_team_decl this (default VUndef (adminTeam config))]
          else [])
    /\ map signature l
       = (this, "GitHubRepository") :: ("this" :: this, "Repository")
         :: (if granted then [("admin-team" :: this, "TeamRepository")] else [])
         ++ map (fun ik => (ik.1 :: this, ik.2))
              GitHubRepository_rules_and_environments.
Proof.
  intros _ Hv this granted.
  exists (declared (GitHubRepository scope config)). split.
  - by apply GitHubRepository_succeeds.
  - subst granted. unfold GitHubRepository. peel_declared.
    destruct (from_option truthy false (adminTeam config));
      vm_compute; split; reflexivity.
Qed.

Lemma GitHubRepository_grants_admin_team_witness :
  exists l,
    GitHubRepository [] (plain_repository (Some (VStr ""))) empty_world
    = (World l [], Ok (instance ["acme"] [("repository", VRes ["this"; "acme"])]))
    /\ List.filter (has_kind "TeamRepository") l = []
    /\ map signature l
       = (["acme"], "GitHubRepository") :: (["this"; "acme"], "Repository")
         :: map (fun ik => (ik.1 :: ["acme"], ik.2))
              GitHubRepository_rules_and_environments.
Proof.
  apply (GitHubRepository_grants_admin_team []
           (plain_repository (Some (VStr ""))) empty_world).
  - split; [discriminate|reflexivity].
  - apply vacant_empty.
Defined.

(** ** CurioStack: what a stack is made of *)
Import curiostack.

Lemma environment_check (config : CurioStackConfig) :
  ~ environment_missing config ->
  negb (truthy_str (githubEnvironment config))
  && negb (includes "-" (project config)) = false.
Proof.
  unfold environment_missing. intros Hm.
  destruct (truthy_str _), (includes _ _); try done. by destruct Hm.
Qed.

Lemma CurioStack_outcome scope config :
  ~ environment_missing config ->
  outcome (CurioStack scope config) = Ok (CurioStack_instance scope config).
Proof.
  intros Hm. unfold outcome, CurioStack, Apps.
  rewrite (environment_check _ Hm). vm_compute. reflexivity.
Qed.

Lemma CurioStack_run scope config w :
  vacant ("curiostack" :: scope) w ->
  ~ environment_missing config ->
  CurioStack scope config w
  = (World (nodes w ++ declared (CurioStack scope config)) (arrays w),
     Ok (CurioStack_instance scope config)).
Proof.
  intros Hv Hm.
  rewrite (frame _ _ w (CurioStack_local scope config)
             (CurioStack_array_free scope config) Hv).
  by rewrite CurioStack_outcome.
Qed.

(** Property X6.  Where the environment is given or the project id has a
    [-], and the scope has no child [curiostack], [CurioStack] succeeds.
    It leaves earlier declarations and the arrays as they were and adds
    seventeen declarations: itself, [Apps] with its ten resources, then
    [Identity] with its four.  The instance it returns has [project],
    [dockerRepository], [ghcrRepository], [githubEnvironmentIamMember]
    and [runService], and nothing else: no [config], no [otelBucket], no
    [location]. *)
Theorem CurioStack_composes scope config w :
  vacant ("curiostack" :: scope) w ->
  ~ environment_missing config ->
  exists l,
    CurioStack scope config w
    = (World (nodes w ++ l) (arrays w), Ok (CurioStack_instance scope config))
    /\ map signature l = map (fun pk => (pk.1 ++ scope, pk.2)) CurioStack_tree
    /\ prop_of (CurioStack_instance scope config) "config" = VUndef
    /\ prop_of (CurioStack_instance scope config) "otelBucket" = VUndef
    /\ prop_of (CurioStack_instance scope config) "location" = VUndef.
Proof.
  intros Hv Hm. exists (declared (CurioStack scope config)). split.
  - by apply CurioStack_run.
  - split; [|by vm_compute].
    unfold declared, CurioStack, Apps.
    rewrite (environment_check _ Hm). vm_compute. reflexivity.
Qed.

Lemma CurioStack_composes_witness :
  exists l,
    CurioStack ["stack"] acme_dev other_world
    = (World (nodes other_world ++ l) (arrays other_world),
       Ok (CurioStack_instance ["stack"] acme_dev))
    /\ map signature l
       = map (fun pk => (pk.1 ++ ["stack"], pk.2)) CurioStack_tree
    /\ prop_of (CurioStack_instance ["stack"] acme_dev) "config" = VUndef
    /\ prop_of (CurioStack_instance ["stack"] acme_dev) "otelBucket" = VUndef
    /\ prop_of (CurioStack_instance ["stack"] acme_dev) "location" = VUndef.
Proof.
  apply (CurioStack_composes ["stack"] acme_dev other_world).
  - repeat constructor. simpl. intros H%suffix_length. simpl in H. lia.
  - intros [_ H]. discriminate H.
Defined.

(** ** CurioStack: the environment that may deploy *)

Lemma includes_separator (c : ascii) (a b : string) :
  includes c (a +:+ String c b) = true.
Proof.
  induction a as [|x a IH]; simpl.
  - by rewrite Ascii.eqb_refl.
  - rewrite IH. apply orb_true_r.
Qed.

(** Property X7.  With no [githubEnvironment], the environment that may
    deploy is the part of the project id between its first and its
    second [-]: for the id [a-b] it is [b], and for [a-b-rest] it is [b]
    as well, not the suffix [rest]. *)
Theorem CurioStack_environment_from_project_id scope config w a b rest :
  vacant ("curiostack" :: scope) w ->
  githubEnvironment config = None ->
  includes "-" a = false -> includes "-" b = false ->
  project config = a +:+ "-" +:+ b
  \/ project config = a +:+ "-" +:+ b +:+ "-" +:+ rest ->
  exists w' stack,
    CurioStack scope config w = (w', Ok stack)
    /\ prop_of stack "githubEnvironmentIamMember"
       = deploy_principal scope (githubRepo config) b.
Proof.
  intros Hv He Ha Hb Hp.
  assert (includes "-" (project config) = true) as Hi.
  { destruct Hp as [-> | ->]; apply (includes_separator "-"). }
  assert (githubEnv config = Some b) as Hg.
  { unfold githubEnv. rewrite He. simpl nullish.
    destruct Hp as [-> | ->].
    - change ("-" +:+ b) with (String "-"%char b).
      by rewrite split_at_first_separator, split_no_separator.
    - change ("-" +:+ b +:+ "-" +:+ rest)
        with (String "-"%char (b +:+ String "-"%char rest)).
      by rewrite !split_at_first_separator. }
  rewrite CurioStack_run; [|done|].
  - eexists _, _. split; [reflexivity|].
    unfold CurioStack_instance. rewrite Hg. reflexivity.
  - intros [_ H]. congruence.
Qed.

Lemma CurioStack_environment_from_project_id_witness :
  exists w' stack,
    CurioStack [] my_project_dev empty_world = (w', Ok stack)
    /\ prop_of stack "githubEnvironmentIamMember"
       = deploy_principal [] "acme/app" "project".
Proof.
  apply (CurioStack_environment_from_project_id [] my_project_dev empty_world
           "my" "project" "dev").
  - apply vacant_empty.
  - reflexivity.
  - reflexivity.
  - reflexivity.
  - right. reflexivity.
Defined.

(** Property X8.  The check and the default disagree on the empty
    string.  With [githubEnvironment] given as the empty string and a
    project id that has a [-], the check passes and the stack is
    composed, and the environment that may deploy is the empty string:
    the part of the project id is not used. *)
Theorem CurioStack_keeps_empty_environment scope config w :
  vacant ("curiostack" :: scope) w ->
  githubEnvironment config = Some "" ->
  includes "-" (project config) = true ->
  exists w' stack,
    CurioStack scope config w = (w', Ok stack)
    /\ prop_of stack "githubEnvironmentIamMember"
       = deploy_principal scope (githubRepo config) "".
Proof.
  intros Hv He Hi. rewrite CurioStack_run; [|done|].
  - eexists _, _. split; [reflexivity|].
    unfold CurioStack_instance, githubEnv. rewrite He. reflexivity.
  - intros [_ H]. congruence.
Qed.

Lemma CurioStack_keeps_empty_environment_witness :
  exists w' stack,
    CurioStack [] acme_dev_unnamed_environment empty_world = (w', Ok stack)
    /\ prop_of stack "githubEnvironmentIamMember"
       = deploy_principal [] "acme/app" "".
Proof.
  apply (CurioStack_keeps_empty_environment [] acme_dev_unnamed_environment
           empty_world).
  - apply vacant_empty.
  - reflexivity.
  - reflexivity.
Defined.

(** ** CurioStackService: what a successful construction has declared *)
Import curiostack_service.

Lemma caller_env_fold (env : list (string * string)) (vars : list value) :
  fold_left (fun vars nv => vars ++ [env_var nv.1 (VStr nv.2)]) env vars
  = vars ++ map (fun nv => env_var nv.1 (VStr nv.2)) env.
Proof.
  revert vars. induction env as [|nv env IH]; intros vars; simpl.
  - by rewrite app_nil_r.
  - by rewrite IH, <- app_assoc.
Qed.

Lemma secrets_loop_inv (this : path) (l : nat)
    (secrets : list (string * SecretVersion)) :
  forall (vars vars' : list value) (w w' : world),
  foldM (fun vars ns =>
           let vars := vars ++ [env_secret ns.1 ns.2] in
           secretIam <-
             register "SecretManagerSecretIamMember" this
               ("secret-accessor-" +:+ ns.1)
               [("secretId", secret ns.2);
                ("role", VStr "roles/secretmanager.secretAccessor");
                ("member", VTok ("service-account" :: this) "member")] ;;
           push l secretIam ;;;
           ret vars)
    secrets vars w = (w', Ok vars') ->
  vars' = vars ++ map (fun ns => env_secret ns.1 ns.2) secrets
  /\ nodes w' = nodes w ++ map (secret_decl this) secrets
  /\ arrays w'
     = alter (fun a => a ++ map (secret_member this) secrets) l (arrays w).
Proof.
  induction secrets as [|ns secrets IH]; intros vars vars' w w'; simpl.
  - intros [= <- <-]. rewrite !app_nil_r. split; [done|split; [done|]].
    symmetry. apply list_alter_id. intros x. apply app_nil_r.
  - intros (w1 & a & H1 & H)%bind_inv_ok.
    apply bind_inv_ok in H1 as (w2 & v & (_ & -> & ->)%register_inv_ok & H1).
    apply bind_inv_ok in H1 as (w3 & u & Hp & H1).
    unfold push in Hp. injection Hp as <- _. injection H1 as <- <-.
    apply IH in H as (-> & -> & ->). simpl.
    rewrite <- !app_assoc. split; [done|split; [done|]].
    rewrite list_alter_alter_eq. apply list_alter_ext; [|done].
    intros x _. simpl. by rewrite <- app_assoc.
Qed.

Lemma get_path_inv2 v k1 k2 w w' x :
  get_path v [k1; k2] w = (w', Ok x) ->
  x = prop_of (prop_of v k1) k2 /\ w' = w /\ prop_of v k1 <> VUndef.
Proof.
  simpl. intros (w1 & a & [-> ->]%get_prop_inv & H)%bind_inv_ok.
  apply bind_inv_ok in H as (w2 & b & Hb & [= <- <-]).
  destruct (prop_of v k1) eqn:E; try discriminate Hb;
    apply get_prop_inv in Hb as [-> ->]; done.
Qed.

Ltac inv_step H :=
  first
    [ apply bind_inv_ok in H as (? & ? & (_ & -> & ->)%register_inv_ok & H)
    | apply bind_inv_ok in H as (? & ? & (_ & -> & ->)%construct_inv_ok & H)
    | apply bind_inv_ok in H as (? & ? & [-> ->]%get_prop_inv & H)
    | let D := fresh "D" in
      apply bind_inv_ok in H as (? & ? & (-> & -> & D)%get_path_inv2 & H)
    | apply bind_inv_ok in H as (? & ? & [-> ->]%get_path_inv & H) ].

Ltac inv_push H :=
  let Hp := fresh in
  apply bind_inv_ok in H as (? & ? & Hp & H);
  unfold push in Hp; injection Hp as <- _.

Lemma CurioStackService_inv scope config w w' inst :
  CurioStackService scope config w = (w', Ok inst) ->
  let this := name config :: scope in
  let stack := curiostack config in
  let l := dependsOn_index (dependsOn config) w in
  exists service : obj,
    nodes w'
    = nodes w
      ++ service_prefix this stack (name config)
      ++ map (secret_decl this) (default [] (envSecrets config))
      ++ [otel_reader_decl this stack;
          Decl ("service" :: this) "GoogleCloudRunV2Service" service]
      ++ (if default false (public config)
          then [public_access_decl this] else [])
    /\ arrays w'
       = alter (fun a => a ++ service_dependencies this stack
                               (envSecrets config))
           l (dependsOn_arrays (dependsOn config) w)
    /\ obj_lookup "dependsOn" service
       = Some (VArr (default [] (arrays w' !! l)))
    /\ obj_lookup "env" (app_container service)
       = Some (VArr (default_env config ++ caller_env (env config)
                       ++ secret_env (envSecrets config)))
    /\ obj_lookup "image" (app_container service)
       = Some (app_image stack (name config)
                 (default "main" (imageTag config)))
    /\ obj_lookup "lifecycle" service
       = Some (VObj [("ignoreChanges",
                       if truthy_str (imageTag config) then VUndef
                       else external_deployment)])
    /\ obj_lookup "location" service = Some (prop_of stack "location")
    /\ prop_of stack "otelBucket" <> VUndef
    /\ inst = instance this [("serviceAccount", VRes ("service-account" :: this));
                             ("run", VRes ("service" :: this))].
Proof.
  intros H this stack l. unfold CurioStackService in H.
  repeat inv_step H.
  apply bind_inv_ok in H as (w1 & l' & Hdeps & H).
  assert (l' = l /\ nodes w1 = nodes w ++ service_prefix this stack (name config)
          /\ arrays w1 = dependsOn_arrays (dependsOn config) w)
    as (-> & Hn1 & Ha1).
  { subst l. unfold dependsOn_index, dependsOn_arrays.
    destruct (dependsOn config);
      [unfold ret in Hdeps|unfold new_array in Hdeps];
      injection Hdeps as <- <-; simpl; rewrite <- ?app_assoc; done. }
  clear Hdeps.
  inv_step H. inv_push H.
  apply bind_inv_ok in H as (w3 & configEnv & Henv & H).
  assert (opt_str configEnv = config_env (environment config) stack
          /\ w3 = World (nodes w1)
                    (alter (fun a => a ++ [prop_of stack "runService"]) l
                       (arrays w1)))
    as [Hce ->].
  { unfold config_env. destruct (environment config).
    - by injection Henv as <- <-.
    - fold stack in Henv. destruct (prop_of stack "project");
        try discriminate Henv. by injection Henv as <- <-. }
  clear Henv.
  rewrite caller_env_fold in H.
  apply bind_inv_ok in H as (w4 & vars & Hloop & H).
  apply secrets_loop_inv in Hloop as (-> & Hn4 & Ha4).
  simpl in Hn4, Ha4.
  repeat inv_step H. inv_push H.
  repeat inv_step H.
  apply bind_inv_ok in H as (w6 & deps & Hread & H).
  unfold read_array in Hread. injection Hread as <- <-.
  inv_step H.
  apply bind_inv_ok in H as (w7 & u7 & Hpublic & H).
  injection H as <- <-.
  assert (forall w0, (if default false (public config)
           then
             _ <- register "CloudRunServiceIamMember" this "publicaccess"
                 [("location", attr (VRes ("service" :: this)) "location");
                  ("service", attr (VRes ("service" :: this)) "name");
                  ("role", VStr "roles/run.invoker");
                  ("member", VStr "allUsers")] ;;
             ret tt
           else ret tt) w0 = (w7, Ok u7) ->
          nodes w7 = nodes w0 ++ (if default false (public config)
                                  then [public_access_decl this] else [])
          /\ arrays w7 = arrays w0) as Hp.
  { intros w0 Hw0. destruct (default false (public config)).
    - inv_step Hw0. by injection Hw0 as <-.
    - injection Hw0 as <-. by rewrite app_nil_r. }
  destruct (Hp _ Hpublic) as [Hn7 Ha7]. clear Hp Hpublic.
  simpl in Hn7, Ha7. rewrite Hn4, Hn1 in Hn7. rewrite Ha4, Ha1 in Ha7.
  eexists. split; [|split; [|split; [|split; [|split; [|split; [|split;
    [|split]]]]]]].
  - rewrite Hn7. unfold otel_reader_decl. rewrite <- !app_assoc. reflexivity.
  - rewrite Ha7. rewrite !list_alter_alter_eq.
    apply list_alter_ext; [|done]. intros x _. simpl.
    unfold service_dependencies. by rewrite <- !app_assoc.
  - simpl. rewrite Ha7, Ha4, Ha1. reflexivity.
  - simpl. rewrite Hce. unfold default_env, caller_env, secret_env.
    fold stack. destruct (default false (public config));
      simpl; rewrite <- ?app_assoc; reflexivity.
  - reflexivity.
  - reflexivity.
  - reflexivity.
  - subst stack. assumption.
  - reflexivity.
Qed.

Lemma added_nodes (w w' : world) (l : list decl) :
  nodes w' = nodes w ++ l -> added w w' = l.
Proof. intros E. unfold added. by rewrite E, drop_app_length. Qed.

Lemma no_secret_of_kind (k : string) (this : path)
    (secrets : list (string * SecretVersion)) :
  k <> "SecretManagerSecretIamMember" ->
  List.filter (has_kind k) (map (secret_decl this) secrets) = [].
Proof.
  intros Hk. induction secrets as [|ns secrets IH]; [done|].
  cbn [map List.filter]. unfold has_kind at 1. cbn [d_kind secret_decl].
  destruct (String.eqb_spec "SecretManagerSecretIamMember" k);
    [congruence|exact IH].
Qed.

(** Property X9.  The app container of a service that has been
    constructed gets the constructor's own variables first ([CONFIG_ENV],
    [GOOGLE_PROJECT], the two exporters, the service name, the sampler
    if the service is public, [LOGGING_JSON]), then the caller's [env] in
    its order, then one reference per entry of [envSecrets].  A caller's
    variable named like one of the constructor's is appended, it does not
    replace it. *)
Theorem CurioStackService_environment_variables scope config w w' inst :
  CurioStackService scope config w = (w', Ok inst) ->
  exists d,
    d ∈ added w w'
    /\ signature d
       = ("service" :: name config :: scope, "GoogleCloudRunV2Service")
    /\ obj_lookup "env" (app_container (d_config d))
       = Some (VArr (default_env config ++ caller_env (env config)
                       ++ secret_env (envSecrets config))).
Proof.
  intros H.
  destruct (CurioStackService_inv _ _ _ _ _ H)
    as (service & Hn & _ & _ & He & _).
  exists (Decl ("service" :: name config :: scope) "GoogleCloudRunV2Service"
            service).
  split; [|by split].
  rewrite (added_nodes _ _ _ Hn), !elem_of_app, !elem_of_cons. auto 10.
Qed.

Lemma CurioStackService_environment_variables_witness :
  exists d,
    d ∈ added acme_world acme_api_run.1
    /\ signature d = (["service"; "api"], "GoogleCloudRunV2Service")
    /\ obj_lookup "env" (app_container (d_config d))
       = Some (VArr [env_var "CONFIG_ENV" (VStr "dev");
                     env_var "GOOGLE_PROJECT" (VStr "acme-dev");
                     env_var "OTEL_METRICS_EXPORTER" (VStr "otlp");
                     env_var "OTEL_TRACES_EXPORTER" (VStr "otlp");
                     env_var "OTEL_SERVICE_NAME" (VStr "api");
                     env_var "OTEL_TRACES_SAMPLER" (VStr "always_on");
                     env_var "LOGGING_JSON" (VStr "true");
                     env_var "LOG_LEVEL" (VStr "debug");
                     env_secret "DB_PASSWORD"
                       {| secret := VTok ["db-password"] "secretId";
                          version := VStr "latest" |}]).
Proof.
  apply (CurioStackService_environment_variables [] acme_api acme_world
           acme_api_run.1 (value_of acme_api_run.2)).
  vm_compute. reflexivity.
Defined.

(** ** CurioStackService: who may call the service *)

(** Property X10.  A service is opened to [allUsers] exactly when it is
    configured as public: a construction that succeeds declares the
    [CloudRunServiceIamMember] with [roles/run.invoker] for [allUsers] on
    the service if [public] is true, and declares no
    [CloudRunServiceIamMember] at all if [public] is false or absent. *)
Theorem CurioStackService_public_access scope config w w' inst :
  CurioStackService scope config w = (w', Ok inst) ->
  List.filter (has_kind "CloudRunServiceIamMember") (added w w')
  = if default false (public config)
    then [public_access_decl (name config :: scope)] else [].
Proof.
  intros H.
  destruct (CurioStackService_inv _ _ _ _ _ H) as (service & Hn & _).
  rewrite (added_nodes _ _ _ Hn), !List.filter_app.
  rewrite no_secret_of_kind by discriminate.
  by destruct (default false (public config)).
Qed.

Lemma CurioStackService_public_access_witness :
  List.filter (has_kind "CloudRunServiceIamMember")
    (added acme_world acme_api_run.1)
  = [public_access_decl ["api"]].
Proof.
  apply (CurioStackService_public_access [] acme_api acme_world
           acme_api_run.1 (value_of acme_api_run.2)).
  vm_compute. reflexivity.
Defined.

(** ** CurioStackService: the dependencies when the caller passes none *)

(** Property X11.  Without a [dependsOn] of the caller, the constructor
    pushes to an array of its own: the arrays that existed are as they
    were, one array is new, and it holds the stack's [runService], one
    grant per secret in the order of [envSecrets], and the bucket grant;
    the Cloud Run service is declared with exactly these as its
    [dependsOn]. *)
Theorem CurioStackService_own_dependencies scope config w w' inst :
  dependsOn config = None ->
  CurioStackService scope config w = (w', Ok inst) ->
  let this := name config :: scope in
  let deps :=
    service_dependencies this (curiostack config) (envSecrets config) in
  arrays w' = arrays w ++ [deps]
  /\ exists d,
       d ∈ added w w'
       /\ signature d = ("service" :: this, "GoogleCloudRunV2Service")
       /\ obj_lookup "dependsOn" (d_config d) = Some (VArr deps).
Proof.
  intros Hd H this deps.
  destruct (CurioStackService_inv _ _ _ _ _ H)
    as (service & Hn & Ha & Hdeps & _).
  rewrite Hd in Ha. unfold dependsOn_index, dependsOn_arrays in Ha.
  simpl in Ha.
  replace (length (arrays w)) with (length (arrays w) + 0)%nat in Ha by lia.
  rewrite alter_app_r in Ha. simpl in Ha.
  split; [exact Ha|].
  exists (Decl ("service" :: this) "GoogleCloudRunV2Service" service).
  split; [|split; [done|]].
  - rewrite (added_nodes _ _ _ Hn), !elem_of_app, !elem_of_cons. auto 10.
  - simpl. rewrite Hdeps, Ha, Hd. unfold dependsOn_index. simpl.
    by rewrite lookup_app_r, Nat.sub_diag by lia.
Qed.

Lemma CurioStackService_own_dependencies_witness :
  let deps :=
    [VRes ["service-run"; "apps"; "curiostack"];
     VRes ["secret-accessor-DB_PASSWORD"; "api"];
     VRes ["otel-bucket-reader"; "api"]] in
  arrays acme_worker_run.1 = [[database]; deps]
  /\ exists d,
       d ∈ added acme_world acme_worker_run.1
       /\ signature d = (["service"; "api"], "GoogleCloudRunV2Service")
       /\ obj_lookup "dependsOn" (d_config d) = Some (VArr deps).
Proof.
  apply (CurioStackService_own_dependencies [] acme_worker acme_world
           acme_worker_run.1 (value_of acme_worker_run.2)).
  - reflexivity.
  - vm_compute. reflexivity.
Defined.

(** ** CurioStackService: the image and who deploys it *)

(** Property X12.  The image of the app container is
    [<location>-docker.pkg.dev/<project>/<repository>/<name>:<tag>] of
    the stack's docker repository, where the tag is [imageTag] and [main]
    only if [imageTag] is absent; Terraform is told to ignore deployments
    from outside unless [imageTag] is truthy.  The two tests differ on
    the empty string: an empty [imageTag] gives an image with an empty
    tag whose changes are still ignored. *)
Theorem CurioStackService_image_and_deployment scope config w w' inst :
  CurioStackService scope config w = (w', Ok inst) ->
  exists d,
    d ∈ added w w'
    /\ signature d
       = ("service" :: name config :: scope, "GoogleCloudRunV2Service")
    /\ obj_lookup "image" (app_container (d_config d))
       = Some (app_image (curiostack config) (name config)
                 (match imageTag config with Some tag => tag | None => "main" end))
    /\ obj_lookup "lifecycle" (d_config d)
       = Some (VObj [("ignoreChanges",
                       match imageTag config with
                       | None | Some "" => external_deployment
                       | Some _ => VUndef
                       end)]).
Proof.
  intros H.
  destruct (CurioStackService_inv _ _ _ _ _ H)
    as (service & Hn & _ & _ & _ & Hi & Hl & _).
  exists (Decl ("service" :: name config :: scope) "GoogleCloudRunV2Service"
            service).
  split; [|split; [done|split]].
  - rewrite (added_nodes _ _ _ Hn), !elem_of_app, !elem_of_cons. auto 10.
  - simpl. rewrite Hi. by destruct (imageTag config).
  - simpl. rewrite Hl. by destruct (imageTag config) as [[|c tag]|].
Qed.

Lemma CurioStackService_image_and_deployment_witness :
  exists d,
    d ∈ added acme_world acme_untagged_run.1
    /\ signature d = (["service"; "api"], "GoogleCloudRunV2Service")
    /\ obj_lookup "image" (app_container (d_config d))
       = Some (app_image (serviced acme_stack) "api" "")
    /\ obj_lookup "lifecycle" (d_config d)
       = Some (VObj [("ignoreChanges", external_deployment)]).
Proof.
  apply (CurioStackService_image_and_deployment [] acme_untagged acme_world
           acme_untagged_run.1 (value_of acme_untagged_run.2)).
  vm_compute. reflexivity.
Defined.

(** ** CurioStackService: the configuration environment *)

(** Property X13.  Whenever a service has been constructed with no
    [environment] on a stack whose project id has no [-], the first
    variable of its app container is [CONFIG_ENV] with the value
    [undefined]: the second segment of the project id, which does not
    exist, is passed on as it is and no default takes its place. *)
Theorem CurioStackService_undefined_config_env
    scope config w w' inst project :
  environment config = None ->
  prop_of (curiostack config) "project" = VStr project ->
  includes "-" project = false ->
  CurioStackService scope config w = (w', Ok inst) ->
  exists d,
    d ∈ added w w'
    /\ signature d
       = ("service" :: name config :: scope, "GoogleCloudRunV2Service")
    /\ first_env (d_config d) = env_var "CONFIG_ENV" VUndef.
Proof.
  intros He Hp Hi H.
  destruct (CurioStackService_inv _ _ _ _ _ H)
    as (service & Hn & _ & _ & Henv & _).
  exists (Decl ("service" :: name config :: scope) "GoogleCloudRunV2Service"
            service).
  split; [|split; [done|]].
  - rewrite (added_nodes _ _ _ Hn), !elem_of_app, !elem_of_cons. auto 10.
  - simpl. unfold app_container in Henv. unfold first_env.
    destruct (obj_get "template" service) as [| | | | | | |t| |]; try done.
    destruct (obj_get "containers" t) as [| | | | | |[|[| | | | | | |c| |] cs]| | |];
      try done.
    unfold obj_get. rewrite Henv. simpl.
    unfold config_env. rewrite He, Hp.
    by rewrite (split_no_separator _ _ Hi).
Qed.

Lemma CurioStackService_undefined_config_env_witness :
  exists d,
    d ∈ added acme_plain_world acme_plain_run.1
    /\ signature d = (["service"; "api"], "GoogleCloudRunV2Service")
    /\ first_env (d_config d) = env_var "CONFIG_ENV" VUndef.
Proof.
  apply (CurioStackService_undefined_config_env [] acme_plain_service
           acme_plain_world acme_plain_run.1 (value_of acme_plain_run.2)
           "acme").
  - reflexivity.
  - reflexivity.
  - reflexivity.
  - vm_compute. reflexivity.
Defined.

(** ** CurioStackService on a stack that [CurioStack] has built *)

Lemma CurioStack_portable scope config :
  portable (curiostack.CurioStack scope config).
Proof.
  unfold curiostack.CurioStack, curiostack.Apps, curiostack.Identity.
  solve_portable.
Qed.

(** A [CurioStack] that has been constructed is this instance, in every
    world. *)
Lemma CurioStack_inv scope config w w' stack :
  curiostack.CurioStack scope config w = (w', Ok stack) ->
  stack = CurioStack_instance scope config.
Proof.
  intros H.
  eapply portable_run in H as [_ Ho];
    [|apply CurioStack_portable|apply CurioStack_array_free].
  destruct (negb (truthy_str (curiostack.githubEnvironment config))
            && negb (includes "-" (curiostack.project config))) eqn:E.
  - apply andb_true_iff in E as [E1%negb_true_iff E2%negb_true_iff].
    unfold outcome in Ho.
    rewrite (CurioStack_missing_run scope config (conj E1 E2)) in Ho.
    discriminate Ho.
  - rewrite CurioStack_outcome in Ho; [by injection Ho|].
    intros [E1 E2]. by rewrite E1, E2 in E.
Qed.

(** Steps whose result is determined. *)
Lemma returns_register kind scope id config :
  returns (fun v => v = VRes (id :: scope)) (register kind scope id config).
Proof. by intros w w' a (_ & _ & ->)%register_inv_ok. Qed.

Lemma returns_construct cls scope id :
  returns (fun p => p = id :: scope) (construct cls scope id).
Proof. by intros w w' a (_ & _ & ->)%construct_inv_ok. Qed.

Lemma returns_get_prop v k :
  returns (fun x => x = prop_of v k) (get_prop v k).
Proof. by intros w w' a [-> _]%get_prop_inv. Qed.

Section throws.

Variable E : error -> Prop.

Lemma throws_only_step {A B} (m : M A) (k : A -> M B) (Q : A -> Prop) :
  returns Q m -> throws_only E m -> (forall a, Q a -> throws_only E (k a)) ->
  throws_only E (bind m k).
Proof.
  intros Hq Hm Hk w w' e H.
  apply bind_inv_throw in H as [H|(w1 & a & Ha & H)].
  - by eapply Hm.
  - eapply Hk; [|exact H]. by eapply Hq.
Qed.

Lemma throws_only_get_prop_defined v k :
  v <> VUndef -> throws_only E (get_prop v k).
Proof. intros Hv. destruct v; try done; intros w w' e; discriminate. Qed.

Lemma throws_only_new_array items : throws_only E (new_array items).
Proof. intros w w' e. discriminate. Qed.

Lemma throws_only_push l x : throws_only E (push l x).
Proof. intros w w' e. discriminate. Qed.

Lemma throws_only_read_array l : throws_only E (read_array l).
Proof. intros w w' e. discriminate. Qed.

Lemma throws_only_split_string s c i : throws_only E (split_index (VStr s) c i).
Proof. intros w w' e. discriminate. Qed.

Lemma throws_only_foldM {A B} (body : B -> A -> M B) xs acc :
  (forall b a, throws_only E (body b a)) -> throws_only E (foldM body xs acc).
Proof.
  intros Hbody. revert acc. induction xs as [|x xs IH]; intros acc; simpl.
  - apply throws_only_ret.
  - apply throws_only_bind; [apply Hbody|]. intros b. apply IH.
Qed.

End throws.

Ltac split_head :=
  match goal with
  | |- throws_only _ (if ?b then _ else _) => destruct b eqn:?
  | |- throws_only _ (match ?x with Some _ => _ | None => _ end) =>
      destruct x eqn:?
  end.

Ltac solve_throws_exact side :=
  repeat first
    [ apply throws_only_ret
    | apply throws_only_throw; side
    | apply throws_only_register; side
    | apply throws_only_construct; side
    | apply throws_only_new_array
    | apply throws_only_push
    | apply throws_only_read_array
    | apply throws_only_split_string
    | apply throws_only_get_prop_defined; discriminate
    | eapply throws_only_step;
        [ first [ apply returns_register | apply returns_construct
                | apply returns_get_prop ]
        | | intros ? -> ]
    | apply throws_only_foldM
    | apply throws_only_bind
    | split_head
    | intro_binder ].

(** Property X14.  A [CurioStackService] cannot be constructed on a
    stack that the constructor of [CurioStack] has returned, in any world
    and for any configuration: the instance has no [otelBucket], so
    reading [config.curiostack.otelBucket.name] throws a TypeError, unless
    an id of the service is already taken and the construction stops
    before with a DuplicateIdentifierError. *)
Theorem CurioStackService_needs_an_otel_bucket
    scope0 config0 w0 w1 stack scope config w :
  curiostack.CurioStack scope0 config0 w0 = (w1, Ok stack) ->
  curiostack config = stack ->
  exists w' e,
    CurioStackService scope config w = (w', Throw e)
    /\ (e = no_otel_bucket \/ is_duplicate e).
Proof.
  intros Hstack Hcfg. apply CurioStack_inv in Hstack. subst stack.
  destruct (CurioStackService scope config w) as [w' [inst|e]] eqn:H.
  - apply CurioStackService_inv in H as (_ & _ & _ & _ & _ & _ & _ & _ & D & _).
    by rewrite Hcfg in D.
  - exists w', e. split; [done|]. revert H.
    generalize w w' e. clear w w' e.
    change (throws_only (fun e => e = no_otel_bucket \/ is_duplicate e)
              (CurioStackService scope config)).
    unfold CurioStackService. rewrite Hcfg.
    unfold CurioStack_instance, instance. cbn [get_path].
    solve_throws_exact ltac:(first [ by left | right; by eexists _, _ ]).
Qed.

Lemma CurioStackService_needs_an_otel_bucket_witness :
  exists w' e,
    CurioStackService [] (api_service acme_stack (Some 0%nat)) acme_world
    = (w', Throw e)
    /\ (e = no_otel_bucket \/ is_duplicate e).
Proof.
  apply (CurioStackService_needs_an_otel_bucket [] acme_dev empty_world
           (curiostack.CurioStack [] acme_dev empty_world).1 acme_stack
           [] (api_service acme_stack (Some 0%nat)) acme_world).
  - vm_compute. reflexivity.
  - reflexivity.
Defined.

(** ** The earlier CurioStackService, on a stack that [CurioStack] has built *)
Import curiostack_service curiostack_service_ghcr.

Lemma CurioStackService_ghcr_inv scope config w w' inst :
  CurioStackService scope config w = (w', Ok inst) ->
  let this := name config :: scope in
  let stack := curiostack config in
  exists service : obj,
    nodes w'
    = nodes w
      ++ service_prefix this stack (name config)
      ++ map (secret_decl this) (default [] (envSecrets config))
      ++ [Decl ("service" :: this) "GoogleCloudRunV2Service" service]
      ++ (if default false (public config)
          then [public_access_decl this] else [])
    /\ obj_lookup "location" service = Some (prop_of stack "location")
    /\ obj_lookup "image" (app_container service)
       = Some (app_image stack (name config)
                 (default "main" (imageTag config)))
    /\ obj_lookup "image" (collector_container service)
       = Some (collector_image stack).
Proof.
  intros H this stack. unfold CurioStackService in H.
  repeat inv_step H.
  apply bind_inv_ok in H as (w1 & l & Hdeps & H).
  assert (nodes w1 = nodes w ++ service_prefix this stack (name config))
    as Hn1.
  { destruct (dependsOn config);
      [unfold ret in Hdeps|unfold new_array in Hdeps];
      injection Hdeps as <- <-; simpl; rewrite <- ?app_assoc; done. }
  clear Hdeps.
  inv_step H. inv_push H.
  apply bind_inv_ok in H as (w3 & configEnv & Henv & H).
  assert (nodes w3 = nodes w1) as Hn3.
  { destruct (environment config); [by injection Henv as <- _|].
    by apply split_index_inv in Henv as ->. }
  clear Henv.
  rewrite caller_env_fold in H.
  apply bind_inv_ok in H as (w4 & vars & Hloop & H).
  apply secrets_loop_inv in Hloop as (-> & Hn4 & _).
  repeat inv_step H.
  apply bind_inv_ok in H as (w6 & deps & Hread & H).
  unfold read_array in Hread. injection Hread as <- <-.
  inv_step H.
  apply bind_inv_ok in H as (w7 & u7 & Hpublic & H).
  injection H as <- _.
  assert (forall w0, (if default false (public config)
           then
             _ <- register "CloudRunServiceIamMember" this "publicaccess"
                 [("location", attr (VRes ("service" :: this)) "location");
                  ("service", attr (VRes ("service" :: this)) "name");
                  ("role", VStr "roles/run.invoker");
                  ("member", VStr "allUsers")] ;;
             ret tt
           else ret tt) w0 = (w7, Ok u7) ->
          nodes w7 = nodes w0 ++ (if default false (public config)
                                  then [public_access_decl this] else []))
    as Hp.
  { intros w0 Hw0. destruct (default false (public config)).
    - inv_step Hw0. by injection Hw0 as <-.
    - injection Hw0 as <-. by rewrite app_nil_r. }
  pose proof (Hp _ Hpublic) as Hn7. clear Hp Hpublic.
  simpl in Hn7. rewrite Hn4, Hn3, Hn1 in Hn7.
  eexists. split; [|split; [|split]].
  - rewrite Hn7, <- !app_assoc. reflexivity.
  - reflexivity.
  - reflexivity.
  - reflexivity.
Qed.

Lemma CurioStackService_ghcr_local scope config :
  local (under (name config :: scope)) (CurioStackService scope config).
Proof. unfold CurioStackService. solve_local. Qed.

Lemma rooted_nodes p0 used w w' :
  nodes w' = nodes w -> rooted p0 used w -> rooted p0 used w'.
Proof. unfold rooted. by intros ->. Qed.

Lemma bind_new_array {B} items (k : nat -> M B) w :
  bind (new_array items) k w
  = k (length (arrays w)) (World (nodes w) (arrays w ++ [items])).
Proof. reflexivity. Qed.

Lemma bind_push {B} l x (k : unit -> M B) w :
  bind (push l x) k w
  = k tt (World (nodes w) (alter (fun a => a ++ [x]) l (arrays w))).
Proof. reflexivity. Qed.

Lemma bind_read_array {B} l (k : list value -> M B) w :
  bind (read_array l) k w = k (default [] (arrays w !! l)) w.
Proof. reflexivity. Qed.

Lemma secrets_loop_ok (this : path) (l : nat)
    (secrets : list (string * SecretVersion)) :
  NoDup (secrets.*1) ->
  forall (vars : list value) (used : list string) (w : world),
  rooted this used w ->
  (forall n, n ∈ secrets.*1 -> accessor_id n ∉ used) ->
  exists w' vars' used',
    foldM (fun vars ns =>
             let vars := vars ++ [env_secret ns.1 ns.2] in
             secretIam <-
               register "SecretManagerSecretIamMember" this
                 ("secret-accessor-" +:+ ns.1)
                 [("secretId", secret ns.2);
                  ("role", VStr "roles/secretmanager.secretAccessor");
                  ("member", VTok ("service-account" :: this) "member")] ;;
             push l secretIam ;;;
             ret vars)
      secrets vars w = (w', Ok vars')
    /\ rooted this used' w'
    /\ (forall y, y ∈ used' ->
          y ∈ used \/ exists n, n ∈ secrets.*1 /\ y = accessor_id n).
Proof.
  induction secrets as [|[n s] secrets IH]; intros Hnd vars used w R Hfree.
  - exists w, vars, used. split; [done|]. split; [done|]. auto.
  - apply NoDup_cons in Hnd as [Hn Hnd]. cbn [foldM fst snd].
    destruct (step_register "SecretManagerSecretIamMember" (accessor_id n)
                [("secretId", secret s);
                 ("role", VStr "roles/secretmanager.secretAccessor");
                 ("member", VTok ("service-account" :: this) "member")]
                (fun secretIam =>
                   push l secretIam ;;; ret (vars ++ [env_secret n s]))
                this used w R) as (w1 & E & R1).
    { apply Hfree. simpl. left. }
    unfold bind at 1. fold (accessor_id n). rewrite E.
    rewrite bind_push. cbn [ret].
    destruct (IH Hnd (vars ++ [env_secret n s]) (accessor_id n :: used)
                (World (nodes w1)
                   (alter (fun a => a ++ [VRes (accessor_id n :: this)]) l
                      (arrays w1))))
      as (w' & vars' & used' & Hrun & R' & Hused).
    + eapply rooted_nodes; [|exact R1]. reflexivity.
    + intros m Hm. apply not_elem_of_cons. split.
      * unfold accessor_id. intros Heq%append_inj_l. by subst.
      * apply Hfree. simpl. by right.
    + exists w', vars', used'. split; [exact Hrun|]. split; [done|].
      intros y Hy. destruct (Hused y Hy) as [[->|Hy']%elem_of_cons|(m & Hm & ->)].
      * right. exists n. split; [simpl; left|done].
      * by left.
      * right. exists m. split; [simpl; by right|done].
Qed.

Lemma CurioStackService_ghcr_succeeds scope0 config0 scope config w :
  curiostack config = CurioStack_instance scope0 config0 ->
  vacant (name config :: scope) w ->
  NoDup ((default [] (envSecrets config)).*1) ->
  exists w' inst, CurioStackService scope config w = (w', Ok inst).
Proof.
  intros Hcfg Hv Hnd.
  assert (w = prepend (nodes w) (blank w)) as Ew.
  { destruct w. unfold prepend, blank. simpl. by rewrite app_nil_r. }
  rewrite Ew, (CurioStackService_ghcr_local scope config _ _ Hv).
  cut (exists inst, (CurioStackService scope config (blank w)).2 = Ok inst).
  { intros [inst ->]. eauto. }
  unfold CurioStackService.
  rewrite construct_frame; [|apply vacant_blank|solve_local].
  cbn [snd]. rewrite Hcfg.
  pose proof (rooted_empty (name config :: scope) (arrays (blank w))) as R.
  change (World [] (arrays (blank w))) with (blank (blank w)) in R.
  repeat first [ read_step | register_step ].
  set (this := name config :: scope) in *.
  assert (forall n, n ∈ (default [] (envSecrets config)).*1 ->
            accessor_id n
            ∉ ["cloudrun-github"; "service-account-profiles";
               "service-account-traces"; "service-account-metrics";
               "service-account"]) as Hfree.
  { intros n _. unfold accessor_id. not_used. }
  assert (forall used' : list string,
            (forall y, y ∈ used' ->
               y ∈ ["cloudrun-github"; "service-account-profiles";
                    "service-account-traces"; "service-account-metrics";
                    "service-account"]
               \/ exists n, n ∈ (default [] (envSecrets config)).*1
                            /\ y = accessor_id n) ->
            ("service" ∉ used') /\ ("publicaccess" ∉ used')) as Hlast.
  { intros used' Hused. split; intros [Hy|(n & _ & Hy)]%Hused.
    - revert Hy. not_used.
    - revert Hy. unfold accessor_id. distinct_ids.
    - revert Hy. not_used.
    - revert Hy. unfold accessor_id. distinct_ids. }
  destruct (dependsOn config) as [l|];
    [ rewrite bind_ret
    | rewrite bind_new_array;
      apply (rooted_nodes _ _ _ (World (nodes w4) (arrays w4 ++ [[]])) eq_refl)
        in R0 ];
    read_step; rewrite bind_push;
    match goal with
    | |- context [ World (nodes ?w) ?a ] =>
        apply (rooted_nodes _ _ w (World (nodes w) a) eq_refl) in R0
    end;
    (destruct (environment config); cbn [split_index]; rewrite bind_ret).
  all: edestruct (secrets_loop_ok this) as (w' & vars' & used' & Hrun & R' & Hused);
    [ exact Hnd | exact R0 | exact Hfree | ].
  all: unfold bind at 1.
  all: cbn [attr].
  all: rewrite Hrun. 
  all: repeat read_step.
  all: rewrite bind_read_array.
  all: destruct (Hlast used' Hused) as [Hs Hpa].
  all: match goal with
       | |- context [ bind (register ?kind ?p ?x ?c) ?k ?W ] =>
           destruct (step_register kind x c k p used' W R' Hs)
             as (w5 & E5 & R5)
       end.
  all: rewrite E5; clear E5.
  all: destruct (default false (public config)).
  all: repeat first [ rewrite bind_assoc | rewrite bind_ret ].
  all: try match goal with
       | |- context [ bind (register ?kind ?p ?x ?c) ?k ?W ] =>
           destruct (step_register kind x c k p ("service" :: used') W R5)
             as (w6 & E6 & R6);
           [ apply not_elem_of_cons; split; [discriminate|exact Hpa]
           | rewrite E6 ]
       end.
  all: by eexists.
Qed.

(** Property X15.  The earlier [CurioStackService] can be constructed on
    a stack that [CurioStack] has built: for a service name that is not
    empty and has no [/], under a scope with no child of that name, and
    with secrets of pairwise distinct names without [/], it succeeds,
    whatever else the configuration holds.  The Cloud Run service it
    declares has an undefined [location], since the stack has none; the
    image of its collector is a fixed path in the stack's ghcr
    repository, and the image of the app is in the stack's docker
    repository. *)
Theorem CurioStackService_ghcr_on_a_CurioStack
    scope0 config0 w0 w1 stack scope config w :
  curiostack.CurioStack scope0 config0 w0 = (w1, Ok stack) ->
  curiostack config = stack ->
  plain_id (name config) ->
  vacant (name config :: scope) w ->
  NoDup ((default [] (envSecrets config)).*1) ->
  Forall (fun n => includes "/" n = false)
    ((default [] (envSecrets config)).*1) ->
  let apps := "apps" :: "curiostack" :: scope0 in
  exists w' inst d,
    CurioStackService scope config w = (w', Ok inst)
    /\ d ∈ added w w'
    /\ signature d
       = ("service" :: name config :: scope, "GoogleCloudRunV2Service")
    /\ obj_lookup "location" (d_config d) = Some VUndef
    /\ obj_lookup "image" (collector_container (d_config d))
       = Some (VTemplate
                 [VTok ("ghcr-repo" :: apps) "location";
                  VStr "-docker.pkg.dev/";
                  VTok ("ghcr-repo" :: apps) "project"; VStr "/";
                  VTok ("ghcr-repo" :: apps) "name";
                  VStr "/curioswitch/go-usegcp/otel-collector:latest"])
    /\ obj_lookup "image" (app_container (d_config d))
       = Some (VTemplate
                 [VTok ("docker-registry" :: apps) "location";
                  VStr "-docker.pkg.dev/";
                  VTok ("docker-registry" :: apps) "project"; VStr "/";
                  VTok ("docker-registry" :: apps) "name"; VStr "/";
                  VStr (name config); VStr ":";
                  VStr (default "main" (imageTag config))]).
Proof.
  intros Hstack Hcfg _ Hv Hnd _ apps. apply CurioStack_inv in Hstack.
  subst stack.
  destruct (CurioStackService_ghcr_succeeds _ _ _ _ _ Hcfg Hv Hnd)
    as (w' & inst & H).
  destruct (CurioStackService_ghcr_inv _ _ _ _ _ H)
    as (service & Hn & Hl & Hi & Hc).
  exists w', inst,
    (Decl ("service" :: name config :: scope) "GoogleCloudRunV2Service"
       service).
  split; [done|]. split; [|split; [done|]].
  - rewrite (added_nodes _ _ _ Hn), !elem_of_app, !elem_of_cons. auto 10.
  - simpl. rewrite Hl, Hi, Hc, Hcfg. done.
Qed.

Lemma CurioStackService_ghcr_on_a_CurioStack_witness :
  let apps := ["apps"; "curiostack"] in
  exists w' inst d,
    CurioStackService [] acme_ghcr_api acme_world = (w', Ok inst)
    /\ d ∈ added acme_world w'
    /\ signature d = (["service"; "api"], "GoogleCloudRunV2Service")
    /\ obj_lookup "location" (d_config d) = Some VUndef
    /\ obj_lookup "image" (collector_container (d_config d))
       = Some (VTemplate
                 [VTok ("ghcr-repo" :: apps) "location";
                  VStr "-docker.pkg.dev/";
                  VTok ("ghcr-repo" :: apps) "project"; VStr "/";
                  VTok ("ghcr-repo" :: apps) "name";
                  VStr "/curioswitch/go-usegcp/otel-collector:latest"])
    /\ obj_lookup "image" (app_container (d_config d))
       = Some (VTemplate
                 [VTok ("docker-registry" :: apps) "location";
                  VStr "-docker.pkg.dev/";
                  VTok ("docker-registry" :: apps) "project"; VStr "/";
                  VTok ("docker-registry" :: apps) "name"; VStr "/";
                  VStr "api"; VStr ":"; VStr "main"]).
Proof.
  apply (CurioStackService_ghcr_on_a_CurioStack [] acme_dev empty_world
           (curiostack.CurioStack [] acme_dev empty_world).1 acme_stack
           [] acme_ghcr_api acme_world).
  - vm_compute. reflexivity.
  - reflexivity.
  - split; [discriminate|reflexivity].
  - unfold acme_world. vm_compute nodes.
    repeat constructor; simpl; intros H%suffix_cons_inv;
      destruct H as [H|H]; try discriminate H;
      repeat (apply suffix_cons_inv in H as [H|H]; [discriminate H|]);
      by apply suffix_nil_inv in H.
  - simpl. repeat constructor. by intros ?%elem_of_nil.
  - simpl. repeat constructor.
Defined.

(** ** Bootstrap: the names a project cannot have *)
Import bootstrap.

Lemma has_path_mono (p : path) (w w' : world) (l : list decl) :
  nodes w' = nodes w ++ l -> has_path p w = true -> has_path p w' = true.
Proof.
  unfold has_path. intros ->. rewrite existsb_app. by intros ->.
Qed.

Lemma GitHubRepository_taken scope config w w' v :
  github_repository.GitHubRepository scope config w = (w', Ok v) ->
  has_path (github_repository.name config :: scope) w = false
  /\ has_path (github_repository.name config :: scope) w' = true.
Proof.
  intros H. split.
  - unfold github_repository.GitHubRepository in H.
    apply bind_inv_ok in H as (w1 & p & (Hf & _)%construct_inv_ok & _). done.
  - unfold github_repository.GitHubRepository in H.
    apply construct_bind_taken in H; [done|]. solve_grows.
Qed.

Lemma register_free kind scope id config w w' v :
  register kind scope id config w = (w', Ok v) ->
  has_path (id :: scope) w = false.
Proof. by intros (Hf & _)%register_inv_ok. Qed.

Lemma taken_is_not_free (n x : string) (this : path) (w : world) :
  has_path (n :: this) w = true -> has_path (x :: this) w = false -> n <> x.
Proof. intros Ht Hf ->. congruence. Qed.

(** One registration further: the id was free, and is therefore not the
    one known to be taken, which stays taken. *)
Ltac free_step H T N :=
  let F := fresh "F" in
  let Hr := fresh "Hr" in
  let Hn := fresh "Hn" in
  apply bind_inv_ok in H as (? & ? & Hr & H);
  pose proof (register_free _ _ _ _ _ _ _ Hr) as F;
  pose proof (taken_is_not_free _ _ _ _ T F) as N;
  apply register_nodes in Hr as [-> Hn];
  apply (has_path_mono _ _ _ _ Hn) in T;
  clear F Hn.

Lemma Bootstrap_own_ids_free dirname scope config w w' inst :
  Bootstrap dirname scope config w = (w', Ok inst) ->
  name config ∉ Bootstrap_own_ids config.
Proof.
  intros H. unfold Bootstrap in H.
  apply bind_inv_ok in H as (w0 & p & (_ & E0 & ->)%construct_inv_ok & H).
  apply bind_inv_ok in H as (w1 & sysadminProject & E1 & H).
  apply bind_inv_ok in H as (w2 & devProject & E2 & H).
  apply bind_inv_ok in H as (w3 & prodProject & E3 & H).
  apply bind_inv_ok in H as (w4 & ? & (_ & -> & ->)%register_inv_ok & H).
  apply bind_inv_ok in H as (w5 & apprepo & E5 & H).
  apply bind_inv_ok in H as (w6 & infraRepo & E6 & H).
  apply bind_inv_ok in H as (w7 & ? & Hwf & H).
  apply bind_inv_ok in H as (w8 & ? & Hdns & _).
  clear E0 E1 E2 E3.
  pose proof (GitHubRepository_taken _ _ _ _ _ E5) as [F5 T5].
  simpl github_repository.name in F5, T5.
  assert (name config <> "github-admins") as N0.
  { intros Heq. rewrite Heq in F5. unfold has_path, add_node in F5.
    simpl nodes in F5. rewrite existsb_app in F5. simpl in F5.
    rewrite path_eqb_refl in F5. simpl in F5.
    by rewrite orb_true_r in F5. }
  apply GitHubRepository_nodes in E6.
  apply (has_path_mono _ _ _ _ E6) in T5. clear E5 E6 F5.
  unfold Bootstrap_own_ids.
  apply not_elem_of_cons. split; [done|].
  apply not_elem_of_app. split.
  - destruct (negb (default false (disableGitHubWorkflows config)));
      [|apply not_elem_of_nil].
    invert_reads Hwf. free_step Hwf T5 N1.
    invert_reads Hwf. free_step Hwf T5 N2.
    apply not_elem_of_cons. split; [done|].
    apply not_elem_of_cons. split; [done|]. apply not_elem_of_nil.
  - assert (has_path (name config :: name config :: scope) w7 = true) as T7.
    { destruct (negb (default false (disableGitHubWorkflows config)));
        [|by injection Hwf as <-].
      invert_reads Hwf. free_step Hwf T5 N1.
      invert_reads Hwf. free_step Hwf T5 N2.
      by injection Hwf as <-. }
    clear Hwf T5.
    destruct (truthy_str (domain config)); [|apply not_elem_of_nil].
    invert_reads Hdns. free_step Hdns T7 N1.
    invert_reads Hdns. free_step Hdns T7 N2.
    invert_reads Hdns. free_step Hdns T7 N3.
    repeat (apply not_elem_of_cons; split; [done|]). apply not_elem_of_nil.
Qed.

Lemma Bootstrap_outcome_free dirname scope config :
  name config ∉ Bootstrap_own_ids config ->
  exists inst, outcome (Bootstrap dirname scope config) = Ok inst.
Proof.
  intros Hn. unfold Bootstrap_own_ids in Hn.
  apply not_elem_of_cons in Hn as [N0 Hn].
  apply not_elem_of_app in Hn as [Hwf Hdns].
  unfold outcome, Bootstrap.
  rewrite construct_frame; [|apply vacant_empty|].
  2:{ unfold gcp_project.GcpProject, github_repository.GitHubRepository.
      solve_local. }
  cbn [snd].
  pose proof (rooted_empty (name config :: scope) (arrays empty_world)) as R.
  change (World [] (arrays empty_world)) with (blank empty_world) in R.
  project_step.
  project_step.
  project_step.
  register_step.
  repository_step.
  repository_step.
  destruct (negb (default false (disableGitHubWorkflows config)));
    destruct (truthy_str (domain config));
    repeat match goal with
      | H : _ ∉ _ :: _ |- _ => apply not_elem_of_cons in H as [? H]
      end;
    repeat first
      [ rewrite bind_assoc
      | rewrite bind_ret
      | read_step
      | register_step ];
    by eexists.
Qed.

(** Property X16.  For a project name that is not empty and has no [/],
    under a scope that has no child of that name, [Bootstrap] succeeds
    exactly when the project is not named like one of the children that
    [Bootstrap] declares itself for this configuration: [github-admins] always, [infra-ci-pr] and
    [infra-ci-main] unless the workflows are disabled, and
    [alpha-dns-zone], [prod-dns-zone] and [prod-alpha-ns-delegate] if a
    domain is given.  A project called [infra-ci-pr] can be bootstrapped
    with the workflows disabled, and with them enabled it cannot. *)
Theorem Bootstrap_succeeds_iff dirname scope config w :
  plain_id (name config) ->
  vacant (name config :: scope) w ->
  (exists w' inst, Bootstrap dirname scope config w = (w', Ok inst))
  <-> name config ∉ Bootstrap_own_ids config.
Proof.
  intros _ Hv. split.
  - intros (w' & inst & H). by eapply Bootstrap_own_ids_free.
  - intros Hn.
    destruct (Bootstrap_outcome_free dirname scope config Hn) as [v Ho].
    rewrite (frame _ _ w (Bootstrap_local dirname scope config)
               (Bootstrap_array_free dirname scope config) Hv), Ho.
    eauto.
Qed.

Lemma Bootstrap_succeeds_iff_witness :
  (exists w' inst,
     Bootstrap "/srv/app" [] (quiet_bootstrap "infra-ci-pr") other_world
     = (w', Ok inst))
  <-> "infra-ci-pr" ∉ ["github-admins"].
Proof.
  apply (Bootstrap_succeeds_iff "/srv/app" []
           (quiet_bootstrap "infra-ci-pr") other_world).
  - split; [discriminate|reflexivity].
  - apply vacant_other. discriminate.
Defined.

(** ** Bootstrap: the identifiers it derives *)

(** Claim C7, amended.  Every composition of [Bootstrap] that completes
    has declared exactly three [GcpProject]s, with ids [N-sysadmin],
    [N-dev], [N-prod], each declaring its [Project] under that project
    id and admitting the repository [O/N-infra]; exactly two
    [GitHubRepository]s, [N] and [N-infra]; and exactly one [Team],
    named [N-admins].  And composition completes for every name [N]
    that is not empty, has no [/] and is none of the ids [Bootstrap]
    gives its own children for the configuration, under a scope with no
    child [N]. *)
Theorem Bootstrap_identifiers dirname scope config :
  let this := name config :: scope in
  let infra := githubOrg config +:+ "/" +:+ name config +:+ "-infra" in
  (forall w w' inst,
     Bootstrap dirname scope config w = (w', Ok inst) ->
     map d_path (List.filter (has_kind "GcpProject") (added w w'))
     = map (fun pe => pe.1 :: this) (project_ids config)
     /\ (forall pid env, (pid, env) ∈ project_ids config ->
           exists project admin,
             project ∈ added w w'
             /\ d_path project = "this" :: pid :: this
             /\ d_kind project = "Project"
             /\ obj_lookup "projectId" (d_config project) = Some (VStr pid)
             /\ admin ∈ added w w'
             /\ d_path admin = "terraform-admin-github-actions" :: pid :: this
             /\ obj_lookup "member" (d_config admin)
                = Some (VTemplate
                          [VStr "principal://iam.googleapis.com/";
                           VTok ("github-id-pool" :: pid :: this) "name";
                           VStr "/subject/repo:"; VStr infra;
                           VStr ":environment:"; VStr env]))
     /\ map d_path (List.filter (has_kind "GitHubRepository") (added w w'))
        = [name config :: this; (name config +:+ "-infra") :: this]
     /\ List.filter (has_kind "Team") (added w w')
        = [team_decl this (name config)])
  /\ (forall w,
        plain_id (name config) ->
        name config ∉ Bootstrap_own_ids config ->
        vacant this w ->
        exists w' inst, Bootstrap dirname scope config w = (w', Ok inst)).
Proof.
  intros this infra. split.
  - intros w w' inst H.
    exact (Bootstrap_declared_identifiers _ _ _ _ _ _ H).
  - intros w _ Hn Hv.
    destruct (Bootstrap_outcome_free dirname scope config Hn) as [v Ho].
    rewrite (frame _ _ w (Bootstrap_local dirname scope config)
               (Bootstrap_array_free dirname scope config) Hv), Ho.
    eauto.
Qed.

Lemma Bootstrap_identifiers_witness :
  exists w' inst,
    Bootstrap "/srv/app" [] (acme_bootstrap "acme") other_world
    = (w', Ok inst)
    /\ map d_path (List.filter (has_kind "GcpProject") (added other_world w'))
       = [["acme-sysadmin"; "acme"]; ["acme-dev"; "acme"];
          ["acme-prod"; "acme"]]
    /\ (forall pid env,
          (pid, env) ∈ [("acme-sysadmin", "prod"); ("acme-dev", "dev");
                        ("acme-prod", "prod")] ->
          exists project admin,
            project ∈ added other_world w'
            /\ d_path project = ["this"; pid; "acme"]
            /\ d_kind project = "Project"
            /\ obj_lookup "projectId" (d_config project) = Some (VStr pid)
            /\ admin ∈ added other_world w'
            /\ d_path admin = ["terraform-admin-github-actions"; pid; "acme"]
            /\ obj_lookup "member" (d_config admin)
               = Some (VTemplate
                         [VStr "principal://iam.googleapis.com/";
                          VTok ["github-id-pool"; pid; "acme"] "name";
                          VStr "/subject/repo:"; VStr "acme-corp/acme-infra";
                          VStr ":environment:"; VStr env]))
    /\ map d_path (List.filter (has_kind "GitHubRepository")
                     (added other_world w'))
       = [["acme"; "acme"]; ["acme-infra"; "acme"]]
    /\ List.filter (has_kind "Team") (added other_world w')
       = [team_decl ["acme"] "acme"].
Proof.
  destruct (Bootstrap_identifiers "/srv/app" [] (acme_bootstrap "acme"))
    as [Hexact Hsucc].
  destruct (Hsucc other_world) as (w' & inst & H).
  - split; [discriminate|reflexivity].
  - unfold Bootstrap_own_ids. simpl.
    repeat (apply not_elem_of_cons; split; [discriminate|]).
    apply not_elem_of_nil.
  - apply vacant_other. discriminate.
  - exists w', inst. split; [exact H|]. exact (Hexact _ _ _ H).
Defined.

(** ** Bootstrap: the workflow files and the DNS zones *)

Lemma GcpProject_value scope config w w' v :
  gcp_project.GcpProject scope config w = (w', Ok v) ->
  v = GcpProject_instance scope config.
Proof.
  intros H. eapply portable_run in H as [_ Ho];
    [|apply GcpProject_portable|apply GcpProject_array_free].
  rewrite GcpProject_outcome in Ho. by injection Ho.
Qed.

Lemma GitHubRepository_value scope config w w' v :
  github_repository.GitHubRepository scope config w = (w', Ok v) ->
  v = instance (github_repository.name config :: scope)
        [("repository",
           VRes ("this" :: github_repository.name config :: scope))].
Proof.
  intros H. eapply portable_run in H as [_ Ho];
    [|apply GitHubRepository_portable|apply GitHubRepository_array_free].
  rewrite GitHubRepository_outcome in Ho. by injection Ho.
Qed.

Lemma outside_tail_kinds_sound (l : list decl) :
  outside_tail_kinds l = true ->
  Forall (fun d => d_kind d ∉ tail_kinds) l.
Proof.
  unfold outside_tail_kinds. rewrite forallb_forall, Forall_forall.
  intros H d Hd Hin. specialize (H d). rewrite <- list_elem_of_In in H.
  specialize (H Hd). apply negb_true_iff in H.
  assert (existsb (String.eqb (d_kind d)) tail_kinds = true) as Ht; [|congruence].
  apply existsb_exists. exists (d_kind d). rewrite <- list_elem_of_In.
  split; [done|]. apply String.eqb_refl.
Qed.

Lemma GcpProject_outside_tail scope config :
  Forall (fun d => d_kind d ∉ tail_kinds)
    (declared (gcp_project.GcpProject scope config)).
Proof.
  apply outside_tail_kinds_sound. unfold gcp_project.GcpProject.
  peel_declared. vm_compute. reflexivity.
Qed.

Lemma GitHubRepository_outside_tail scope config :
  Forall (fun d => d_kind d ∉ tail_kinds)
    (declared (github_repository.GitHubRepository scope config)).
Proof.
  apply outside_tail_kinds_sound. unfold github_repository.GitHubRepository.
  peel_declared.
  destruct (from_option truthy false (github_repository.adminTeam config));
    vm_compute; reflexivity.
Qed.

Local Opaque declared gcp_project.GcpProject github_repository.GitHubRepository.

(** What [Bootstrap] declares after the two repositories. *)
Lemma Bootstrap_tail dirname scope config w w' inst :
  Bootstrap dirname scope config w = (w', Ok inst) ->
  let this := name config :: scope in
  exists front,
    added w w'
    = front
      ++ (if negb (default false (disableGitHubWorkflows config))
          then workflow_files dirname this (name config) else [])
      ++ (if truthy_str (domain config)
          then dns_zones this (name config) (default "" (domain config))
          else [])
    /\ Forall (fun d => d_kind d ∉ tail_kinds) front.
Proof.
  intros H this. unfold Bootstrap in H.
  apply bind_inv_ok in H as (w0 & p & (_ & E0 & ->)%construct_inv_ok & H).
  apply (f_equal nodes) in E0. simpl in E0.
  apply bind_inv_ok in H as (w1 & sysadminProject & E1 & H).
  apply bind_inv_ok in H as (w2 & devProject & E2 & H).
  apply bind_inv_ok in H as (w3 & prodProject & E3 & H).
  apply bind_inv_ok in H as (w4 & ? & [-> E4]%register_nodes & H).
  apply bind_inv_ok in H as (w5 & apprepo & E5 & H).
  apply bind_inv_ok in H as (w6 & infraRepo & E6 & H).
  apply bind_inv_ok in H as (w7 & ? & Hwf & H).
  apply bind_inv_ok in H as (w8 & ? & Hdns & H).
  injection H as <- _.
  pose proof (GcpProject_value _ _ _ _ _ E2) as ->.
  pose proof (GcpProject_value _ _ _ _ _ E3) as ->.
  pose proof (GitHubRepository_value _ _ _ _ _ E6) as ->.
  apply GcpProject_nodes in E1, E2, E3.
  apply GitHubRepository_nodes in E5, E6.
  assert (nodes w7
          = nodes w6
            ++ (if negb (default false (disableGitHubWorkflows config))
                then workflow_files dirname this (name config) else []))
    as E7.
  { destruct (negb _).
    - invert_reads Hwf. invert_register Hwf Ea.
      invert_reads Hwf. invert_register Hwf Eb.
      injection Hwf as <- _. rewrite Eb, Ea, <- app_assoc. reflexivity.
    - injection Hwf as <- _. by rewrite app_nil_r. }
  assert (nodes w8
          = nodes w7
            ++ (if truthy_str (domain config)
                then dns_zones this (name config) (default "" (domain config))
                else []))
    as E8.
  { destruct (truthy_str _).
    - invert_reads Hdns. invert_register Hdns Ea.
      invert_reads Hdns. invert_register Hdns Eb.
      invert_reads Hdns. invert_register Hdns Ec.
      injection Hdns as <- _. rewrite Ec, Eb, Ea, <- !app_assoc. reflexivity.
    - injection Hdns as <- _. by rewrite app_nil_r. }
  exists (Decl this "Bootstrap" []
          :: declared (gcp_project.GcpProject this
                         (project_config config "sysadmin" "prod"))
          ++ declared (gcp_project.GcpProject this
                         (project_config config "dev" "dev"))
          ++ declared (gcp_project.GcpProject this
                         (project_config config "prod" "prod"))
          ++ team_decl this (name config)
          :: declared (github_repository.GitHubRepository this
                         (repository_config (name config)
                            (VTok ("github-admins" :: this) "id")
                            (appRepositoryConfig config) None))
          ++ declared (github_repository.GitHubRepository this
                         (repository_config (name config +:+ "-infra")
                            (VTok ("github-admins" :: this) "id")
                            (infraRepositoryConfig config)
                            (Some [("reviewers",
                                     VArr [VObj [("teams",
                                                   VArr [VCall "Fn.tonumber"
                                                           [VTok ("github-admins" :: this) "id"]])]])])))).
  split.
  - apply added_nodes. rewrite E8, E7, E6, E5, E4, E3, E2, E1, E0.
    repeat (progress (cbn [app]; rewrite <- ?app_assoc)). reflexivity.
  - repeat first
      [ apply Forall_app; split
      | apply GcpProject_outside_tail
      | apply GitHubRepository_outside_tail
      | apply Forall_cons; split;
          [ let Hk := fresh in
            intros Hk; unfold tail_kinds in Hk; cbn [d_kind team_decl] in Hk;
            repeat (apply elem_of_cons in Hk as [Hk|Hk]; [discriminate Hk|]);
            by apply elem_of_nil in Hk |]
      | apply Forall_nil ].
Qed.

Local Transparent declared gcp_project.GcpProject github_repository.GitHubRepository.

Lemma filter_outside_tail (k : string) (l : list decl) :
  k ∈ tail_kinds ->
  Forall (fun d => d_kind d ∉ tail_kinds) l ->
  List.filter (has_kind k) l = [].
Proof.
  intros Hk. induction 1 as [|d l Hd _ IH]; [done|].
  cbn [List.filter]. unfold has_kind at 1.
  destruct (String.eqb_spec (d_kind d) k) as [E|_]; [|exact IH].
  by rewrite E in Hd.
Qed.

(** Property X17.  A [Bootstrap] that has been composed has committed
    workflow files exactly if the workflows are not disabled: then the
    [RepositoryFile]s are [infra-ci-pr] and [infra-ci-main], in this
    order, both in the infrastructure repository, rendered from the two
    templates next to the module with the ids and numbers of the dev and
    prod projects; with [disableGitHubWorkflows] true there is no
    [RepositoryFile]. *)
Theorem Bootstrap_workflow_files dirname scope config w w' inst :
  Bootstrap dirname scope config w = (w', Ok inst) ->
  List.filter (has_kind "RepositoryFile") (added w w')
  = if default false (disableGitHubWorkflows config) then []
    else workflow_files dirname (name config :: scope) (name config).
Proof.
  intros H. destruct (Bootstrap_tail _ _ _ _ _ _ H) as (front & -> & Hf).
  rewrite !List.filter_app.
  rewrite (filter_outside_tail _ front) by (done || (unfold tail_kinds; solve_elem)).
  destruct (default false (disableGitHubWorkflows config));
    destruct (truthy_str (domain config)); reflexivity.
Qed.

Lemma Bootstrap_workflow_files_witness :
  List.filter (has_kind "RepositoryFile") (added other_world acme_run.1)
  = workflow_files "/srv/app" ["acme"] "acme".
Proof.
  apply (Bootstrap_workflow_files "/srv/app" [] (acme_bootstrap "acme")
           other_world acme_run.1 (value_of acme_run.2)).
  vm_compute. reflexivity.
Defined.

Lemma replaceAll_removes (a b : ascii) (s : string) :
  a <> b -> includes a (replaceAll a b s) = false.
Proof.
  intros Hab. induction s as [|c s IH]; [done|]. simpl. rewrite IH.
  destruct (Ascii.eqb_spec c a) as [->|Hc].
  - destruct (Ascii.eqb_spec b a); [congruence|done].
  - destruct (Ascii.eqb_spec c a); [congruence|done].
Qed.

(** Property X18.  A [Bootstrap] that has been composed has declared DNS
    resources exactly if [domain] is given and not empty: then the zone
    [alpha.<domain>.] in the dev project, the zone [<domain>.] in the
    prod project, each waiting for the DNS service of its project, and
    in the prod project the NS record that delegates [alpha.<domain>.]
    to the name servers of the alpha zone.  The zones are named after
    the domain with every dot replaced by a hyphen, so their names have
    no dot.  Without a domain, or with the empty one, there is no DNS
    resource. *)
Theorem Bootstrap_dns_zones dirname scope config w w' inst :
  Bootstrap dirname scope config w = (w', Ok inst) ->
  List.filter
    (fun d => has_kind "DnsManagedZone" d || has_kind "DnsRecordSet" d)
    (added w w')
  = match domain config with
    | None | Some "" => []
    | Some d => dns_zones (name config :: scope) (name config) d
    end
  /\ forall d, includes "." (replaceAll "." "-" d) = false.
Proof.
  intros H. split; [|intros d; by apply replaceAll_removes].
  destruct (Bootstrap_tail _ _ _ _ _ _ H) as (front & -> & Hf).
  rewrite !List.filter_app.
  assert (List.filter
            (fun d => has_kind "DnsManagedZone" d || has_kind "DnsRecordSet" d)
            front = []) as ->.
  { clear -Hf. induction Hf as [|d l Hd _ IH]; [done|].
    cbn [List.filter]. rewrite IH. unfold has_kind.
    destruct (String.eqb_spec (d_kind d) "DnsManagedZone") as [E|_].
    { rewrite E in Hd. exfalso. apply Hd. unfold tail_kinds. solve_elem. }
    destruct (String.eqb_spec (d_kind d) "DnsRecordSet") as [E|_]; [|done].
    rewrite E in Hd. exfalso. apply Hd. unfold tail_kinds. solve_elem. }
  destruct (negb (default false (disableGitHubWorkflows config)));
    destruct (domain config) as [[|c d]|]; reflexivity.
Qed.

Lemma Bootstrap_dns_zones_witness :
  List.filter
    (fun d => has_kind "DnsManagedZone" d || has_kind "DnsRecordSet" d)
    (added other_world acme_run.1)
  = dns_zones ["acme"] "acme" "acme.example"
  /\ forall d, includes "." (replaceAll "." "-" d) = false.
Proof.
  apply (Bootstrap_dns_zones "/srv/app" [] (acme_bootstrap "acme")
           other_world acme_run.1 (value_of acme_run.2)).
  vm_compute. reflexivity.
Defined.

(** ** Bootstrap: who administers the repositories *)

Lemma GitHubRepository_team_and_prod scope repo team repositoryConfig prod :
  let this := repo :: scope in
  let ds :=
    declared (github_repository.GitHubRepository scope
                (repository_config repo (VTok team "id") repositoryConfig
                   prod)) in
  admin_team_decl this (VTok team "id") ∈ ds
  /\ Decl ("env-prod" :: this) "RepositoryEnvironment"
       (spread (github_repository.environment_defaults
                  (VRes ("this" :: this)) "prod")
          (opt_obj prod)) ∈ ds.
Proof.
  unfold github_repository.GitHubRepository. peel_declared.
  split; vm_compute; solve_elem.
Qed.

Local Opaque declared gcp_project.GcpProject github_repository.GitHubRepository.

(** Property X19.  In a [Bootstrap] that has been composed, the team
    [github-admins] has admin permission on both repositories, the
    application's and the infrastructure's.  The [prod] environment of
    the infrastructure repository has the defaults of a
    [GitHubRepository] and, after them, the team as required reviewer;
    the [prod] environment of the application repository has the
    defaults only. *)
Theorem Bootstrap_repository_access dirname scope config w w' inst :
  Bootstrap dirname scope config w = (w', Ok inst) ->
  let this := name config :: scope in
  let admins := VTok ("github-admins" :: this) "id" in
  let app := name config :: this in
  let infra := (name config +:+ "-infra") :: this in
  admin_team_decl app admins ∈ added w w'
  /\ admin_team_decl infra admins ∈ added w w'
  /\ Decl ("env-prod" :: app) "RepositoryEnvironment"
       (github_repository.environment_defaults (VRes ("this" :: app)) "prod")
     ∈ added w w'
  /\ Decl ("env-prod" :: infra) "RepositoryEnvironment"
       (github_repository.environment_defaults (VRes ("this" :: infra)) "prod"
        ++ [("reviewers",
              VArr [VObj [("teams", VArr [VCall "Fn.tonumber" [admins]])]])])
     ∈ added w w'.
Proof.
  intros H this admins app infra.
  destruct (Bootstrap_blocks _ _ _ _ _ _ H) as (rest & E & _).
  fold this in E. rewrite E. clear E H.
  destruct (GitHubRepository_team_and_prod this (name config)
              ("github-admins" :: this) (appRepositoryConfig config) None)
    as [A1 A2].
  destruct (GitHubRepository_team_and_prod this (name config +:+ "-infra")
              ("github-admins" :: this) (infraRepositoryConfig config)
              (Some [("reviewers",
                       VArr [VObj [("teams",
                                     VArr [VCall "Fn.tonumber"
                                             [VTok ("github-admins" :: this)
                                                "id"]])]])]))
    as [I1 I2].
  cbn [app] in *.
  rewrite !elem_of_cons, !elem_of_app, !elem_of_cons, !elem_of_app.
  split; [auto 10|]. split; [auto 10|]. split; [auto 10|]. auto 10.
Qed.

Local Transparent declared gcp_project.GcpProject github_repository.GitHubRepository.

Lemma Bootstrap_repository_access_witness :
  let admins := VTok ["github-admins"; "acme"] "id" in
  admin_team_decl ["acme"; "acme"] admins ∈ added other_world acme_run.1
  /\ admin_team_decl ["acme-infra"; "acme"] admins
     ∈ added other_world acme_run.1
  /\ Decl ["env-prod"; "acme"; "acme"] "RepositoryEnvironment"
       (github_repository.environment_defaults
          (VRes ["this"; "acme"; "acme"]) "prod")
     ∈ added other_world acme_run.1
  /\ Decl ["env-prod"; "acme-infra"; "acme"] "RepositoryEnvironment"
       (github_repository.environment_defaults
          (VRes ["this"; "acme-infra"; "acme"]) "prod"
        ++ [("reviewers",
              VArr [VObj [("teams", VArr [VCall "Fn.tonumber" [admins]])]])])
     ∈ added other_world acme_run.1.
Proof.
  apply (Bootstrap_repository_access "/srv/app" [] (acme_bootstrap "acme")
           other_world acme_run.1 (value_of acme_run.2)).
  vm_compute. reflexivity.
Defined.

(** ** The second Bootstrap: workflows through a CI branch *)
Import bootstrap.

Lemma of_kinds_spec (ks : list string) (d : decl) :
  of_kinds ks d = true <-> d_kind d ∈ ks.
Proof.
  unfold of_kinds. rewrite existsb_exists. split.
  - intros (k & Hk%list_elem_of_In & ->%String.eqb_eq). done.
  - intros Hk. exists (d_kind d). rewrite <- list_elem_of_In.
    split; [done|apply String.eqb_refl].
Qed.

Lemma none_of_kinds_sound (ks : list string) (l : list decl) :
  forallb (fun d => negb (of_kinds ks d)) l = true ->
  Forall (fun d => d_kind d ∉ ks) l.
Proof.
  rewrite forallb_forall, Forall_forall.
  intros H d Hd Hin. specialize (H d). rewrite <- list_elem_of_In in H.
  specialize (H Hd). apply negb_true_iff in H.
  apply of_kinds_spec in Hin. congruence.
Qed.

Lemma filter_none_of_kinds (ks ks' : list string) (l : list decl) :
  ks' ⊆ ks ->
  Forall (fun d => d_kind d ∉ ks) l ->
  List.filter (of_kinds ks') l = [].
Proof.
  intros Hs. induction 1 as [|d l Hd _ IH]; [done|].
  cbn [List.filter]. destruct (of_kinds ks' d) eqn:E; [|exact IH].
  apply of_kinds_spec in E. exfalso. apply Hd. by apply Hs.
Qed.

Lemma GcpProject_outside_ci scope config :
  Forall (fun d => d_kind d ∉ ci_kinds)
    (declared (gcp_project.GcpProject scope config)).
Proof.
  apply none_of_kinds_sound. unfold gcp_project.GcpProject.
  peel_declared. vm_compute. reflexivity.
Qed.

Lemma GitHubRepository_outside_ci scope config :
  Forall (fun d => d_kind d ∉ ci_kinds)
    (declared (github_repository.GitHubRepository scope config)).
Proof.
  apply none_of_kinds_sound. unfold github_repository.GitHubRepository.
  peel_declared.
  destruct (from_option truthy false (github_repository.adminTeam config));
    vm_compute; reflexivity.
Qed.

Local Opaque declared gcp_project.GcpProject github_repository.GitHubRepository.

Lemma Bootstrap_ci_tail dirname scope config w w' inst :
  bootstrap_ci.Bootstrap dirname scope config w = (w', Ok inst) ->
  let this := name config :: scope in
  exists front,
    added w w'
    = front
      ++ (if negb (default false (disableGitHubWorkflows config))
          then ci_workflows dirname this (name config) else [])
      ++ (if truthy_str (domain config)
          then dns_zones this (name config) (default "" (domain config))
          else [])
    /\ Forall (fun d => d_kind d ∉ ci_kinds) front.
Proof.
  intros H this. unfold bootstrap_ci.Bootstrap in H.
  apply bind_inv_ok in H as (w0 & p & (_ & E0 & ->)%construct_inv_ok & H).
  apply (f_equal nodes) in E0. simpl in E0.
  apply bind_inv_ok in H as (w1 & sysadminProject & E1 & H).
  apply bind_inv_ok in H as (w2 & devProject & E2 & H).
  apply bind_inv_ok in H as (w3 & prodProject & E3 & H).
  apply bind_inv_ok in H as (w4 & ? & [-> E4]%register_nodes & H).
  apply bind_inv_ok in H as (w5 & apprepo & E5 & H).
  apply bind_inv_ok in H as (w6 & infraRepo & E6 & H).
  apply bind_inv_ok in H as (w7 & ? & Hwf & H).
  apply bind_inv_ok in H as (w8 & ? & Hdns & H).
  injection H as <- _.
  pose proof (GcpProject_value _ _ _ _ _ E2) as ->.
  pose proof (GcpProject_value _ _ _ _ _ E3) as ->.
  pose proof (GitHubRepository_value _ _ _ _ _ E5) as ->.
  pose proof (GitHubRepository_value _ _ _ _ _ E6) as ->.
  apply GcpProject_nodes in E1, E2, E3.
  apply GitHubRepository_nodes in E5, E6.
  assert (nodes w7
          = nodes w6
            ++ (if negb (default false (disableGitHubWorkflows config))
                then ci_workflows dirname this (name config) else []))
    as E7.
  { destruct (negb _).
    - cbn [for_each] in Hwf.
      apply bind_inv_ok in Hwf as (wa & ? & Hvars & Hwf).
      apply bind_inv_ok in Hvars as (wb & ? & Hinfra & Happ).
      apply bind_inv_ok in Happ as (wc & ? & Happ & Hend).
      injection Hend as <- _.
      invert_reads Hinfra. invert_register Hinfra Ea1.
      invert_reads Hinfra. invert_register Hinfra Ea2.
      invert_reads Hinfra. invert_register Hinfra Ea3.
      invert_reads Hinfra. invert_register Hinfra Ea4.
      injection Hinfra as <- _.
      invert_reads Happ. invert_register Happ Eb1.
      invert_reads Happ. invert_register Happ Eb2.
      invert_reads Happ. invert_register Happ Eb3.
      invert_reads Happ. invert_register Happ Eb4.
      injection Happ as <- _.
      invert_register Hwf Ec1.
      invert_reads Hwf. invert_register Hwf Ec2.
      invert_reads Hwf. invert_register Hwf Ec3.
      invert_reads Hwf. invert_register Hwf Ec4.
      invert_reads Hwf. invert_register Hwf Ec5.
      injection Hwf as <- _.
      rewrite Ec5, Ec4, Ec3, Ec2, Ec1, Eb4, Eb3, Eb2, Eb1, Ea4, Ea3, Ea2, Ea1.
      rewrite <- !app_assoc. reflexivity.
    - injection Hwf as <- _. by rewrite app_nil_r. }
  assert (nodes w8
          = nodes w7
            ++ (if truthy_str (domain config)
                then dns_zones this (name config) (default "" (domain config))
                else []))
    as E8.
  { destruct (truthy_str _).
    - invert_reads Hdns. invert_register Hdns Ea.
      invert_reads Hdns. invert_register Hdns Eb.
      invert_reads Hdns. invert_register Hdns Ec.
      injection Hdns as <- _. rewrite Ec, Eb, Ea, <- !app_assoc. reflexivity.
    - injection Hdns as <- _. by rewrite app_nil_r. }
  exists (Decl this "Bootstrap" []
          :: declared (gcp_project.GcpProject this
                         (project_config config "sysadmin" "prod"))
          ++ declared (gcp_project.GcpProject this
                         (project_config config "dev" "dev"))
          ++ declared (gcp_project.GcpProject this
                         (project_config config "prod" "prod"))
          ++ team_decl this (name config)
          :: declared (github_repository.GitHubRepository this
                         (repository_config (name config)
                            (VTok ("github-admins" :: this) "id")
                            (appRepositoryConfig config) None))
          ++ declared (github_repository.GitHubRepository this
                         (repository_config (name config +:+ "-infra")
                            (VTok ("github-admins" :: this) "id")
                            (infraRepositoryConfig config)
                            (Some [("reviewers",
                                     VArr [VObj [("teams",
                                                   VArr [VCall "Fn.tonumber"
                                                           [VTok ("github-admins" :: this) "id"]])]]);
                                   ("dependsOn",
                                     VArr [VRes ("github-admins" :: this)])])))).
  split.
  - apply added_nodes. rewrite E8, E7, E6, E5, E4, E3, E2, E1, E0.
    repeat (progress (cbn [app]; rewrite <- ?app_assoc)). reflexivity.
  - repeat first
      [ apply Forall_app; split
      | apply GcpProject_outside_ci
      | apply GitHubRepository_outside_ci
      | apply Forall_cons; split;
          [ let Hk := fresh in
            intros Hk; unfold ci_kinds in Hk; cbn [d_kind team_decl] in Hk;
            repeat (apply elem_of_cons in Hk as [Hk|Hk]; [discriminate Hk|]);
            by apply elem_of_nil in Hk |]
      | apply Forall_nil ].
Qed.

Local Transparent declared gcp_project.GcpProject github_repository.GitHubRepository.

(** Property X20.  The second [Bootstrap], once composed, has provisioned
    the workflows exactly if they are not disabled.  Then it has declared,
    in this order: four [ActionsVariable]s for the infrastructure
    repository and four for the application repository, with the ids and
    numbers of the dev and prod projects; a random suffix kept as long as
    the two workflow files do not change; a branch [tf-<suffix>] of the
    infrastructure repository; the two workflow files, committed to that
    branch; and a pull request from that branch to the branch it was cut
    from, which waits for both files.  With [disableGitHubWorkflows] true
    it has declared none of these. *)
Theorem Bootstrap_ci_workflows dirname scope config w w' inst :
  bootstrap_ci.Bootstrap dirname scope config w = (w', Ok inst) ->
  List.filter (of_kinds workflow_kinds) (added w w')
  = if default false (disableGitHubWorkflows config) then []
    else ci_workflows dirname (name config :: scope) (name config).
Proof.
  intros H. destruct (Bootstrap_ci_tail _ _ _ _ _ _ H) as (front & -> & Hf).
  rewrite !List.filter_app.
  rewrite (filter_none_of_kinds ci_kinds workflow_kinds front); [|
    unfold workflow_kinds, ci_kinds; intros k Hk;
    repeat (apply elem_of_cons in Hk as [->|Hk]; [solve_elem|]);
    by apply elem_of_nil in Hk | done].
  destruct (default false (disableGitHubWorkflows config));
    destruct (truthy_str (domain config)); reflexivity.
Qed.

Lemma Bootstrap_ci_workflows_witness :
  List.filter (of_kinds workflow_kinds) (added other_world acme_ci_run.1)
  = ci_workflows "/srv/app" ["acme"] "acme".
Proof.
  apply (Bootstrap_ci_workflows "/srv/app" [] (acme_bootstrap "acme")
           other_world acme_ci_run.1 (value_of acme_ci_run.2)).
  vm_compute. reflexivity.
Defined.

(** ** GcpProject across its revisions *)
Import gcp_project.

Lemma GcpProject_r2_local scope config :
  local (under (projectId config :: scope))
    (gcp_project_r2.GcpProject scope config).
Proof. unfold gcp_project_r2.GcpProject. solve_local. Qed.

Lemma GcpProject_r2_array_free scope config :
  array_free (gcp_project_r2.GcpProject scope config).
Proof. unfold gcp_project_r2.GcpProject. solve_array_free. Qed.

(** The declaration of a list that sits at a given path. *)
Ltac pick_decl :=
  match goal with
  | |- exists d, d ∈ ?l /\ _ =>
      let rec go l :=
        lazymatch l with
        | ?x :: ?r =>
            first [ exists x; split; [solve_elem|reflexivity] | go r ]
        end in
      go l
  end.

(** Two paths that differ: at the first id, or in their length. *)
Ltac apart :=
  let E := fresh in
  intros E;
  first
    [ discriminate E
    | injection E as E _; discriminate E
    | apply (f_equal (@length string)) in E; simpl in E; lia ].

(** Property X21.  Moving from the second revision of [GcpProject] to
    the current one keeps every declaration and adds four.  For every
    configuration whose project id is not empty and has no [/], under
    every free scope, both succeed; what the second revision declares
    is declared by the current one at the same path, with the same kind
    and the same configuration, in the same order; whatever else the
    current one declares sits at [dns], [gcp-testable-permissions],
    [iam-policy-viewer] or [terraform-viewer-iam-policy-viewer]; and
    each of these four is declared by the current one and by nothing in
    the second revision, so the current one declares four more. *)
Theorem GcpProject_revision_keeps_declarations scope config w :
  plain_id (projectId config) ->
  vacant (projectId config :: scope) w ->
  let this := projectId config :: scope in
  exists before after v,
    gcp_project_r2.GcpProject scope config w
    = (World (nodes w ++ before) (arrays w), Ok v)
    /\ GcpProject scope config w
       = (World (nodes w ++ after) (arrays w),
          Ok (GcpProject_instance scope config))
    /\ before `sublist_of` after
    /\ (forall d, d ∈ after ->
          d ∈ before \/ exists id, id ∈ GcpProject_additions
                                   /\ d_path d = id :: this)
    /\ (forall id, id ∈ GcpProject_additions ->
          (exists d, d ∈ after /\ d_path d = id :: this)
          /\ forall e, e ∈ before -> d_path e <> id :: this)
    /\ length after = (length before + 4)%nat.
Proof.
  intros _ Hv this.
  exists (declared (gcp_project_r2.GcpProject scope config)),
    (declared (GcpProject scope config)),
    (value_of (outcome (gcp_project_r2.GcpProject scope config))).
  split; [|split; [by apply GcpProject_succeeds|]].
  - rewrite (frame _ _ w (GcpProject_r2_local scope config)
               (GcpProject_r2_array_free scope config) Hv).
    f_equal. unfold outcome, gcp_project_r2.GcpProject.
    rewrite construct_frame; [|apply vacant_empty|solve_local].
    vm_compute. reflexivity.
  - unfold gcp_project_r2.GcpProject, GcpProject. do 2 peel_declared.
    destruct config as [pid name org billing repo env location beta deps].
    match goal with
    | |- context [ nodes ?x `sublist_of` nodes ?y ] =>
        set (l1 := nodes x); set (l2 := nodes y)
    end.
    vm_compute in l1. vm_compute in l2. subst l1 l2. subst this.
    cbn [projectId]. split; [|split; [|split]].
    + repeat first
        [ apply sublist_nil | apply sublist_skip | apply sublist_cons ].
    + intros d Hd.
      repeat (apply elem_of_cons in Hd as [->|Hd];
              [first [ left; solve_elem
                     | right; eexists; split; [|reflexivity];
                       unfold GcpProject_additions; solve_elem ]|]).
      by apply elem_of_nil in Hd.
    + intros id Hid. unfold GcpProject_additions in Hid.
      repeat (apply elem_of_cons in Hid as [->|Hid]);
        try (by apply elem_of_nil in Hid);
        (split;
         [ pick_decl
         | intros e He;
           repeat (apply elem_of_cons in He as [->|He];
                   [cbn [d_path]; apart|]);
           by apply elem_of_nil in He ]).
    + reflexivity.
Qed.

Lemma GcpProject_revision_keeps_declarations_witness :
  exists before after v,
    gcp_project_r2.GcpProject [] acme_project_prod empty_world
    = (World before [], Ok v)
    /\ GcpProject [] acme_project_prod empty_world
       = (World after [], Ok (GcpProject_instance [] acme_project_prod))
    /\ before `sublist_of` after
    /\ (forall d, d ∈ after ->
          d ∈ before \/ exists id, id ∈ GcpProject_additions
                                   /\ d_path d = [id; "acme-prod"])
    /\ (forall id, id ∈ GcpProject_additions ->
          (exists d, d ∈ after /\ d_path d = [id; "acme-prod"])
          /\ forall e, e ∈ before -> d_path e <> [id; "acme-prod"])
    /\ length after = (length before + 4)%nat.
Proof.
  apply (GcpProject_revision_keeps_declarations [] acme_project_prod
           empty_world).
  - split; [discriminate|reflexivity].
  - apply vacant_empty.
Defined.

Lemma GcpProject_r1_local scope config :
  local (under (gcp_project_r1.projectId config :: scope))
    (gcp_project_r1.GcpProject scope config).
Proof. unfold gcp_project_r1.GcpProject. solve_local. Qed.

Lemma GcpProject_r1_array_free scope config :
  array_free (gcp_project_r1.GcpProject scope config).
Proof. unfold gcp_project_r1.GcpProject. solve_array_free. Qed.

(** Property X22.  The first revision of [GcpProject] gave the output of
    the identity provider the same id, [github-identity-provider], in
    every project; the second gives it the id
    [github-identity-provider-<projectId>].  For a configuration without
    [terraformStateLocation] this is the only difference in what the two
    declare: under a free scope both succeed, and the second declares
    what the first declares, with the output renamed. *)
Theorem GcpProject_first_revision_output scope config w :
  vacant (projectId config :: scope) w ->
  terraformStateLocation config = None ->
  let this := projectId config :: scope in
  exists first second v1 v2,
    gcp_project_r1.GcpProject scope (first_revision_config config) w
    = (World (nodes w ++ first) (arrays w), Ok v1)
    /\ gcp_project_r2.GcpProject scope config w
       = (World (nodes w ++ second) (arrays w), Ok v2)
    /\ second = map (rename_output this (projectId config)) first
    /\ Decl ("github-identity-provider" :: this) "TerraformOutput"
         [("staticId", VBool true);
          ("value", VTok ("github-id-provider" :: this) "name")]
       ∈ first.
Proof.
  intros Hv Hloc this.
  exists (declared (gcp_project_r1.GcpProject scope
                      (first_revision_config config))),
    (declared (gcp_project_r2.GcpProject scope config)),
    (value_of (outcome (gcp_project_r1.GcpProject scope
                          (first_revision_config config)))),
    (value_of (outcome (gcp_project_r2.GcpProject scope config))).
  split; [|split].
  - rewrite (frame _ _ w
               (GcpProject_r1_local scope (first_revision_config config))
               (GcpProject_r1_array_free scope (first_revision_config config))
               Hv).
    f_equal. unfold outcome, gcp_project_r1.GcpProject.
    rewrite construct_frame; [|apply vacant_empty|solve_local].
    vm_compute. reflexivity.
  - rewrite (frame _ _ w (GcpProject_r2_local scope config)
               (GcpProject_r2_array_free scope config) Hv).
    f_equal. unfold outcome, gcp_project_r2.GcpProject.
    rewrite construct_frame; [|apply vacant_empty|solve_local].
    vm_compute. reflexivity.
  - unfold gcp_project_r1.GcpProject, gcp_project_r2.GcpProject.
    do 2 peel_declared. subst this.
    destruct config as [pid name org billing repo env location beta deps].
    simpl in Hloc. subst location.
    split; vm_compute; [reflexivity|solve_elem].
Qed.

Lemma GcpProject_first_revision_output_witness :
  exists first second v1 v2,
    gcp_project_r1.GcpProject [] (first_revision_config acme_project)
      empty_world
    = (World first [], Ok v1)
    /\ gcp_project_r2.GcpProject [] acme_project empty_world
       = (World second [], Ok v2)
    /\ second = map (rename_output ["acme-dev"] "acme-dev") first
    /\ Decl ["github-identity-provider"; "acme-dev"] "TerraformOutput"
         [("staticId", VBool true);
          ("value", VTok ["github-id-provider"; "acme-dev"] "name")]
       ∈ first.
Proof.
  apply (GcpProject_first_revision_output [] acme_project empty_world).
  - apply vacant_empty.
  - reflexivity.
Defined.

(** ** CurioStackHosting: the id of the site *)
Import curiostack_hosting.

Lemma replace_first_at (a b : ascii) (s t : string) :
  includes a s = false ->
  replace_first a b (s +:+ String a t) = s +:+ String b t.
Proof.
  induction s as [|c s IH]; simpl.
  - intros _. by rewrite Ascii.eqb_refl.
  - intros [Hc Hs]%orb_false_iff. by rewrite Hc, (IH Hs).
Qed.

Lemma toLowerCase_append (s t : string) :
  toLowerCase (s +:+ t) = toLowerCase s +:+ toLowerCase t.
Proof. induction s as [|c s IH]; simpl; [done|]. by rewrite IH. Qed.

Lemma grows_destructure (P : path -> Prop) v k : grows P (destructure v k).
Proof. destruct v; simpl; auto using @grows_throw, @grows_get_prop, @grows_ret. Qed.

(** Property X23.  For a display name of ASCII characters without [/],
    the id under which a [CurioStackHosting] registers is the display
    name in lower case with the first space, and only the first,
    replaced by a hyphen: for the display name [a b], where [a] has no
    space, it is the lower-case [a], a hyphen, and the lower-case [b]
    with the spaces it has.  Where that id is free the construct is
    registered under it before anything else happens, and it stays
    registered however the construction ends. *)
Theorem CurioStackHosting_id scope config w a b :
  ascii_only (displayName config) = true ->
  includes "/" (displayName config) = false ->
  displayName config = a +:+ " " +:+ b ->
  includes " " a = false ->
  has_path ((toLowerCase a +:+ "-" +:+ toLowerCase b) :: scope) w = false ->
  exists rest,
    nodes (CurioStackHosting scope config w).1
    = nodes w
      ++ Decl ((toLowerCase a +:+ "-" +:+ toLowerCase b) :: scope)
           "CurioStackHosting" []
      :: rest.
Proof.
  intros _ _ Hname Ha Hfree. unfold CurioStackHosting. rewrite Hname.
  change (" " +:+ b) with (String " "%char b).
  rewrite replace_first_at, toLowerCase_append by done.
  change (toLowerCase (String "-"%char b)) with ("-" +:+ toLowerCase b).
  set (id := toLowerCase a +:+ "-" +:+ toLowerCase b) in *.
  unfold bind at 1, construct, bind at 1. rewrite register_vacant by done.
  cbn [ret].
  match goal with
  | |- context [ nodes (?k (add_node ?d w)).1 ] =>
      assert (grows (fun _ => True) k) as Hg
  end.
  { repeat first
      [ apply grows_ret | apply grows_throw | apply grows_get_prop
      | apply grows_get_path | apply grows_destructure
      | apply grows_register; done
      | apply grows_bind
      | intro_binder ]. }
  destruct (Hg (add_node (Decl (id :: scope) "CurioStackHosting" []) w))
    as (l & E & _).
  exists l. rewrite E. unfold add_node. simpl. by rewrite <- app_assoc.
Qed.

Lemma CurioStackHosting_id_witness :
  exists rest,
    nodes (CurioStackHosting [] acme_cool_site empty_world).1
    = Decl ["acme-cool site"] "CurioStackHosting" [] :: rest.
Proof.
  apply (CurioStackHosting_id [] acme_cool_site empty_world "Acme" "Cool Site").
  - reflexivity.
  - reflexivity.
  - reflexivity.
  - reflexivity.
  - reflexivity.
Defined.

(** ** GitHubRepository: the branches that may deploy *)
Import github_repository.

(** Property X24.  The deployment policies of a [GitHubRepository] are
    fixed.  Whatever the caller's overrides hold, a [GitHubRepository]
    that has been composed has exactly three
    [RepositoryEnvironmentDeploymentPolicy] declarations, in this order:
    [main] for the environment declared as [env-dev], and [release/*]
    for the ones declared as [env-prod-viewer] and [env-prod].  Each
    names its environment through the environment resource, not through
    a literal, and the environment declared as [env-dev-viewer] has no
    policy.  This is about the policy resources only: the
    [deploymentBranchPolicy] setting of an environment is not covered. *)
Theorem GitHubRepository_deployment_branches scope config w w' inst :
  GitHubRepository scope config w = (w', Ok inst) ->
  let this := name config :: scope in
  List.filter (has_kind "RepositoryEnvironmentDeploymentPolicy") (added w w')
  = [deployment_policy this "env-dev-policy" "env-dev" "main";
     deployment_policy this "env-prod-viewer-policy" "env-prod-viewer"
       "release/*";
     deployment_policy this "env-prod-policy" "env-prod" "release/*"].
Proof.
  intros H this. apply GitHubRepository_inv in H as ->. rewrite added_app.
  unfold GitHubRepository. peel_declared.
  destruct (from_option truthy false (adminTeam config));
    vm_compute; reflexivity.
Qed.

Lemma GitHubRepository_deployment_branches_witness :
  List.filter (has_kind "RepositoryEnvironmentDeploymentPolicy")
    (added empty_world (GitHubRepository [] acme_repository empty_world).1)
  = [deployment_policy ["acme"] "env-dev-policy" "env-dev" "main";
     deployment_policy ["acme"] "env-prod-viewer-policy" "env-prod-viewer"
       "release/*";
     deployment_policy ["acme"] "env-prod-policy" "env-prod" "release/*"].
Proof.
  apply (GitHubRepository_deployment_branches [] acme_repository empty_world
           (GitHubRepository [] acme_repository empty_world).1
           (value_of (GitHubRepository [] acme_repository empty_world).2)).
  vm_compute. reflexivity.
Defined.

(** ** The second Bootstrap: the names a project cannot have *)
Import bootstrap.

Lemma GcpProject_taken scope config w w' v :
  gcp_project.GcpProject scope config w = (w', Ok v) ->
  has_path (gcp_project.projectId config :: scope) w' = true.
Proof.
  intros H. unfold gcp_project.GcpProject in H.
  apply construct_bind_taken in H; [done|]. solve_grows.
Qed.

(** One registration further, with two ids known to be taken. *)
Ltac free_step2 H T T' :=
  let F := fresh "F" in
  let Hr := fresh "Hr" in
  let Hn := fresh "Hn" in
  let N := fresh "N" in
  let N' := fresh "N" in
  apply bind_inv_ok in H as (? & ? & Hr & H);
  pose proof (register_free _ _ _ _ _ _ _ Hr) as F;
  pose proof (taken_is_not_free _ _ _ _ T F) as N;
  pose proof (taken_is_not_free _ _ _ _ T' F) as N';
  apply register_nodes in Hr as [-> Hn];
  apply (has_path_mono _ _ _ _ Hn) in T;
  apply (has_path_mono _ _ _ _ Hn) in T';
  clear F Hn.

Ltac free_steps2 H T T' :=
  repeat first
    [ apply bind_inv_ok in H as (? & ? & [-> ->]%get_path_inv & H)
    | apply bind_inv_ok in H as (? & ? & [-> ->]%get_prop_inv & H)
    | free_step2 H T T' ].

Ltac free_steps H T :=
  repeat first
    [ apply bind_inv_ok in H as (? & ? & [-> ->]%get_path_inv & H)
    | apply bind_inv_ok in H as (? & ? & [-> ->]%get_prop_inv & H)
    | let N := fresh "N" in free_step H T N ].

Lemma Bootstrap_ci_reserved_free dirname scope config w w' inst :
  bootstrap_ci.Bootstrap dirname scope config w = (w', Ok inst) ->
  name config ∉ Bootstrap_ci_reserved config.
Proof.
  intros H. unfold bootstrap_ci.Bootstrap in H.
  apply bind_inv_ok in H as (w0 & p & (_ & E0 & ->)%construct_inv_ok & H).
  apply bind_inv_ok in H as (w1 & sysadminProject & E1 & H).
  apply bind_inv_ok in H as (w2 & devProject & E2 & H).
  apply bind_inv_ok in H as (w3 & prodProject & E3 & H).
  apply bind_inv_ok in H as (w4 & ? & [-> E4]%register_nodes & H).
  apply bind_inv_ok in H as (w5 & apprepo & E5 & H).
  apply bind_inv_ok in H as (w6 & infraRepo & E6 & H).
  apply bind_inv_ok in H as (w7 & ? & Hwf & H).
  apply bind_inv_ok in H as (w8 & ? & Hdns & _).
  pose proof (GcpProject_taken _ _ _ _ _ E2) as Td.
  simpl gcp_project.projectId in Td.
  apply GcpProject_nodes in E3. apply (has_path_mono _ _ _ _ E3) in Td.
  apply (has_path_mono _ _ _ _ E4) in Td.
  pose proof (GitHubRepository_taken _ _ _ _ _ E5) as [F5 T5].
  simpl github_repository.name in F5, T5.
  assert (name config <> "github-admins") as N0.
  { intros Heq. rewrite Heq in F5. unfold has_path in F5.
    rewrite E4, existsb_app in F5. cbn [existsb d_path] in F5.
    rewrite Heq, path_eqb_refl in F5.
    by rewrite orb_true_r in F5. }
  apply GitHubRepository_nodes in E5, E6.
  apply (has_path_mono _ _ _ _ E5) in Td.
  apply (has_path_mono _ _ _ _ E6) in Td, T5.
  clear E0 E1 E2 E3 E4 E5 E6 F5.
  assert ((name config
           ∉ (if negb (default false (disableGitHubWorkflows config))
              then ci_own_ids ++ ci_variable_stems else []))
          /\ has_path (name config :: name config :: scope) w7 = true)
    as [Nwf T7].
  { destruct (negb (default false (disableGitHubWorkflows config)));
      [|injection Hwf as <-; split; [apply not_elem_of_nil|done]].
    cbn [for_each] in Hwf.
    apply bind_inv_ok in Hwf as (wa & ? & Hvars & Hwf).
    apply bind_inv_ok in Hvars as (wb & ? & Hinfra & Happ).
    apply bind_inv_ok in Happ as (wc & ? & Happ & Hend).
    injection Hend as <- _.
    free_steps2 Hinfra T5 Td. injection Hinfra as <- _.
    free_steps2 Happ T5 Td. injection Happ as <- _.
    free_steps2 Hwf T5 Td. injection Hwf as <- _.
    split; [|done].
    unfold ci_own_ids, ci_variable_stems. cbn [app].
    repeat match goal with N : _ <> _ |- _ => progress cbn in N end.
    repeat (apply not_elem_of_cons; split;
            [first
               [ done
               | let Heq := fresh in
                 intros Heq;
                 match goal with
                 | N : _ +:+ _ <> _ |- _ => rewrite Heq in N; by apply N
                 end ]|]).
    apply not_elem_of_nil. }
  clear Hwf T5 Td.
  unfold Bootstrap_ci_reserved.
  apply not_elem_of_cons. split; [done|].
  apply not_elem_of_app. split; [done|].
  destruct (truthy_str (domain config)); [|apply not_elem_of_nil].
  free_steps Hdns T7.
  repeat (apply not_elem_of_cons; split; [done|]). apply not_elem_of_nil.
Qed.

Lemma append_stem (n s c : string) :
  c = n +:+ s -> n = substring 0 (String.length c - String.length s) c.
Proof.
  intros ->. rewrite length_append.
  replace (String.length n + String.length s - String.length s)%nat
    with (String.length n) by lia.
  by rewrite substring_append.
Qed.

Ltac distinct_from_stems :=
  let E := fresh in
  intros E; cbn in E;
  match type of E with
  | ?a = _ => let a' := eval vm_compute in a in change a with a' in E
  end;
  first
    [ discriminate E
    | by apply append_inj_l in E
    | by (apply append_neq_self in E)
    | by (symmetry in E; apply append_neq_self in E)
    | apply append_eq_inv in E; vm_compute in E; discriminate E
    | symmetry in E; apply append_eq_inv in E; vm_compute in E; discriminate E
    | congruence
    | apply append_stem in E;
      match type of E with
      | _ = ?b => let b' := eval vm_compute in b in change b with b' in E
      end;
      congruence ].

Ltac not_used_stems :=
  repeat (apply not_elem_of_cons; split; [distinct_from_stems|]);
  apply not_elem_of_nil.

Ltac register_step_stems :=
  match goal with
  | R : rooted _ _ ?w |- context [ bind (register ?kind ?p ?x ?c) ?k ?w ] =>
      let E := fresh "E" in
      let w' := fresh "w" in
      let R' := fresh "R" in
      destruct (step_register kind x c k p _ w R) as (w' & E & R');
      [ not_used_stems | rewrite E; clear E R; cbv beta ]
  end.

Lemma Bootstrap_ci_outcome_free dirname scope config :
  name config ∉ Bootstrap_ci_reserved config ->
  exists inst, outcome (bootstrap_ci.Bootstrap dirname scope config) = Ok inst.
Proof.
  intros Hn. unfold Bootstrap_ci_reserved in Hn.
  apply not_elem_of_cons in Hn as [N0 Hn].
  apply not_elem_of_app in Hn as [Hwf Hdns].
  unfold outcome, bootstrap_ci.Bootstrap.
  rewrite construct_frame; [|apply vacant_empty|].
  2:{ unfold gcp_project.GcpProject, github_repository.GitHubRepository.
      solve_local. }
  cbn [snd].
  pose proof (rooted_empty (name config :: scope) (arrays empty_world)) as R.
  change (World [] (arrays empty_world)) with (blank empty_world) in R.
  project_step.
  project_step.
  project_step.
  register_step.
  repository_step.
  repository_step.
  cbn [for_each fst snd].
  unfold ci_own_ids, ci_variable_stems in Hwf. cbn [app] in Hwf.
  destruct (negb (default false (disableGitHubWorkflows config)));
    destruct (truthy_str (domain config));
    repeat match goal with
      | H : _ ∉ _ :: _ |- _ => apply not_elem_of_cons in H as [? H]
      end;
    repeat first
      [ rewrite bind_assoc
      | rewrite bind_ret
      | read_step
      | register_step_stems ];
    by eexists.
Qed.

(** Property X25.  For a project name that is not empty and has no [/],
    under a scope that has no child of that name, the second [Bootstrap]
    succeeds exactly when the name of the project clashes with none of
    the children it declares itself for this configuration.  The names that clash are [github-admins]; unless the
    workflows are disabled, the ids of the eight variables and of the
    suffix, the branch, the two files and the pull request, and also the
    four names whose dev and prod projects would be called like a
    variable, such as [gh-var-app-gcp-project-id]; and the three DNS ids
    if a domain is given. *)
Theorem Bootstrap_ci_succeeds_iff dirname scope config w :
  plain_id (name config) ->
  vacant (name config :: scope) w ->
  (exists w' inst,
     bootstrap_ci.Bootstrap dirname scope config w = (w', Ok inst))
  <-> name config ∉ Bootstrap_ci_reserved config.
Proof.
  intros _ Hv. split.
  - intros (w' & inst & H). by eapply Bootstrap_ci_reserved_free.
  - intros Hn.
    destruct (Bootstrap_ci_outcome_free dirname scope config Hn) as [v Ho].
    rewrite (frame _ _ w (Bootstrap_ci_local dirname scope config)
               (Bootstrap_ci_array_free dirname scope config) Hv), Ho.
    eauto.
Qed.

Lemma Bootstrap_ci_succeeds_iff_witness :
  (exists w' inst,
     bootstrap_ci.Bootstrap "/srv/app" []
       (acme_bootstrap "gh-var-app-gcp-project-id") other_world
     = (w', Ok inst))
  <-> "gh-var-app-gcp-project-id"
      ∉ Bootstrap_ci_reserved (acme_bootstrap "gh-var-app-gcp-project-id").
Proof.
  apply (Bootstrap_ci_succeeds_iff "/srv/app" []
           (acme_bootstrap "gh-var-app-gcp-project-id") other_world).
  - split; [discriminate|reflexivity].
  - apply vacant_other. discriminate.
Defined.

(** ** CurioStackHosting: on a stack that carries its configuration *)
Import curiostack_hosting.

Lemma get_prop_defined v k :
  v <> VUndef -> get_prop v k = ret (prop_of v k).
Proof. by destruct v. Qed.

Lemma destructure_defined v k :
  v <> VUndef -> destructure v k = ret (prop_of v k).
Proof. by destruct v. Qed.

Lemma get_path_defined v k1 k2 :
  v <> VUndef -> prop_of v k1 <> VUndef ->
  get_path v [k1; k2] = ret (prop_of (prop_of v k1) k2).
Proof.
  intros Hv Hp. cbn [get_path]. rewrite (get_prop_defined v) by done.
  revert Hp. generalize (prop_of v k1). intros a Ha. by destruct a.
Qed.

Lemma local_destructure (P : path -> Prop) v k : local P (destructure v k).
Proof. destruct v; simpl; first [apply local_throw | apply local_ret]. Qed.

Lemma get_prop_inv_defined v k w w' x :
  get_prop v k w = (w', Ok x) -> v <> VUndef /\ x = prop_of v k /\ w' = w.
Proof. destruct v; simpl; intros [= <- <-]; done. Qed.

Lemma destructure_inv_defined v k w w' x :
  destructure v k w = (w', Ok x) -> v <> VUndef /\ x = prop_of v k /\ w' = w.
Proof. destruct v; simpl; intros [= <- <-]; done. Qed.

Lemma CurioStackHosting_defined scope config w :
  vacant (CurioStackHosting_path scope config) w ->
  curiostack config <> VUndef ->
  prop_of (curiostack config) "config" <> VUndef ->
  exists l,
    CurioStackHosting scope config w
    = (World (nodes w ++ l) (arrays w),
       Ok (instance (CurioStackHosting_path scope config) []))
    /\ map signature l
       = (CurioStackHosting_path scope config, "CurioStackHosting")
         :: map (fun ik => (ik.1 :: CurioStackHosting_path scope config, ik.2))
              CurioStackHosting_children
    /\ Forall (fun d => obj_lookup "dependsOn" (d_config d) = None) l
    /\ Forall (fun d =>
                 d_kind d ∈ firebase_kinds ->
                 obj_lookup "provider" (d_config d)
                 = Some (prop_of (prop_of (curiostack config) "config")
                           "googleBeta")) l.
Proof.
  unfold CurioStackHosting_path. intros Hv Hs Hc. unfold CurioStackHosting.
  rewrite construct_frame; [|done|].
  2:{ repeat first
        [ apply local_destructure | apply local_ret | apply local_get_prop
        | apply local_get_path | apply local_register; solve_region
        | apply local_bind | intro ]. }
  rewrite (get_path_defined (curiostack config)) by done.
  rewrite !(get_prop_defined (curiostack config)) by done.
  rewrite bind_ret.
  rewrite !(destructure_defined (prop_of (curiostack config) "config"))
    by done.
  generalize (prop_of (prop_of (curiostack config) "config") "googleBeta").
  generalize (prop_of (prop_of (curiostack config) "config") "project").
  generalize (prop_of (prop_of (curiostack config) "config") "domain").
  generalize (prop_of (curiostack config) "githubEnvironmentIamMember").
  generalize (toLowerCase (replace_first " " "-" (displayName config))).
  intros id member dom project beta.
  unfold blank, prepend.
  match goal with
  | |- context [ (?m (World [] ?a)).1 ] =>
      let r := eval vm_compute in (m (World [] a)) in
      change (m (World [] a)) with r
  end.
  cbn [fst snd nodes arrays]. rewrite <- app_assoc. cbn [app].
  eexists. split; [reflexivity|].
  split; [reflexivity|].
  split.
  - repeat constructor.
  - repeat (constructor;
            [intros Hk; try reflexivity; exfalso;
             unfold firebase_kinds in Hk; cbn [d_kind] in Hk;
             repeat (apply elem_of_cons in Hk as [Hk|Hk]; [discriminate Hk|]);
             by apply elem_of_nil in Hk|]).
    constructor.
Qed.

(** Property X26.  For a display name of ASCII characters that is not
    empty and has no [/], under a scope that has no child of its id, a
    [CurioStackHosting] is composed exactly when the stack it is given
    is defined and carries a [config]: the constructor reads
    [googleBeta], [project] and [domain] from
    [config.curiostack.config].  Once composed it has declared itself
    and nine resources, with these ids and kinds in this order; the
    three Firebase resources use the stack's [googleBeta] provider; and
    no declaration has a [dependsOn]: the [dependsOn] of the
    configuration is not read.  The arrays are as they were and the
    instance has no fields of its own. *)
Theorem CurioStackHosting_composes_iff scope config w :
  ascii_only (displayName config) = true ->
  plain_id (displayName config) ->
  vacant (CurioStackHosting_path scope config) w ->
  let this := CurioStackHosting_path scope config in
  let stack := curiostack config in
  ((exists w' inst, CurioStackHosting scope config w = (w', Ok inst))
   <-> stack <> VUndef /\ prop_of stack "config" <> VUndef)
  /\ forall w' inst,
       CurioStackHosting scope config w = (w', Ok inst) ->
       inst = instance this []
       /\ arrays w' = arrays w
       /\ map signature (added w w')
          = (this, "CurioStackHosting")
            :: map (fun ik => (ik.1 :: this, ik.2)) CurioStackHosting_children
       /\ Forall (fun d => obj_lookup "dependsOn" (d_config d) = None)
            (added w w')
       /\ Forall (fun d =>
                    d_kind d ∈ firebase_kinds ->
                    obj_lookup "provider" (d_config d)
                    = Some (prop_of (prop_of stack "config") "googleBeta"))
            (added w w').
Proof.
  intros _ _ Hv this stack.
  assert (forall w' inst,
            CurioStackHosting scope config w = (w', Ok inst) ->
            stack <> VUndef /\ prop_of stack "config" <> VUndef) as Hdef.
  { intros w' inst H. unfold CurioStackHosting in H.
    apply bind_inv_ok in H as (w1 & p & _ & H).
    apply bind_inv_ok in H as (w2 & c & (Hs & -> & ->)%get_prop_inv_defined & H).
    apply bind_inv_ok in H as (w3 & b & (Hc & _)%destructure_inv_defined & _).
    done. }
  split.
  - split.
    + intros (w' & inst & H). by eapply Hdef.
    + intros [Hs Hc].
      destruct (CurioStackHosting_defined scope config w Hv Hs Hc)
        as (l & E & _).
      eauto.
  - intros w' inst H.
    destruct (Hdef _ _ H) as [Hs Hc].
    destruct (CurioStackHosting_defined scope config w Hv Hs Hc)
      as (l & E & Hsig & Hdeps & Hprov).
    rewrite E in H. injection H as <- <-.
    rewrite added_app. done.
Qed.

Lemma CurioStackHosting_composes_iff_witness :
  let this := CurioStackHosting_path [] acme_configured_site in
  let stack := curiostack acme_configured_site in
  ((exists w' inst, CurioStackHosting [] acme_configured_site other_world = (w', Ok inst))
   <-> stack <> VUndef /\ prop_of stack "config" <> VUndef)
  /\ forall w' inst,
       CurioStackHosting [] acme_configured_site other_world = (w', Ok inst) ->
       inst = instance this []
       /\ arrays w' = arrays other_world
       /\ map signature (added other_world w')
          = (this, "CurioStackHosting")
            :: map (fun ik => (ik.1 :: this, ik.2)) CurioStackHosting_children
       /\ Forall (fun d => obj_lookup "dependsOn" (d_config d) = None)
            (added other_world w')
       /\ Forall (fun d =>
                    d_kind d ∈ firebase_kinds ->
                    obj_lookup "provider" (d_config d)
                    = Some (prop_of (prop_of stack "config") "googleBeta"))
            (added other_world w').
Proof.
  apply (CurioStackHosting_composes_iff [] acme_configured_site other_world).
  - reflexivity.
  - split; [discriminate|reflexivity].
  - apply vacant_other. discriminate.
Defined.
